(** * mds-core agency: event and telemetry validation, event submission

    A shallow embedding of the validation and submission code of the
    mds-agency package:

    - [badTelemetry], [badEvent], [lower], [writeTelemetry] and
      [computeCompositeVehicleData] of the agency utilities;
    - [submitVehicleEvent] of [packages/mds-agency/request-handlers.ts].

    The code is JavaScript working on parsed request bodies, so values are
    modelled dynamically ([JsVal]): the validators test [typeof], truthiness
    and [undefined]/[null] explicitly and those tests are kept as written.
    Exceptions (and rejected promises of [async] functions) are values of
    [outcome]. *)

From Stdlib Require Import List String Ascii Bool ZArith QArith Lia.
Import ListNotations.
Open Scope string_scope.

Set Implicit Arguments.

(* ================================================================== *)
(** ** JavaScript values *)

(** A number is NaN, an infinity, or a finite value.  Finite doubles are
    rationals and the code only compares them, so a finite number is kept
    as its rational value (both zeros are [0]; [-0 === 0] holds in JS). *)
Inductive JsNum : Type :=
| NaN
| Infinity (negative : bool)
| Fin (q : Q).

#[local] Unset Elimination Schemes.
Inductive JsVal : Type :=
| VUndefined
| VNull
| VBool (b : bool)
| VNum (n : JsNum)
| VStr (s : string)
| VArr (items : list JsVal)
| VObj (fields : list (string * JsVal)).
#[local] Set Elimination Schemes.

Definition num (z : Z) : JsVal := VNum (Fin (inject_Z z)).

(** Thrown values.  [TypeError] is the error of reading a property of
    [null] or [undefined]; [Error msg] is [new Error(msg)]. *)
Inductive JsError : Type :=
| TypeError (msg : string)
| Error (msg : string).

Definition message (e : JsError) : string :=
  match e with TypeError m => m | Error m => m end.

Inductive outcome (A : Type) : Type :=
| Ret (a : A)
| Throw (e : JsError).
Arguments Ret {A} a.
Arguments Throw {A} e.

Definition bind {A B} (m : outcome A) (k : A -> outcome B) : outcome B :=
  match m with
  | Ret a => k a
  | Throw e => Throw e
  end.

Notation "x <- m ;; k" := (bind m (fun x => k))
  (at level 61, m at next level, right associativity).

(** *** Primitive operations *)

Definition Qlt_bool (p q : Q) : bool := negb (Qle_bool q p).

(** [a < b] on numbers: every comparison with NaN is false. *)
Definition num_ltb (a b : JsNum) : bool :=
  match a, b with
  | NaN, _ | _, NaN => false
  | Fin p, Fin q => Qlt_bool p q
  | Infinity true, Infinity true => false
  | Infinity true, _ => true
  | _, Infinity true => false
  | Infinity false, _ => false
  | Fin _, Infinity false => true
  end.

(** [a === b] on numbers. *)
Definition num_eqb (a b : JsNum) : bool :=
  match a, b with
  | Fin p, Fin q => Qeq_bool p q
  | Infinity s, Infinity t => Bool.eqb s t
  | _, _ => false
  end.

Definition isNaN (n : JsNum) : bool :=
  match n with NaN => true | _ => false end.

Definition typeof (v : JsVal) : string :=
  match v with
  | VUndefined => "undefined"
  | VNull | VArr _ | VObj _ => "object"
  | VBool _ => "boolean"
  | VNum _ => "number"
  | VStr _ => "string"
  end.

(** ToBoolean: the test of [if (v)], [!v], [a && b], [a || b], [c ? :]. *)
Definition truthy (v : JsVal) : bool :=
  match v with
  | VUndefined | VNull => false
  | VBool b => b
  | VNum NaN => false
  | VNum (Infinity _) => true
  | VNum (Fin q) => negb (Qeq_bool q 0)
  | VStr s => negb (s =? "")
  | VArr _ | VObj _ => true
  end.

Definition is_undefined (v : JsVal) : bool :=
  match v with VUndefined => true | _ => false end.

Definition is_null (v : JsVal) : bool :=
  match v with VNull => true | _ => false end.

Definition nullish (v : JsVal) : bool := is_undefined v || is_null v.

(** [v === s] for a string literal [s]. *)
Definition is_str (v : JsVal) (s : string) : bool :=
  match v with VStr t => t =? s | _ => false end.

(** [Number.isInteger(v)]. *)
Definition Number_isInteger (v : JsVal) : bool :=
  match v with
  | VNum (Fin q) => (Qnum q mod Zpos (Qden q) =? 0)%Z
  | _ => false
  end.

Definition Array_isArray (v : JsVal) : bool :=
  match v with VArr _ => true | _ => false end.

(** Own properties of an object, first binding of a key. *)
Fixpoint lookup (k : string) (fs : list (string * JsVal)) : option JsVal :=
  match fs with
  | [] => None
  | (k', v) :: rest => if k' =? k then Some v else lookup k rest
  end.

(** [o.k] for [o] neither [null] nor [undefined]: a missing property reads
    as [undefined], and so does any of the property names used here on a
    boolean, number, string or array.  Reading a property of [null] or
    [undefined] throws; each function below raises that [TypeError] at the
    place of its first such read. *)
Definition prop (o : JsVal) (k : string) : JsVal :=
  match o with
  | VObj fs => match lookup k fs with Some v => v | None => VUndefined end
  | _ => VUndefined
  end.

(** [o.k = v] on an object held in a variable: the updated object. *)
Fixpoint assign (fs : list (string * JsVal)) (k : string) (v : JsVal)
  : list (string * JsVal) :=
  match fs with
  | [] => [(k, v)]
  | (k', v') :: rest =>
      if k' =? k then (k', v) :: rest else (k', v') :: assign rest k v
  end.

Definition set_prop (o : JsVal) (k : string) (v : JsVal) : JsVal :=
  match o with
  | VObj fs => VObj (assign fs k v)
  | _ => o
  end.

(** [arr.includes(v)] for an array [arr] of strings (SameValueZero: only a
    string equal to an element is found). *)
Definition includes (arr : list string) (v : JsVal) : bool :=
  match v with
  | VStr s => existsb (String.eqb s) arr
  | _ => false
  end.

(** [arr.includes(s)] for an array of arbitrary values and a string [s]. *)
Definition includes_str (arr : list JsVal) (s : string) : bool :=
  existsb (fun v => is_str v s) arr.

(* ================================================================== *)
(** ** Error descriptors *)

(** A template literal, with the interpolated values kept as values:
    [`invalid lat ${lat}`] is [[Text "invalid lat "; Subst lat]]. *)
Inductive Piece : Type :=
| Text (s : string)
| Subst (v : JsVal).

Definition Template := list Piece.

Record ErrorObject : Type := mkError {
  error : string;
  error_description : Template
}.

Definition dquote : string := String (ascii_of_nat 34) EmptyString.
Definition quoted (s : string) : string := dquote ++ s ++ dquote.

Definition missing_param (d : Template) : ErrorObject := mkError "missing_param" d.
Definition bad_param (d : Template) : ErrorObject := mkError "bad_param" d.

(** The [TypeError] of a destructuring [const { ... } = v] or property read
    on [null]/[undefined] (the text of the message is the engine's). *)
Definition null_read : JsError :=
  TypeError "Cannot read properties of null or undefined".

(* ================================================================== *)
(** ** The validators *)

(** Helpers of [@mds-core/mds-utils], whose sources are not part of the
    package, taken as an interface of predicates on values. *)
Class MdsUtils : Type := {
  isUUID : JsVal -> bool;
  isPct : JsVal -> bool;
  isTimestamp : JsVal -> bool;
  isFloat : JsVal -> bool
}.

(** The vocabulary tables of [@mds-core/mds-types] (arrays of strings),
    likewise not part of the package. *)
Class MdsTypes : Type := {
  MICRO_MOBILITY_VEHICLE_EVENTS : list string;
  MICRO_MOBILITY_VEHICLE_STATES : list string;
  TAXI_VEHICLE_EVENTS : list string;
  TAXI_VEHICLE_STATES : list string;
  TAXI_TRIP_EXIT_EVENTS : list string;
  TNC_VEHICLE_EVENT : list string;
  TNC_VEHICLE_STATE : list string;
  TNC_TRIP_EXIT_EVENTS : list string;
  TRIP_STATES : list string
}.

(** Modelled from the spec: [areThereCommonElements] of
    [@mds-core/mds-utils] is not part of the package; the spec reads it as
    "[event_types] intersects the set" / "has no overlap with the set":
    some element of the second array is an element of the first. *)
Definition areThereCommonElements (arr1 : list string) (arr2 : list JsVal) : bool :=
  existsb (includes arr1) arr2.

Section Validators.

Context {U : MdsUtils} {T : MdsTypes}.

(** [typeof x !== 'number' || Number.isNaN(x) || x < lo || x > hi || x === 0] *)
Definition bad_coordinate (lo hi : Z) (x : JsVal) : bool :=
  match x with
  | VNum n =>
      isNaN n
      || num_ltb n (Fin (inject_Z lo))
      || num_ltb (Fin (inject_Z hi)) n
      || num_eqb n (Fin 0)
  | _ => true
  end.

(** [x !== undefined && x !== null && !check(x)] *)
Definition present_and_not (check : JsVal -> bool) (x : JsVal) : bool :=
  negb (is_undefined x) && negb (is_null x) && negb (check x).

Definition badTelemetry (telemetry : JsVal) : outcome (option ErrorObject) :=
  let LATITUDE_LOWER_BOUND := (-90)%Z in
  let LATITUDE_UPPER_BOUND := 90%Z in
  let LONGITUDE_LOWER_BOUND := (-180)%Z in
  let LONGITUDE_UPPER_BOUND := 180%Z in
  if negb (truthy telemetry) then
    Ret (Some (missing_param [Text "invalid missing telemetry"]))
  else
    let device_id := prop telemetry "device_id" in
    let timestamp := prop telemetry "timestamp" in
    let gps := prop telemetry "gps" in
    let charge := prop telemetry "charge" in
    if negb (typeof gps =? "object") then
      Ret (Some (missing_param [Text "invalid missing gps"]))
    else if nullish gps then
      (* const { altitude, accuracy, speed, satellites } = gps *)
      Throw null_read
    else
      let altitude := prop gps "altitude" in
      let accuracy := prop gps "accuracy" in
      let speed := prop gps "speed" in
      let satellites := prop gps "satellites" in
      let lat := prop gps "lat" in
      let lng := prop gps "lng" in
      if negb (isUUID device_id) then
        Ret (Some (missing_param [Text "no device_id included in telemetry"]))
      else if bad_coordinate LATITUDE_LOWER_BOUND LATITUDE_UPPER_BOUND lat then
        Ret (Some (bad_param [Text "invalid lat "; Subst lat]))
      else if bad_coordinate LONGITUDE_LOWER_BOUND LONGITUDE_UPPER_BOUND lng then
        Ret (Some (bad_param [Text "invalid lng "; Subst lng]))
      else if present_and_not isFloat altitude then
        Ret (Some (bad_param [Text "invalid altitude "; Subst altitude]))
      else if present_and_not isFloat accuracy then
        Ret (Some (bad_param [Text "invalid accuracy "; Subst accuracy]))
      else if present_and_not isFloat speed then
        Ret (Some (bad_param [Text "invalid speed "; Subst speed]))
      else if present_and_not Number_isInteger satellites then
        Ret (Some (bad_param [Text "invalid satellites "; Subst satellites]))
      else if present_and_not isPct charge then
        Ret (Some (bad_param [Text "invalid charge "; Subst charge]))
      else if negb (isTimestamp timestamp) then
        Ret (Some (bad_param [Text "invalid timestamp "; Subst timestamp;
                              Text " (note: should be in milliseconds)"]))
      else
        Ret None.

(** The check of one modality's vocabulary: the [for ... of] loop over
    [event_types] returns at the first element outside [events], then the
    state is looked up in [states]. *)
Definition bad_vocabulary (events states : list string)
           (event_types : list JsVal) (vehicle_state : JsVal)
  : option ErrorObject :=
  match find (fun event_type => negb (includes events event_type)) event_types with
  | Some event_type =>
      Some (bad_param [Text "invalid event_type in event_types "; Subst event_type])
  | None =>
      if negb (includes states vehicle_state) then
        Some (bad_param [Text "invalid vehicle_state "; Subst vehicle_state])
      else None
  end.

(** The [trip_state] requirement of the taxi and tnc branches. *)
Definition bad_trip_state (exit_events : list string) (event : JsVal)
           (event_types : list JsVal) : option ErrorObject :=
  if truthy (prop event "trip_id")
     && includes TRIP_STATES (prop event "vehicle_state")
     && negb (areThereCommonElements exit_events event_types)
  then
    if negb (truthy (prop event "trip_state")) then
      Some (missing_param
              [Text ("missing enum field " ++ quoted "trip_state"
                     ++ " required on trip events")])
    else if truthy (prop event "trip_state")
            && negb (includes TRIP_STATES (prop event "trip_state")) then
      Some (bad_param [Text "invalid trip_state "; Subst (prop event "trip_state")])
    else None
  else None.

(** The dispatch on the modality: three parallel branches over the
    vocabulary tables, each returning at its first failure, and the
    rejection of any other modality. *)
Definition bad_modality (modality event : JsVal) (event_types : list JsVal)
  : option ErrorObject :=
  if is_str modality "micromobility" then
    bad_vocabulary MICRO_MOBILITY_VEHICLE_EVENTS MICRO_MOBILITY_VEHICLE_STATES
                   event_types (prop event "vehicle_state")
  else if is_str modality "taxi" then
    match bad_vocabulary TAXI_VEHICLE_EVENTS TAXI_VEHICLE_STATES
                         event_types (prop event "vehicle_state") with
    | Some e => Some e
    | None => bad_trip_state TAXI_TRIP_EXIT_EVENTS event event_types
    end
  else if is_str modality "tnc" then
    match bad_vocabulary TNC_VEHICLE_EVENT TNC_VEHICLE_STATE
                         event_types (prop event "vehicle_state") with
    | Some e => Some e
    | None => bad_trip_state TNC_TRIP_EXIT_EVENTS event event_types
    end
  else
    Some (bad_param [Text "invalid event_types in ";
                     Subst (prop event "event_types")]).

(** [if (event.trip_id === '') event.trip_id = null] *)
Definition normalize_trip_id (event : JsVal) : JsVal :=
  if is_str (prop event "trip_id") ""
  then set_prop event "trip_id" VNull else event.

Definition trip_boundary_events : list string :=
  ["trip_start"; "trip_end"; "trip_enter_jurisdiction"; "trip_leave_jurisdiction"].

(** The checks on [trip_id] and the event-specific checks that end the
    function, on the event with its [trip_id] normalized. *)
Definition bad_trip (event : JsVal) (event_types : list JsVal)
  : outcome (option ErrorObject) :=
  let trip_id := prop event "trip_id" in
  if negb (is_null trip_id) && negb (is_undefined trip_id)
     && negb (isUUID (prop event "trip_id")) then
    Ret (Some (bad_param [Text "invalid trip_id "; Subst (prop event "trip_id");
                          Text " is not a UUID"]))
  else
    let missingTripId : option ErrorObject :=
      if negb (truthy trip_id)
      then Some (missing_param [Text "missing trip_id"])
      else None in
    if areThereCommonElements trip_boundary_events event_types then
      r <- badTelemetry (prop event "telemetry") ;;
      Ret (match r with Some e => Some e | None => missingTripId end)
    else if includes_str event_types "provider_drop_off" then
      badTelemetry (prop event "telemetry")
    else
      Ret None.

(** [badEvent({ modality }, event)].  The function assigns
    [event.trip_id = null] on its argument, so it returns the event object
    as it leaves it together with its result; a rejected promise is
    [Throw]. *)
Definition badEvent (device event : JsVal)
  : JsVal * outcome (option ErrorObject) :=
  if nullish device || nullish event then (event, Throw null_read) else
  let modality := prop device "modality" in
  let reject (e : ErrorObject) := (event, Ret (Some e)) in
  if is_undefined (prop event "timestamp") then
    reject (missing_param [Text ("missing enum field " ++ quoted "timestamp")])
  else if negb (isTimestamp (prop event "timestamp")) then
    reject (bad_param [Text "invalid timestamp "; Subst (prop event "timestamp")])
  else if negb (truthy (prop event "event_types")) then
    reject (missing_param [Text ("missing enum field " ++ quoted "event_type")])
  else
    match prop event "event_types" with
    | VArr event_types =>
        if (List.length event_types =? 0)%nat then
          reject (bad_param [Text "empty event_types array"])
        else if negb (truthy (prop event "vehicle_state")) then
          reject (missing_param [Text ("missing enum field " ++ quoted "vehicle_state")])
        else
          match bad_modality modality event event_types with
          | Some e => reject e
          | None =>
              let event := normalize_trip_id event in
              (event, bad_trip event event_types)
          end
    | _ =>
        reject (bad_param [Text "invalid event_types ";
                           Subst (prop event "event_types")])
    end.

End Validators.

(* ================================================================== *)
(** ** [lower] and the composite view *)

(** [String.prototype.toLowerCase] is the language's own, with the case
    mapping of Unicode; it is taken as given and nothing is assumed of
    it. *)
Class StringBuiltins : Type := {
  toLowerCase : string -> string
}.

Definition lower {B : StringBuiltins} (s : JsVal) : JsVal :=
  match s with
  | VStr t => VStr (toLowerCase t)
  | _ => s
  end.

(** [{ ...o }]: the own properties of an object; nothing for [undefined],
    [null], a boolean or a number.  An array or a string spreads to its
    elements under index keys, which are not modelled: what is spread
    here is a device record or the telemetry object of a request body, or
    is absent, and a statement on the properties of the result says so
    where it takes a request body. *)
Definition spread (o : JsVal) : list (string * JsVal) :=
  match o with
  | VObj fs => fs
  | _ => []
  end.

Record VehiclePayload : Type := mkPayload {
  payload_device : JsVal;
  payload_event : JsVal;
  payload_telemetry : JsVal
}.

Definition computeCompositeVehicleData (payload : VehiclePayload) : JsVal :=
  let device := payload_device payload in
  let event := payload_event payload in
  let telemetry := payload_telemetry payload in
  let composite := VObj (spread device) in
  let composite :=
    if truthy event then
      let composite := set_prop composite "prev_events" (prop event "event_types") in
      let composite := set_prop composite "updated" (prop event "timestamp") in
      set_prop composite "state" (prop event "vehicle_state")
    else
      let composite := set_prop composite "state" (VStr "removed") in
      set_prop composite "prev_events" (VArr [VStr "decommissioned"]) in
  if truthy telemetry then
    if truthy (prop telemetry "gps") then
      set_prop composite "gps" (prop telemetry "gps")
    else composite
  else composite.

(* ================================================================== *)
(** ** State and exceptions *)

(** Code that changes a state [S] and may throw. *)
Definition M (S A : Type) : Type := S -> S * outcome A.

Definition mret {S A} (a : A) : M S A := fun s => (s, Ret a).

Definition mbind {S A B} (m : M S A) (k : A -> M S B) : M S B :=
  fun s =>
    match m s with
    | (s', Ret a) => k a s'
    | (s', Throw e) => (s', Throw e)
    end.

Definition throw {S A} (e : JsError) : M S A := fun s => (s, Throw e).

Definition lift {S A} (o : outcome A) : M S A := fun s => (s, o).

(** [try { m } catch (err) { h err }] *)
Definition try_catch {S A} (m : M S A) (h : JsError -> M S A) : M S A :=
  fun s =>
    match m s with
    | (s', Ret a) => (s', Ret a)
    | (s', Throw e) => h e s'
    end.

(** [await Promise.all([a, b])]: both calls are started and each has its
    effect; the result is rejected when one of them is. *)
Definition Promise_all {S} (a b : M S unit) : M S unit :=
  fun s =>
    let (s1, ra) := a s in
    let (s2, rb) := b s1 in
    (s2, match ra with Throw e => Throw e | Ret _ => rb end).

Notation "'await' x <- m ;; k" := (mbind m (fun x => k))
  (at level 10, x name, m at level 100, k at level 200).
Notation "'run' m ;; k" := (mbind m (fun _ => k))
  (at level 10, m at level 100, k at level 200).

(* ================================================================== *)
(** ** The collaborators: store of record, cache, stream, response *)

Definition same_num (a b : JsNum) : bool :=
  match a, b with
  | NaN, NaN => true
  | Infinity s, Infinity t => Bool.eqb s t
  | Fin p, Fin q => Qeq_bool p q
  | _, _ => false
  end.

(** Equality of stored values (keys are compared with it). *)
Fixpoint same_value (a b : JsVal) {struct a} : bool :=
  match a, b with
  | VUndefined, VUndefined => true
  | VNull, VNull => true
  | VBool x, VBool y => Bool.eqb x y
  | VNum x, VNum y => same_num x y
  | VStr x, VStr y => x =? y
  | VArr xs, VArr ys =>
      (fix all2 (xs ys : list JsVal) {struct xs} : bool :=
         match xs, ys with
         | [], [] => true
         | x :: xs', y :: ys' => same_value x y && all2 xs' ys'
         | _, _ => false
         end) xs ys
  | VObj xs, VObj ys =>
      (fix all2 (xs ys : list (string * JsVal)) {struct xs} : bool :=
         match xs, ys with
         | [], [] => true
         | (k, x) :: xs', (k', y) :: ys' =>
             (k =? k') && same_value x y && all2 xs' ys'
         | _, _ => false
         end) xs ys
  | _, _ => false
  end.

Record Db : Type := mkDb {
  db_devices : list JsVal;
  db_events : list JsVal;
  db_telemetry : list JsVal
}.

Record Cache : Type := mkCache {
  cache_devices : list JsVal;
  cache_events : list JsVal;
  cache_telemetry : list JsVal
}.

Inductive StreamRecord : Type :=
| DeviceRecord (device : JsVal)
| EventRecord (event : JsVal)
| TelemetryRecord (telemetry : list JsVal)
| EventErrorRecord (provider_id data recorded : JsVal) (error_message : Template).

(** What [res.status(n).send(x)] sends. *)
Inductive Payload : Type :=
| ErrorBody (e : ErrorObject)
| ObjectBody (o : JsVal).

Record Response : Type := mkResponse {
  status : nat;
  sent : Payload
}.

(** The state outside the handlers: the three stores and, in the order
    they were sent, the responses sent so far. *)
Record World : Type := mkWorld {
  db : Db;
  cache : Cache;
  stream : list StreamRecord;
  responses : list Response
}.

(** A call to the cache or the stream may throw: [Some msg] makes the call
    throw [new Error(msg)] without effect, [None] lets it through. *)
Definition fault : Type := option string.

Definition attempt (f : fault) (effect : World -> World) : M World unit :=
  fun w =>
    match f with
    | Some msg => (w, Throw (Error msg))
    | None => (effect w, Ret tt)
    end.

(** [(device_id, timestamp)], the key of events and of telemetry. *)
Definition same_key (a b : JsVal) : bool :=
  same_value (prop a "device_id") (prop b "device_id")
  && same_value (prop a "timestamp") (prop b "timestamp").

Definition set_db (w : World) (d : Db) : World :=
  mkWorld d (cache w) (stream w) (responses w).
Definition set_cache (w : World) (c : Cache) : World :=
  mkWorld (db w) c (stream w) (responses w).
Definition emit (r : StreamRecord) (w : World) : World :=
  mkWorld (db w) (cache w) (stream w ++ [r]) (responses w).

(** Modelled from the spec: the store of record ([@mds-core/mds-db]) is an
    external collaborator.  [readDevice(id, provider_id?)] gives the device
    or fails "not found"; [writeTelemetry(list)] silently absorbs rows whose
    [(device_id, timestamp)] is already recorded and returns only the new
    rows; [writeEvent(event)] fails [duplicate] on a key collision and
    [unregistered] if the device is unknown, and otherwise records the
    event. *)
Definition db_readDevice (device_id provider_id : JsVal) : M World JsVal :=
  fun w =>
    match find (fun d =>
                  same_value (prop d "device_id") device_id
                  && (negb (truthy provider_id)
                      || same_value (prop d "provider_id") provider_id))
               (db_devices (db w)) with
    | Some d => (w, Ret d)
    | None => (w, Throw (Error "device not found"))
    end.

Fixpoint record_new (known : list JsVal) (rows : list JsVal)
  : list JsVal * list JsVal :=
  match rows with
  | [] => (known, [])
  | t :: rest =>
      if existsb (same_key t) known then record_new known rest
      else
        let (known', fresh) := record_new (known ++ [t]) rest in
        (known', t :: fresh)
  end.

Definition db_writeTelemetry (rows : list JsVal) : M World (list JsVal) :=
  fun w =>
    let (known, fresh) := record_new (db_telemetry (db w)) rows in
    (set_db w (mkDb (db_devices (db w)) (db_events (db w)) known), Ret fresh).

Definition db_writeEvent (event : JsVal) : M World JsVal :=
  fun w =>
    if existsb (same_key event) (db_events (db w)) then
      (w, Throw (Error "duplicate"))
    else if negb (existsb (fun d => same_value (prop d "device_id")
                                               (prop event "device_id"))
                          (db_devices (db w))) then
      (w, Throw (Error "unregistered"))
    else
      (set_db w (mkDb (db_devices (db w)) (db_events (db w) ++ [event])
                      (db_telemetry (db w))),
       Ret event).

(** Modelled from the spec: the fast-read cache ([@mds-core/mds-agency-cache])
    and the append-only stream ([@mds-core/mds-stream]) are external
    collaborators.  A cache read of a device that is not cached throws. *)
Definition cache_readDevice (f : fault) (device_id : JsVal) : M World JsVal :=
  fun w =>
    match f with
    | Some msg => (w, Throw (Error msg))
    | None =>
        match find (fun d => same_value (prop d "device_id") device_id)
                   (cache_devices (cache w)) with
        | Some d => (w, Ret d)
        | None => (w, Throw (Error "device not found in cache"))
        end
    end.

Definition cache_writeDevice (f : fault) (device : JsVal) : M World unit :=
  attempt f (fun w =>
    set_cache w (mkCache (cache_devices (cache w) ++ [device])
                         (cache_events (cache w)) (cache_telemetry (cache w)))).

Definition cache_writeEvent (f : fault) (event : JsVal) : M World unit :=
  attempt f (fun w =>
    set_cache w (mkCache (cache_devices (cache w))
                         (cache_events (cache w) ++ [event])
                         (cache_telemetry (cache w)))).

Definition cache_writeTelemetry (f : fault) (rows : list JsVal) : M World unit :=
  attempt f (fun w =>
    set_cache w (mkCache (cache_devices (cache w)) (cache_events (cache w))
                         (cache_telemetry (cache w) ++ rows))).

Definition stream_writeDevice (f : fault) (device : JsVal) : M World unit :=
  attempt f (emit (DeviceRecord device)).

Definition stream_writeEvent (f : fault) (event : JsVal) : M World unit :=
  attempt f (emit (EventRecord event)).

Definition stream_writeTelemetry (f : fault) (rows : list JsVal) : M World unit :=
  attempt f (emit (TelemetryRecord rows)).

Definition stream_writeEventError (f : fault)
           (provider_id data recorded : JsVal) (error_message : Template)
  : M World unit :=
  attempt f (emit (EventErrorRecord provider_id data recorded error_message)).

(** [res.status(n).send(x)] *)
Definition send (n : nat) (x : Payload) : M World unit :=
  fun w =>
    (mkWorld (db w) (cache w) (stream w) (responses w ++ [mkResponse n x]), Ret tt).

(** [writeTelemetry] of the agency utilities: the durable write, then the
    best-effort fan-out. *)
Definition writeTelemetry (cache_fault stream_fault : fault) (telemetry : JsVal)
  : M World (list JsVal) :=
  await recorded_telemetry <-
    db_writeTelemetry (match telemetry with VArr rows => rows | _ => [telemetry] end) ;;
  run try_catch
        (Promise_all (cache_writeTelemetry cache_fault recorded_telemetry)
                     (stream_writeTelemetry stream_fault recorded_telemetry))
        (fun err => mret tt) ;;
  mret recorded_telemetry.

(* ================================================================== *)
(** ** [submitVehicleEvent] *)

Record Request : Type := mkRequest {
  params_device_id : JsVal;      (* req.params.device_id *)
  locals_provider_id : JsVal;    (* res.locals.provider_id *)
  body : JsVal                   (* req.body *)
}.

(** What a run of the handler takes from outside: the readings of [now()]
    and, for each call to the cache or the stream, whether it throws. *)
Record Env : Type := mkEnv {
  now_recorded : JsVal;
  now_error : JsVal;
  cache_readDevice_fault : fault;
  reseed_cache_fault : fault;
  reseed_stream_fault : fault;
  rejected_stream_fault : fault;
  cache_writeEvent_fault : fault;
  stream_writeEvent_fault : fault;
  cache_writeTelemetry_fault : fault;
  stream_writeTelemetry_fault : fault;
  failed_stream_fault : fault
}.

(** The handler's state: the world and its [event] object, which it builds
    once and then updates in place. *)
Record Local : Type := mkLocal {
  world : World;
  event : JsVal
}.

Definition on_world {A} (m : M World A) : M Local A :=
  fun s => let (w, r) := m (world s) in (mkLocal w (event s), r).

Definition the_event : M Local JsVal := fun s => (s, Ret (event s)).

Definition set_event (e : JsVal) : M Local unit :=
  fun s => (mkLocal (world s) e, Ret tt).

(** [s.includes(sub)] *)
Definition contains (s sub : string) : bool :=
  match index 0 sub s with Some _ => true | None => false end.

(** [String(err)] *)
Definition String_of_error (e : JsError) : string :=
  match e with
  | TypeError m => if m =? "" then "TypeError" else "TypeError: " ++ m
  | Error m => if m =? "" then "Error" else "Error: " ++ m
  end.

Definition elements (v : JsVal) : list JsVal :=
  match v with VArr items => items | _ => [] end.

Definition agencyServerError : ErrorObject :=
  mkError "server_error" [Text "Unknown server error"].

Section Handler.

Context {U : MdsUtils} {T : MdsTypes} {B : StringBuiltins}.
Variable env : Env.
Variable req : Request.

Definition success : M Local unit :=
  await event <- the_event ;;
  on_world (send 201 (ObjectBody (VObj [("device_id", params_device_id req);
                                        ("state", prop event "vehicle_state")]))).

Definition fail (err : JsError) : M Local unit :=
  let message := if message err =? "" then String_of_error err else message err in
  run (if contains message "duplicate" then
         on_world (send 400 (ErrorBody (mkError "bad_param"
           [Text "An event with this device_id and timestamp has already been received"])))
       else if contains message "not found" || contains message "unregistered" then
         on_world (send 400 (ErrorBody (mkError "unregistered"
           [Text "The specified device_id has not been registered"])))
       else
         on_world (send 500 (ErrorBody agencyServerError))) ;;
  await event <- the_event ;;
  on_world (stream_writeEventError (failed_stream_fault env)
              (locals_provider_id req) event (now_error env) [Text message]).

Definition badEvent_in_place (device : JsVal) : M Local (option ErrorObject) :=
  fun s => let (event', r) := badEvent device (event s) in
           (mkLocal (world s) event', r).

(** The cache warm-up: when the cached device cannot be read, the device
    is written again to the cache and the stream, and a failure of that
    is only logged. *)
Definition reseed (device device_id : JsVal) : M Local unit :=
  try_catch
    (await _ <- on_world (cache_readDevice (cache_readDevice_fault env) device_id) ;;
     mret tt)
    (fun err =>
       try_catch
         (on_world (Promise_all
                      (cache_writeDevice (reseed_cache_fault env) device)
                      (stream_writeDevice (reseed_stream_fault env) device)))
         (fun error => mret tt)).

(** [(await badEvent(device, event)) ||
     (event.telemetry ? badTelemetry(event.telemetry) : null)] *)
Definition validate (device : JsVal) : M Local (option ErrorObject) :=
  await bad <- badEvent_in_place device ;;
  match bad with
  | Some e => mret (Some e)
  | None =>
      await event <- the_event ;;
      if truthy (prop event "telemetry")
      then lift (badTelemetry (prop event "telemetry"))
      else mret None
  end.

(** The answer to a validation failure. *)
Definition rejected (failure : ErrorObject) : M Local unit :=
  await event <- the_event ;;
  run on_world (stream_writeEventError (rejected_stream_fault env)
                  (locals_provider_id req) event (now_error env)
                  (error_description failure)) ;;
  on_world (send 400 (ErrorBody failure)).

(** The fan-out that follows the durable write, and the answer. *)
Definition fan_out (recorded_event telemetry recorded : JsVal) : M Local unit :=
  try_catch
    (run on_world (Promise_all
                     (cache_writeEvent (cache_writeEvent_fault env) recorded_event)
                     (stream_writeEvent (stream_writeEvent_fault env) recorded_event)) ;;
     run (if truthy telemetry then
            (* telemetry.recorded = recorded *)
            await event <- the_event ;;
            let telemetry := set_prop telemetry "recorded" recorded in
            run set_event (set_prop event "telemetry" telemetry) ;;
            on_world (Promise_all
                        (cache_writeTelemetry (cache_writeTelemetry_fault env) [telemetry])
                        (stream_writeTelemetry (stream_writeTelemetry_fault env) [telemetry]))
          else mret tt) ;;
     success)
    (fun err => success).

(** The writes of an event that passed validation: its telemetry, then
    the event itself, to the store of record; then the fan-out. *)
Definition record_and_fan_out (recorded : JsVal) : M Local unit :=
  await event <- the_event ;;
  let telemetry := prop event "telemetry" in
  run (if truthy telemetry then
         await _ <- on_world (db_writeTelemetry [telemetry]) ;; mret tt
       else mret tt) ;;
  (* database write is crucial; failures of cache/stream should be noted
     and repaired *)
  await recorded_event <- on_world (db_writeEvent event) ;;
  fan_out recorded_event telemetry recorded.

(** The body of the handler's [try]. *)
Definition submit (recorded : JsVal) : M Local unit :=
  await event <- the_event ;;
  await device <- on_world (db_readDevice (prop event "device_id")
                                          (locals_provider_id req)) ;;
  run reseed device (prop event "device_id") ;;
  run (if truthy (prop event "telemetry") then
         (* event.telemetry.device_id = event.device_id *)
         set_event (set_prop event "telemetry"
                             (set_prop (prop event "telemetry") "device_id"
                                       (prop event "device_id")))
       else mret tt) ;;
  await failure <- validate device ;;
  match failure with
  | Some failure => rejected failure
  | None => record_and_fan_out recorded
  end.

(** The object literal [const event = { ... }]. *)
Definition event_literal (recorded : JsVal) : list (string * JsVal) :=
  [("device_id", params_device_id req);
   ("provider_id", locals_provider_id req);
   ("event_types",
     if truthy (prop (body req) "event_types")
        && Array_isArray (prop (body req) "event_types")
     then VArr (map lower (elements (prop (body req) "event_types")))
     else prop (body req) "event_types");
   ("vehicle_state", prop (body req) "vehicle_state");
   ("trip_state",
     if truthy (prop (body req) "trip_state")
     then prop (body req) "trip_state" else VNull);
   ("telemetry",
     if truthy (prop (body req) "telemetry")
     then set_prop (VObj (spread (prop (body req) "telemetry")))
                   "provider_id" (locals_provider_id req)
     else VNull);
   ("timestamp", prop (body req) "timestamp");
   ("trip_id", prop (body req) "trip_id");
   ("recorded", recorded);
   ("telemetry_timestamp", VUndefined)].

(** The event object the handler builds from the request, with its
    [telemetry_timestamp]. *)
Definition new_event (recorded : JsVal) : JsVal :=
  let event := VObj (event_literal recorded) in
  if truthy (prop event "telemetry") then
    set_prop event "telemetry_timestamp" (prop (prop event "telemetry") "timestamp")
  else event.

(** [submitVehicleEvent(req, res)].  The call of the schema validator
    [validateEvent] only logs and is left out. *)
Definition submitVehicleEvent : M World unit :=
  fun w =>
    if nullish (body req) then (w, Throw null_read) else
    let recorded := now_recorded env in
    let (s, r) := try_catch (submit recorded) fail
                            (mkLocal w (new_event recorded)) in
    (world s, r).

End Handler.

(* ================================================================== *)
(** ** More primitive operations *)

(** [a === b] for values that come from different places (a stored record
    and a request): two objects or arrays are then never the same object. *)
Definition strict_equal (a b : JsVal) : bool :=
  match a, b with
  | VUndefined, VUndefined => true
  | VNull, VNull => true
  | VBool x, VBool y => Bool.eqb x y
  | VNum x, VNum y => num_eqb x y
  | VStr x, VStr y => x =? y
  | _, _ => false
  end.

(** SameValueZero, the comparison of [Set.prototype.has]. *)
Definition same_value_zero (a b : JsVal) : bool :=
  match a, b with
  | VNum NaN, VNum NaN => true
  | _, _ => strict_equal a b
  end.

(** ['k' in v], for a key that is neither an index nor [length]. *)
Definition has_property (k : string) (v : JsVal) : outcome bool :=
  match v with
  | VObj fs => Ret (match lookup k fs with Some _ => true | None => false end)
  | VArr _ => Ret false
  | _ => Throw (TypeError "Cannot use 'in' operator to search for a key")
  end.

(** [arr.reduce(f, init)] with a callback that may throw. *)
Fixpoint reduce {A} (f : A -> JsVal -> outcome A) (arr : list JsVal) (init : A)
  : outcome A :=
  match arr with
  | [] => Ret init
  | x :: rest => acc <- f init x ;; reduce f rest acc
  end.

(* ================================================================== *)
(** ** [agencyValidationErrorParser] *)

Definition is_letter_or_underscore (c : ascii) : bool :=
  let n := nat_of_ascii c in
  (((65 <=? n) && (n <=? 90)) || ((97 <=? n) && (n <=? 122)) || (n =? 95))%nat.

(** [s.replace(/\W|[0-9]/g, '')]: what is left are the letters and the
    underscores. *)
Fixpoint strip_nonword_and_digits (s : string) : string :=
  match s with
  | EmptyString => EmptyString
  | String c rest =>
      if is_letter_or_underscore c
      then String c (strip_nonword_and_digits rest)
      else strip_nonword_and_digits rest
  end.

(** The callback that collects the missing properties. *)
Definition collect_missing (acc : list JsVal) (subErr : JsVal) : outcome (list JsVal) :=
  if nullish subErr then Throw null_read else
  let params := prop subErr "params" in
  found <- has_property "missingProperty" params ;;
  if found then Ret (acc ++ [prop params "missingProperty"])%list
  else Ret acc.

(** The callback that collects [{ property, message }]. *)
Definition collect_invalid (acc : list JsVal) (subErr : JsVal) : outcome (list JsVal) :=
  if nullish subErr then Throw null_read else
  let instancePath := prop subErr "instancePath" in
  let message := prop subErr "message" in
  match instancePath with
  | VStr path =>
      let property := strip_nonword_and_digits path in
      Ret (acc ++ [VObj [("property", VStr property); ("message", message)]])%list
  | _ => Throw (TypeError "instancePath.replace is not a function")
  end.

Definition agencyValidationErrorParser (error : JsVal) : outcome JsVal :=
  if nullish error then Throw null_read else
  let info := prop error "info" in
  match info with
  | VArr items =>
      (* const [{ keyword }] = info *)
      let first := nth 0 items VUndefined in
      if nullish first then Throw null_read else
      let keyword := prop first "keyword" in
      if is_str keyword "required" then
        error_details <- reduce collect_missing items [] ;;
        Ret (VObj [("error", VStr "missing_param");
                   ("error_description", VStr "A required parameter is missing.");
                   ("error_details", VArr error_details)])
      else
        error_details <- reduce collect_invalid items [] ;;
        Ret (VObj [("error", VStr "bad_param");
                   ("error_description", VStr "A validation error occurred.");
                   ("error_details", VArr error_details)])
  | _ =>
      Ret (VObj [("error", VStr "bad_param");
                 ("error_description", VStr "A validation error occurred.");
                 ("error_details", VObj [("error", error)])])
  end.

(* ================================================================== *)
(** ** More of the collaborators *)

(** Modelled from the spec: of the store of record, [writeDevice] (a device
    is created once: a second device of the same [device_id] is refused as
    a duplicate), [updateDevice] (the update of a registered device, "not
    found" otherwise) and [readDeviceIds(provider_id?)] (the list of the
    [{ device_id, provider_id }] of the devices, of one provider when a
    provider is given); of the cache, [readEvent] (the latest event written
    for the device, if any). *)
Definition db_writeDevice (device : JsVal) : M World unit :=
  fun w =>
    if existsb (fun d => same_value (prop d "device_id") (prop device "device_id"))
               (db_devices (db w)) then
      (w, Throw (Error "duplicate"))
    else
      (set_db w (mkDb (db_devices (db w) ++ [device]) (db_events (db w))
                      (db_telemetry (db w))),
       Ret tt).

Definition device_matches (device_id provider_id d : JsVal) : bool :=
  same_value (prop d "device_id") device_id
  && (negb (truthy provider_id) || same_value (prop d "provider_id") provider_id).

(** The first device that matches, updated, and the table with it. *)
Fixpoint update_first (matches : JsVal -> bool) (change : JsVal -> JsVal)
         (devices : list JsVal) : option (JsVal * list JsVal) :=
  match devices with
  | [] => None
  | d :: rest =>
      if matches d then Some (change d, change d :: rest)
      else match update_first matches change rest with
           | Some (d', rest') => Some (d', d :: rest')
           | None => None
           end
  end.

(** [{ ...device, ...update }] *)
Definition apply_update (update : list (string * JsVal)) (device : JsVal) : JsVal :=
  fold_left (fun d kv => set_prop d (fst kv) (snd kv)) update device.

Definition db_updateDevice (device_id provider_id : JsVal)
           (update : list (string * JsVal)) : M World JsVal :=
  fun w =>
    match update_first (device_matches device_id provider_id) (apply_update update)
                       (db_devices (db w)) with
    | Some (d, devices) =>
        (set_db w (mkDb devices (db_events (db w)) (db_telemetry (db w))), Ret d)
    | None => (w, Throw (Error "device not found"))
    end.

Definition db_readDeviceIds (provider_id : JsVal) : M World (list JsVal) :=
  fun w =>
    (w, Ret (map (fun d => VObj [("device_id", prop d "device_id");
                                 ("provider_id", prop d "provider_id")])
                 (filter (fun d => negb (truthy provider_id)
                                   || same_value (prop d "provider_id") provider_id)
                         (db_devices (db w))))).

Definition cache_readEvent (f : fault) (device_id : JsVal) : M World JsVal :=
  fun w =>
    match f with
    | Some msg => (w, Throw (Error msg))
    | None =>
        match find (fun e => same_value (prop e "device_id") device_id)
                   (rev (cache_events (cache w))) with
        | Some e => (w, Ret e)
        | None => (w, Ret VNull)
        end
    end.

(* ================================================================== *)
(** ** [registerVehicle], [updateVehicle], [getVehicleById] *)

(** [badDevice] of the agency utilities and [isError(err, NotFoundError)]
    of [@mds-core/mds-service-helpers], whose sources are not part of the
    package. *)
Class AgencyHelpers : Type := {
  badDevice : JsVal -> option ErrorObject;
  isNotFoundError : JsError -> bool
}.

(** What a run of these handlers takes from outside: the reading of
    [now()] and whether the writes to the cache and the stream throw. *)
Record DeviceEnv : Type := mkDeviceEnv {
  device_recorded : JsVal;
  device_cache_fault : fault;
  device_stream_fault : fault
}.

(** A destructuring default [{ k = d }]: it applies to [undefined] only. *)
Definition or_default (v d : JsVal) : JsVal :=
  if is_undefined v then d else v.

Section DeviceHandlers.

Context {H : AgencyHelpers}.
Variable env : DeviceEnv.
Variable req : Request.

(** The device record that [registerVehicle] builds from the body. *)
Definition new_device : JsVal :=
  let body := body req in
  let status := VStr "removed" in
  VObj [("accessibility_options",
          or_default (prop body "accessibility_options") (VArr []));
        ("provider_id", locals_provider_id req);
        ("device_id", prop body "device_id");
        ("vehicle_id", prop body "vehicle_id");
        ("vehicle_type", prop body "vehicle_type");
        ("propulsion_types", prop body "propulsion_types");
        ("year", prop body "year");
        ("mfgr", prop body "mfgr");
        ("modality", or_default (prop body "modality") (VStr "micromobility"));
        ("model", prop body "model");
        ("recorded", device_recorded env);
        ("status", status)].

(** [registerVehicle(req, res)].  The call of the schema validator
    [isValidDevice] only logs and is left out. *)
Definition registerVehicle : M World unit :=
  fun w =>
    if nullish (body req) then (w, Throw null_read) else
    let device := new_device in
    match badDevice device with
    | Some failure => send 400 (ErrorBody failure) w
    | None =>
        (* writing to the DB is the crucial part.  other failures should be
           noted as bugs but tolerated and fixed later. *)
        try_catch
          (run db_writeDevice device ;;
           run try_catch
                 (Promise_all (cache_writeDevice (device_cache_fault env) device)
                              (stream_writeDevice (device_stream_fault env) device))
                 (fun err => mret tt) ;;
           send 201 (ObjectBody (VObj [])))
          (fun err =>
             if contains (String_of_error err) "duplicate" then
               send 409 (ErrorBody (mkError "already_registered"
                 [Text "A vehicle with this device_id is already registered"]))
             else if contains (String_of_error err) "db" then
               send 500 (ErrorBody agencyServerError)
             else
               send 500 (ErrorBody agencyServerError))
          w
    end.

(** [updateVehicleFail(req, res, provider_id, device_id, error)], with
    [error] given as the string [String(error)]. *)
Definition updateVehicleFail (provider_id device_id : JsVal) (error : string)
  : M World unit :=
  if contains error "not found" then
    send 404 (ObjectBody (VObj []))
  else if contains error "invalid" then
    send 400 (ErrorBody (mkError "bad_param"
                [Text "Invalid parameters for vehicle were sent"]))
  else if negb (truthy provider_id) then
    send 404 (ObjectBody (VObj []))
  else
    send 500 (ErrorBody agencyServerError).

Definition updateVehicle : M World unit :=
  fun w =>
    let device_id := params_device_id req in
    if nullish (body req) then (w, Throw null_read) else
    let vehicle_id := prop (body req) "vehicle_id" in
    let update := [("vehicle_id", vehicle_id)] in
    let provider_id := locals_provider_id req in
    try_catch
      (await tempDevice <- db_readDevice device_id provider_id ;;
       if nullish tempDevice then throw null_read else
       if negb (strict_equal (prop tempDevice "provider_id") provider_id) then
         updateVehicleFail provider_id device_id "not found"
       else
         await device <- db_updateDevice device_id provider_id update ;;
         run try_catch
               (Promise_all (cache_writeDevice (device_cache_fault env) device)
                            (stream_writeDevice (device_stream_fault env) device))
               (fun error => mret tt) ;;
         send 201 (ObjectBody (VObj [])))
      (fun err => updateVehicleFail provider_id device_id "not found")
      w.

End DeviceHandlers.

Definition normalizeTelemetry (telemetry : JsVal) : JsVal :=
  match telemetry with
  | VArr items => nth 0 items VUndefined
  | _ => telemetry
  end.

(** [readPayload(device_id)]: the device from the store of record, the
    latest event from the cache and the telemetry of that event; what
    cannot be read is left undefined. *)
Definition readPayload (cache_fault : fault) (device_id : JsVal)
  : M World VehiclePayload :=
  await device <-
    try_catch (db_readDevice device_id VUndefined) (fun err => mret VUndefined) ;;
  await rest <-
    try_catch
      (await event <- cache_readEvent cache_fault device_id ;;
       mret (event,
             if truthy event then
               if truthy (prop event "telemetry")
               then normalizeTelemetry (prop event "telemetry")
               else VUndefined
             else VUndefined))
      (fun err => mret (VUndefined, VUndefined)) ;;
  mret (mkPayload device (fst rest) (snd rest)).

(** The request of [getVehicleById]: the id, the scopes of the caller, the
    [provider_id] of the query string and the one of the caller. *)
Record VehicleQuery : Type := mkVehicleQuery {
  query_device_id : JsVal;
  query_scopes : list string;
  query_provider_id : JsVal;
  query_locals_provider_id : JsVal
}.

Definition getVehicleById (cache_fault : fault) (q : VehicleQuery) : M World unit :=
  let device_id := query_device_id q in
  let provider_id :=
    if existsb (String.eqb "vehicles:read") (query_scopes q)
    then query_provider_id q else query_locals_provider_id q in
  await payload <- readPayload cache_fault device_id ;;
  if negb (truthy (payload_device payload))
     || (truthy provider_id
         && negb (strict_equal (prop (payload_device payload) "provider_id")
                               provider_id)) then
    send 404 (ObjectBody (VObj []))
  else
    let compositeData := computeCompositeVehicleData payload in
    send 200 (ObjectBody (VObj (spread compositeData))).

(* ================================================================== *)
(** ** [submitVehicleTelemetry] *)

(** A telemetry row that was not accepted, with the reason. *)
Record RejectedRow : Type := mkRejectedRow {
  rejected_telemetry : JsVal;
  rejected_reason : Template
}.

(** The bodies that [submitVehicleTelemetry] sends. *)
Inductive BatchBody : Type :=
| BadParam (error_description : string)
| BatchAccepted (success total : nat) (failures : list JsVal)
| InvalidData (error_details : list RejectedRow)
| SomeUnregistered (error_details : list JsVal)
| ServerFailure.

Record BatchResponse : Type := mkBatchResponse {
  batch_status : nat;
  batch_body : BatchBody
}.

(** The request: the [provider_id] of the caller and [req.body.data], an
    array of parsed values when it is there. *)
Record BatchRequest : Type := mkBatchRequest {
  batch_provider_id : JsVal;
  batch_data : option (list JsVal)
}.

Section TelemetryHandler.

Context {U : MdsUtils} {H : AgencyHelpers}.
Variable env : DeviceEnv.

(** The telemetry that the handler builds from a row of the batch. *)
Definition batch_telemetry (provider_id row : JsVal) : JsVal :=
  let gps := prop row "gps" in
  VObj [("device_id", prop row "device_id");
        ("provider_id", provider_id);
        ("timestamp", prop row "timestamp");
        ("charge", prop row "charge");
        ("gps", VObj [("lat", prop gps "lat");
                      ("lng", prop gps "lng");
                      ("altitude", prop gps "altitude");
                      ("heading", prop gps "heading");
                      ("speed", prop gps "speed");
                      ("accuracy", prop gps "hdop");
                      ("satellites", prop gps "satellites")]);
        ("recorded", device_recorded env)].

(** The callback of [data.reduce]: a row goes to [valid] or to [failures]. *)
Definition sort_row (provider_id : JsVal) (deviceIds : list JsVal)
           (acc : list JsVal * list RejectedRow) (row : JsVal)
  : outcome (list JsVal * list RejectedRow) :=
  let (valid, failures) := acc in
  (* ({ valid, failures }, { device_id, timestamp, charge, gps }) => ... gps.lat *)
  if nullish row || nullish (prop row "gps") then Throw null_read else
  let telemetry := batch_telemetry provider_id row in
  bad_telemetry <- badTelemetry telemetry ;;
  match bad_telemetry with
  | Some bad =>
      Ret (valid, (failures ++ [mkRejectedRow telemetry (error_description bad)])%list)
  | None =>
      if negb (existsb (same_value_zero (prop telemetry "device_id")) deviceIds) then
        Ret (valid,
             (failures ++ [mkRejectedRow telemetry
                             [Text "device_id: "; Subst (prop row "device_id");
                              Text " not found"]])%list)
      else Ret ((valid ++ [telemetry])%list, failures)
  end.

(** The set of the device ids against which the rows are checked: the one
    device of a batch of one row, or all the devices of the provider. *)
Definition known_device_ids (provider_id : JsVal) (data : list JsVal)
  : M World (list JsVal) :=
  let all_of_provider :=
    await deviceIdsWithProviderIds <- db_readDeviceIds provider_id ;;
    mret (map (fun r => prop r "device_id") deviceIdsWithProviderIds) in
  match data with
  | [telemetry] =>
      await found <- lift (has_property "device_id" telemetry) ;;
      if found then
        let device_id := prop telemetry "device_id" in
        if isUUID device_id then
          await device <- db_readDevice device_id provider_id ;;
          mret [prop device "device_id"]
        else all_of_provider
      else all_of_provider
  | _ => all_of_provider
  end.

Definition submitVehicleTelemetry (req : BatchRequest) : M World BatchResponse :=
  let provider_id := batch_provider_id req in
  if negb (truthy provider_id) then
    mret (mkBatchResponse 400 (BadParam "Bad or missing provider_id"))
  else
    match batch_data req with
    | None => mret (mkBatchResponse 400 (BadParam "Missing data from post-body"))
    | Some data =>
        try_catch
          (await deviceIds <- known_device_ids provider_id data ;;
           await sorted <- lift (reduce (sort_row provider_id deviceIds) data ([], [])) ;;
           let (valid, failures) := sorted in
           if negb (List.length valid =? 0)%nat then
             await recorded_telemetry <-
               writeTelemetry (device_cache_fault env) (device_stream_fault env)
                              (VArr valid) ;;
             if negb (List.length recorded_telemetry =? 0)%nat then
               mret (mkBatchResponse 200
                       (BatchAccepted (List.length valid) (List.length data)
                                      (map rejected_telemetry failures)))
             else
               mret (mkBatchResponse 400 (InvalidData failures))
           else
             mret (mkBatchResponse 400 (InvalidData failures)))
          (fun err =>
             if isNotFoundError err then
               (* data[0].device_id *)
               let first := nth 0 data VUndefined in
               if nullish first then throw null_read
               else mret (mkBatchResponse 400 (SomeUnregistered [prop first "device_id"]))
             else mret (mkBatchResponse 500 ServerFailure))
    end.

End TelemetryHandler.

(* ================================================================== *)
(** ** A concrete instance, for running the code on examples *)

Module Sample.

(** The strings of the examples are ASCII, where [toLowerCase] maps the
    letters [A]-[Z] and nothing else. *)
Definition ascii_lower (c : ascii) : ascii :=
  let n := nat_of_ascii c in
  if ((65 <=? n) && (n <=? 90))%nat then ascii_of_nat (n + 32) else c.

Fixpoint ascii_toLowerCase (s : string) : string :=
  match s with
  | EmptyString => EmptyString
  | String c rest => String (ascii_lower c) (ascii_toLowerCase rest)
  end.

Definition ascii_strings : StringBuiltins := {|
  toLowerCase := ascii_toLowerCase
|}.

Definition is_hex (c : ascii) : bool :=
  let n := nat_of_ascii c in
  (((48 <=? n) && (n <=? 57)) || ((65 <=? n) && (n <=? 70))
   || ((97 <=? n) && (n <=? 102)))%nat.

(** [shape]: [true] stands for a hexadecimal digit, [false] for a hyphen. *)
Fixpoint has_shape (shape : list bool) (s : string) : bool :=
  match shape, s with
  | [], EmptyString => true
  | true :: shape', String c rest => is_hex c && has_shape shape' rest
  | false :: shape', String c rest => (c =? "-")%char && has_shape shape' rest
  | _, _ => false
  end.

Definition uuid_shape : list bool :=
  repeat true 8 ++ [false] ++ repeat true 4 ++ [false] ++ repeat true 4
  ++ [false] ++ repeat true 4 ++ [false] ++ repeat true 12.

Definition finite (v : JsVal) : bool :=
  match v with VNum (Fin _) => true | _ => false end.

(** Modelled from the spec: the helpers of [@mds-core/mds-utils] are not
    part of the package.  A UUID is a string of hexadecimal groups
    8-4-4-4-12; a float is a finite number; a percentage is a finite
    number between 0 and 1; a millisecond timestamp is an integer of 13
    decimal digits. *)
Definition utils : MdsUtils := {|
  isUUID := fun v => match v with VStr s => has_shape uuid_shape s | _ => false end;
  isPct := fun v =>
    match v with
    | VNum (Fin q) => Qle_bool 0 q && Qle_bool q 1
    | _ => false
    end;
  isTimestamp := fun v =>
    match v with
    | VNum (Fin q) =>
        Number_isInteger v && Qle_bool (inject_Z 1000000000000) q
        && Qlt_bool q (inject_Z 10000000000000)
    | _ => false
    end;
  isFloat := finite
|}.

(** Modelled from the spec: the vocabulary tables of
    [@mds-core/mds-types] are not part of the package.  The tables list
    the event types and states that the package and the spec name
    ([trip_start], [trip_end], [trip_enter_jurisdiction],
    [trip_leave_jurisdiction], [provider_drop_off], [decommissioned],
    [on_trip], [removed]) with some more of each modality. *)
Definition types : MdsTypes := {|
  MICRO_MOBILITY_VEHICLE_EVENTS :=
    ["trip_start"; "trip_end"; "trip_enter_jurisdiction";
     "trip_leave_jurisdiction"; "trip_cancel"; "provider_drop_off";
     "battery_low"; "decommissioned"];
  MICRO_MOBILITY_VEHICLE_STATES :=
    ["available"; "non_operational"; "on_trip"; "removed"; "reserved"; "unknown"];
  TAXI_VEHICLE_EVENTS :=
    ["trip_start"; "trip_stop"; "trip_resume"; "trip_end";
     "reservation_start"; "passenger_cancellation"; "service_start";
     "service_end"; "decommissioned"];
  TAXI_VEHICLE_STATES :=
    ["available"; "non_operational"; "on_trip"; "removed"; "reserved";
     "stopped"; "unknown"];
  TAXI_TRIP_EXIT_EVENTS := ["trip_end"; "passenger_cancellation"];
  TNC_VEHICLE_EVENT :=
    ["trip_start"; "trip_stop"; "trip_resume"; "trip_end";
     "reservation_start"; "passenger_cancellation"; "service_start";
     "service_end"; "decommissioned"];
  TNC_VEHICLE_STATE :=
    ["available"; "non_operational"; "on_trip"; "removed"; "reserved";
     "stopped"; "unknown"];
  TNC_TRIP_EXIT_EVENTS := ["trip_end"; "passenger_cancellation"];
  TRIP_STATES := ["on_trip"; "reserved"; "stopped"]
|}.

Definition D1 : JsVal := VStr "11111111-2222-4333-8444-555555555555".
Definition T1 : JsVal := VStr "aaaaaaaa-bbbb-4ccc-8ddd-eeeeeeeeeeee".
Definition P1 : JsVal := VStr "99999999-8888-4777-8666-555555555555".
Definition t0 : JsVal := num 1600000000000.

Definition gps_ok : JsVal :=
  VObj [("lat", VNum (Fin (34 # 1))); ("lng", VNum (Fin (-(118 # 1))))].

Definition telemetry_ok : JsVal :=
  VObj [("device_id", D1); ("timestamp", t0); ("gps", gps_ok)].

Definition device (modality : string) : JsVal :=
  VObj [("device_id", D1); ("provider_id", P1); ("modality", VStr modality)].

Definition world0 : World :=
  mkWorld (mkDb [device "micromobility"] [] []) (mkCache [] [] []) [] [].

Definition calm : Env :=
  mkEnv (num 1600000000500) (num 1600000000600)
        None None None None None None None None None.

(** The fan-out to the cache and to the stream is down. *)
Definition stormy : Env :=
  mkEnv (num 1600000000500) (num 1600000000600)
        (Some "cache down") (Some "cache down") (Some "stream down")
        (Some "stream down") (Some "cache down") (Some "stream down")
        (Some "cache down") (Some "stream down") (Some "stream down").

Definition trip_start_body : JsVal :=
  VObj [("event_types", VArr [VStr "trip_start"]);
        ("vehicle_state", VStr "on_trip");
        ("trip_id", T1);
        ("timestamp", t0);
        ("telemetry", VObj [("timestamp", t0); ("gps", gps_ok)])].

Definition trip_start_request : Request := mkRequest D1 P1 trip_start_body.

(** Telemetry whose [gps] carries a heading that is not a number. *)
Definition telemetry_heading_north : JsVal :=
  VObj [("device_id", D1); ("timestamp", t0);
        ("gps", VObj [("lat", VNum (Fin (34 # 1))); ("lng", VNum (Fin (-(118 # 1))));
                      ("heading", VStr "north")])].

(** Telemetry with [gps: null]. *)
Definition telemetry_gps_null : JsVal :=
  VObj [("device_id", D1); ("timestamp", t0); ("gps", VNull)].

Definition gps_null_request : Request :=
  mkRequest D1 P1
    (VObj [("event_types", VArr [VStr "battery_low"]);
           ("vehicle_state", VStr "available");
           ("timestamp", t0);
           ("telemetry", VObj [("timestamp", t0); ("gps", VNull)])]).

(** A [trip_start] with its trip and telemetry. *)
Definition trip_start_event : JsVal :=
  VObj [("event_types", VArr [VStr "trip_start"]);
        ("vehicle_state", VStr "on_trip");
        ("trip_id", T1);
        ("timestamp", t0);
        ("telemetry", telemetry_ok)].

(** A [trip_start] in the vocabulary, without telemetry. *)
Definition trip_start_without_telemetry : JsVal :=
  VObj [("event_types", VArr [VStr "trip_start"]);
        ("vehicle_state", VStr "on_trip");
        ("timestamp", t0)].

(** A [trip_start] with telemetry and no [trip_id]. *)
Definition trip_start_without_trip_id : JsVal :=
  VObj [("event_types", VArr [VStr "trip_start"]);
        ("vehicle_state", VStr "on_trip");
        ("timestamp", t0);
        ("telemetry", telemetry_ok)].

(** A taxi stops during a trip; no [trip_id], no [trip_state]. *)
Definition trip_stop_event : JsVal :=
  VObj [("event_types", VArr [VStr "trip_stop"]);
        ("vehicle_state", VStr "stopped");
        ("timestamp", t0)].

(** The same with a [trip_id], still without [trip_state]. *)
Definition trip_stop_of_trip : JsVal :=
  VObj [("event_types", VArr [VStr "trip_stop"]);
        ("vehicle_state", VStr "stopped");
        ("trip_id", T1);
        ("timestamp", t0)].

(** An event with an empty-string [trip_id]. *)
Definition battery_low_empty_trip_id : JsVal :=
  VObj [("event_types", VArr [VStr "battery_low"]);
        ("vehicle_state", VStr "available");
        ("trip_id", VStr "");
        ("timestamp", t0)].

Definition payload : VehiclePayload :=
  mkPayload (device "micromobility") trip_start_event telemetry_ok.

(** The [trip_start] request with its event type in upper case, and with
    its vehicle state in upper case. *)
Definition upper_case_event_type : Request :=
  mkRequest D1 P1
    (VObj [("event_types", VArr [VStr "TRIP_START"]);
           ("vehicle_state", VStr "on_trip");
           ("trip_id", T1);
           ("timestamp", t0);
           ("telemetry", VObj [("timestamp", t0); ("gps", gps_ok)])]).

Definition upper_case_state : Request :=
  mkRequest D1 P1
    (VObj [("event_types", VArr [VStr "trip_start"]);
           ("vehicle_state", VStr "ON_TRIP");
           ("trip_id", T1);
           ("timestamp", t0);
           ("telemetry", VObj [("timestamp", t0); ("gps", gps_ok)])]).


(** [isError(err, NotFoundError)] holds of the lookup failures of the store
    of record; [badDevice] asks for a UUID as [device_id]. *)
Definition helpers : AgencyHelpers := {|
  badDevice := fun device =>
    if isUUID (MdsUtils := utils) (prop device "device_id") then None
    else Some (mkError "bad_param" [Text "device_id is not a UUID"]);
  isNotFoundError := fun err =>
    match err with Error msg => contains msg "not found" | _ => false end
|}.

Definition D2 : JsVal := VStr "22222222-3333-4444-8555-666666666666".

Definition quiet : DeviceEnv := mkDeviceEnv (num 1600000000500) None None.
Definition noisy : DeviceEnv :=
  mkDeviceEnv (num 1600000000700) (Some "cache down") (Some "stream down").

Definition row (device_id : JsVal) (timestamp lat : Z) : JsVal :=
  VObj [("device_id", device_id); ("timestamp", num timestamp);
        ("gps", VObj [("lat", num lat); ("lng", num (-118)); ("hdop", num 3);
                      ("accuracy", VStr "ignored")])].

(** Three rows for the registered device, the second with [lat = 0]. *)
Definition batch_of_three : BatchRequest :=
  mkBatchRequest P1 (Some [row D1 1600000000001 34; row D1 1600000000002 0;
                           row D1 1600000000003 35]).

(** A batch with a row that has no [gps]. *)
Definition batch_without_gps : BatchRequest :=
  mkBatchRequest P1 (Some [row D1 1600000000001 34;
                           VObj [("device_id", D1); ("timestamp", t0)]]).

Definition registration : Request :=
  mkRequest VUndefined P1
    (VObj [("device_id", D2); ("vehicle_id", VStr "plate-2");
           ("vehicle_type", VStr "scooter");
           ("propulsion_types", VArr [VStr "electric"])]).

Definition rename_request : Request :=
  mkRequest D1 P1 (VObj [("vehicle_id", VStr "plate-1b")]).

(** The [trip_start] request for a device that is not registered. *)
Definition unregistered_request : Request := mkRequest D2 P1 trip_start_body.

(** The [trip_start] request with telemetry of a later time. *)
Definition trip_start_later_telemetry : Request :=
  mkRequest D1 P1
    (VObj [("event_types", VArr [VStr "trip_start"]);
           ("vehicle_state", VStr "on_trip");
           ("trip_id", T1);
           ("timestamp", t0);
           ("telemetry", VObj [("timestamp", num 1600000000001); ("gps", gps_ok)])]).

(** A drop-off by the provider, without a trip. *)
Definition drop_off_event : JsVal :=
  VObj [("event_types", VArr [VStr "provider_drop_off"]);
        ("vehicle_state", VStr "available");
        ("timestamp", t0);
        ("telemetry", telemetry_ok)].

(** Validation errors as the schema validator reports them. *)
Definition required_errors : JsVal :=
  VObj [("info",
         VArr [VObj [("keyword", VStr "required");
                     ("params", VObj [("missingProperty", VStr "device_id")])];
               VObj [("keyword", VStr "type");
                     ("params", VObj [("type", VStr "string")])];
               VObj [("keyword", VStr "required");
                     ("params", VObj [("missingProperty", VStr "vehicle_type")])]])].

Definition type_errors : JsVal :=
  VObj [("info",
         VArr [VObj [("keyword", VStr "type");
                     ("instancePath", VStr "/propulsion_types/0");
                     ("message", VStr "must be string")];
               VObj [("keyword", VStr "required");
                     ("instancePath", VStr "");
                     ("message", VStr "must have required property 'mfgr'")]])].

Definition no_errors : JsVal := VObj [("info", VArr [])].

(** One row for a device that is not registered. *)
Definition one_row_unregistered : BatchRequest :=
  mkBatchRequest P1 (Some [row D2 1600000000001 34]).

(** The provider asks for its vehicle. *)
Definition own_query : VehicleQuery := mkVehicleQuery D1 [] VUndefined P1.
End Sample.

(* ================================================================== *)
(** ** What the spec says of the telemetry validator *)

Section TelemetrySpec.

Context {U : MdsUtils}.

(** "a finite number in [lo, hi] and not exactly 0" *)
Definition in_range (lo hi : Z) (v : JsVal) : Prop :=
  exists q, v = VNum (Fin q)
            /\ (inject_Z lo <= q)%Q /\ (q <= inject_Z hi)%Q /\ ~ (q == 0)%Q.

Definition in_rangeb (lo hi : Z) (v : JsVal) : bool :=
  match v with
  | VNum (Fin q) =>
      Qle_bool (inject_Z lo) q && Qle_bool q (inject_Z hi) && negb (Qeq_bool q 0)
  | _ => false
  end.

(** "if present and not null, must be ..." *)
Definition optional (check : JsVal -> bool) (v : JsVal) : Prop :=
  v = VUndefined \/ v = VNull \/ check v = true.

Definition optionalb (check : JsVal -> bool) (v : JsVal) : bool :=
  is_undefined v || is_null v || check v.

(** The conditions under which the validator is said to return [null],
    without the one on [heading]. *)
Definition telemetry_well_formed (t : JsVal) : Prop :=
  let gps := prop t "gps" in
  in_range (-90) 90 (prop gps "lat")
  /\ in_range (-180) 180 (prop gps "lng")
  /\ isUUID (prop t "device_id") = true
  /\ isTimestamp (prop t "timestamp") = true
  /\ optional isFloat (prop gps "altitude")
  /\ optional isFloat (prop gps "accuracy")
  /\ optional isFloat (prop gps "speed")
  /\ optional Number_isInteger (prop gps "satellites")
  /\ optional isPct (prop t "charge").

(** The same with "heading well-formed", read as for the other
    floating-point fields of [gps]. *)
Definition telemetry_well_formed_with_heading (t : JsVal) : Prop :=
  telemetry_well_formed t /\ optional isFloat (prop (prop t "gps") "heading").

(** The checks of the spec in their precedence order, each with the
    condition under which it fails and the error descriptor it gives. *)
Definition telemetry_checks (t : JsVal) : list (bool * ErrorObject) :=
  let gps := prop t "gps" in
  [ (negb (truthy t),
     missing_param [Text "invalid missing telemetry"]);
    (negb (typeof gps =? "object"),
     missing_param [Text "invalid missing gps"]);
    (negb (isUUID (prop t "device_id")),
     missing_param [Text "no device_id included in telemetry"]);
    (negb (in_rangeb (-90) 90 (prop gps "lat")),
     bad_param [Text "invalid lat "; Subst (prop gps "lat")]);
    (negb (in_rangeb (-180) 180 (prop gps "lng")),
     bad_param [Text "invalid lng "; Subst (prop gps "lng")]);
    (negb (optionalb isFloat (prop gps "altitude")),
     bad_param [Text "invalid altitude "; Subst (prop gps "altitude")]);
    (negb (optionalb isFloat (prop gps "accuracy")),
     bad_param [Text "invalid accuracy "; Subst (prop gps "accuracy")]);
    (negb (optionalb isFloat (prop gps "speed")),
     bad_param [Text "invalid speed "; Subst (prop gps "speed")]);
    (negb (optionalb Number_isInteger (prop gps "satellites")),
     bad_param [Text "invalid satellites "; Subst (prop gps "satellites")]);
    (negb (optionalb isPct (prop t "charge")),
     bad_param [Text "invalid charge "; Subst (prop t "charge")]);
    (negb (isTimestamp (prop t "timestamp")),
     bad_param [Text "invalid timestamp "; Subst (prop t "timestamp");
                Text " (note: should be in milliseconds)"]) ].

Definition first_failure (checks : list (bool * ErrorObject)) : option ErrorObject :=
  option_map snd (find fst checks).

End TelemetrySpec.

(* ================================================================== *)
(** ** What the spec says of the event validator *)

Section EventSpec.

Context {U : MdsUtils} {T : MdsTypes}.

(** "[v] is in the vocabulary [table]" *)
Definition in_vocabulary (table : list string) (v : JsVal) : Prop :=
  exists s, v = VStr s /\ In s table.

(** "[e] has a valid timestamp and a non-empty [event_types] array" *)
Definition envelope_ok (event : JsVal) (event_types : list JsVal) : Prop :=
  prop event "timestamp" <> VUndefined
  /\ isTimestamp (prop event "timestamp") = true
  /\ prop event "event_types" = VArr event_types
  /\ event_types <> [].

(** "[e] reaches the [trip_id] checks": it passes all the checks before
    them. *)
Definition reaches_trip_checks (device event : JsVal) (event_types : list JsVal)
  : Prop :=
  nullish device = false
  /\ envelope_ok event event_types
  /\ truthy (prop event "vehicle_state") = true
  /\ bad_modality (prop device "modality") event event_types = None.

(** "[trip_id] is absent": undefined, null or the empty string. *)
Definition trip_id_absent (v : JsVal) : Prop :=
  v = VUndefined \/ v = VNull \/ v = VStr "".

Definition invalid_trip_id (v : JsVal) : ErrorObject :=
  bad_param [Text "invalid trip_id "; Subst v; Text " is not a UUID"].

Definition missing_trip_id : ErrorObject :=
  missing_param [Text "missing trip_id"].

(** The rules on [trip_id] and telemetry that follow the vocabulary
    checks. *)
Definition trip_rules_ok (event : JsVal) (event_types : list JsVal) : Prop :=
  (trip_id_absent (prop event "trip_id") \/ isUUID (prop event "trip_id") = true)
  /\ (areThereCommonElements trip_boundary_events event_types = true ->
      badTelemetry (prop event "telemetry") = Ret None
      /\ truthy (prop event "trip_id") = true)
  /\ (areThereCommonElements trip_boundary_events event_types = false ->
      includes_str event_types "provider_drop_off" = true ->
      badTelemetry (prop event "telemetry") = Ret None).

(** The tables of the taxi and tnc modalities. *)
Definition events_of (m : string) : list string :=
  if m =? "taxi" then TAXI_VEHICLE_EVENTS else TNC_VEHICLE_EVENT.
Definition states_of (m : string) : list string :=
  if m =? "taxi" then TAXI_VEHICLE_STATES else TNC_VEHICLE_STATE.
Definition exit_events_of (m : string) : list string :=
  if m =? "taxi" then TAXI_TRIP_EXIT_EVENTS else TNC_TRIP_EXIT_EVENTS.

Definition missing_trip_state : ErrorObject :=
  missing_param [Text ("missing enum field " ++ quoted "trip_state"
                       ++ " required on trip events")].

End EventSpec.

(* ================================================================== *)
(** ** What the spec says of the submission *)

Section SubmissionSpec.

Context {U : MdsUtils} {T : MdsTypes} {B : StringBuiltins}.

(** The event as it is validated: the event built from the request, with
    the device id attached to its telemetry. *)
Definition submitted_event (req : Request) (recorded : JsVal) : JsVal :=
  let event := new_event req recorded in
  if truthy (prop event "telemetry") then
    set_prop event "telemetry"
             (set_prop (prop event "telemetry") "device_id" (prop event "device_id"))
  else event.

(** The result of the validation of an event and of its telemetry, with
    the event as the validation leaves it. *)
Definition verdict (device event : JsVal) : JsVal * outcome (option ErrorObject) :=
  match badEvent device event with
  | (event', Ret None) =>
      (event', if truthy (prop event' "telemetry")
               then badTelemetry (prop event' "telemetry") else Ret None)
  | (event', r) => (event', r)
  end.

(** The success response: 201 with [{ device_id, state }]. *)
Definition created (device_id state : JsVal) : Response :=
  mkResponse 201 (ObjectBody (VObj [("device_id", device_id); ("state", state)])).

(** The response to a second submission of an event. *)
Definition already_received : Response :=
  mkResponse 400 (ErrorBody (mkError "bad_param"
    [Text "An event with this device_id and timestamp has already been received"])).

(** Two event objects that differ at most in [recorded]. *)
Definition same_but_recorded (a b : JsVal) : Prop :=
  (exists fa, a = VObj fa) /\ (exists fb, b = VObj fb)
  /\ forall k, k <> "recorded" -> prop a k = prop b k.

(** A submission is refused: nothing is added to the devices and events
    of the store of record, and one response is sent, which is not the
    success response. *)
Definition refused (w w' : World) : Prop :=
  db_devices (db w') = db_devices (db w)
  /\ db_events (db w') = db_events (db w)
  /\ exists resp, responses w' = (responses w ++ [resp])%list
                  /\ status resp <> 201%nat.

Definition device_known (d : Db) (event : JsVal) : bool :=
  existsb (fun dev => same_value (prop dev "device_id") (prop event "device_id"))
          (db_devices d).

(** The telemetry table after the write of the telemetry of [event]. *)
Definition telemetry_after (known : list JsVal) (event : JsVal) : list JsVal :=
  if truthy (prop event "telemetry")
  then fst (record_new known [prop event "telemetry"])
  else known.

End SubmissionSpec.

(* ================================================================== *)
(** ** The vocabularies by modality *)

Section ModalitySpec.

Context {T : MdsTypes}.

(** The event types and the states of a modality. *)
Definition vocabulary_of (modality : JsVal) : option (list string * list string) :=
  if is_str modality "micromobility" then
    Some (MICRO_MOBILITY_VEHICLE_EVENTS, MICRO_MOBILITY_VEHICLE_STATES)
  else if is_str modality "taxi" then
    Some (TAXI_VEHICLE_EVENTS, TAXI_VEHICLE_STATES)
  else if is_str modality "tnc" then
    Some (TNC_VEHICLE_EVENT, TNC_VEHICLE_STATE)
  else None.

End ModalitySpec.

(** The answer to an event for a device that is not registered. *)
Definition unregistered_response : Response :=
  mkResponse 400 (ErrorBody (mkError "unregistered"
    [Text "The specified device_id has not been registered"])).

(** The two kinds of validation error. *)
Definition validation_kind (e : ErrorObject) : Prop :=
  error e = "missing_param" \/ error e = "bad_param".

(** A value whose own properties are index keys: an array or a string. *)
Definition indexed (v : JsVal) : bool :=
  match v with
  | VArr _ | VStr _ => true
  | _ => false
  end.

(** The response that [fail] sends for an error. *)
Definition fail_answer (err : JsError) : Response :=
  let message := if message err =? "" then String_of_error err else message err in
  if contains message "duplicate" then already_received
  else if contains message "not found" || contains message "unregistered"
       then unregistered_response
       else mkResponse 500 (ErrorBody agencyServerError).

(** [Array.isArray(telemetry) ? telemetry : [telemetry]] *)
Definition rows_of (telemetry : JsVal) : list JsVal :=
  match telemetry with VArr rows => rows | _ => [telemetry] end.

(* ================================================================== *)
(** ** What the parser of validation errors gives *)

(** The first error of the list is a missing-property error. *)
Definition first_is_required (error : JsVal) : bool :=
  match prop error "info" with
  | VArr (first :: _) => is_str (prop first "keyword") "required"
  | _ => false
  end.

Definition has_key (k : string) (v : JsVal) : bool :=
  match v with
  | VObj fs => match lookup k fs with Some _ => true | None => false end
  | _ => false
  end.

(** The missing properties that a list of errors names, in order. *)
Definition missing_properties (items : list JsVal) : list JsVal :=
  map (fun e => prop (prop e "params") "missingProperty")
      (filter (fun e => has_key "missingProperty" (prop e "params")) items).

(** An error object whose [params] is an object or an array. *)
Definition has_params (e : JsVal) : Prop :=
  nullish e = false
  /\ ((exists fs, prop e "params" = VObj fs) \/ (exists l, prop e "params" = VArr l)).

(** An error object whose [instancePath] is a string. *)
Definition has_path (e : JsVal) : Prop :=
  nullish e = false /\ exists p, prop e "instancePath" = VStr p.

Definition invalid_property (e : JsVal) : JsVal :=
  match prop e "instancePath" with
  | VStr p => VObj [("property", VStr (strip_nonword_and_digits p));
                    ("message", prop e "message")]
  | _ => VUndefined
  end.

Fixpoint all_chars (p : ascii -> bool) (s : string) : bool :=
  match s with
  | EmptyString => true
  | String c rest => p c && all_chars p rest
  end.

(* ================================================================== *)
(** ** What a batch of telemetry gives *)

Section BatchSpec.

Context {H : AgencyHelpers}.

(** What the [catch] of [submitVehicleTelemetry] does with an error. *)
Definition batch_failed (data : list JsVal) (err : JsError) : M World BatchResponse :=
  if isNotFoundError err then
    let first := nth 0 data VUndefined in
    if nullish first then throw null_read
    else mret (mkBatchResponse 400 (SomeUnregistered [prop first "device_id"]))
  else mret (mkBatchResponse 500 ServerFailure).

End BatchSpec.

(** Two rows of telemetry with the same [(device_id, timestamp)]. *)
Definition same_row_key (a b : JsVal) : Prop :=
  prop a "device_id" = prop b "device_id"
  /\ prop a "timestamp" = prop b "timestamp".

(** A row of a batch that cannot be read: the row or its [gps] is
    [undefined] or [null]. *)
Definition unreadable_row (row : JsVal) : bool :=
  nullish row || nullish (prop row "gps").


(** What [readPayload] finds: the device of the store of record and the
    latest event of the cache, [undefined] when the read throws. *)
Definition stored_device (device_id : JsVal) (w : World) : JsVal :=
  match snd (db_readDevice device_id VUndefined w) with
  | Ret d => d
  | Throw _ => VUndefined
  end.

Definition cached_event (cache_fault : fault) (device_id : JsVal) (w : World)
  : JsVal :=
  match snd (cache_readEvent cache_fault device_id w) with
  | Ret e => e
  | Throw _ => VUndefined
  end.

(** The [provider_id] that [getVehicleById] filters by. *)
Definition asking_provider (q : VehicleQuery) : JsVal :=
  if existsb (String.eqb "vehicles:read") (query_scopes q)
  then query_provider_id q else query_locals_provider_id q.

(** The world after one more response. *)
Definition answered (w : World) (resp : Response) : World :=
  mkWorld (db w) (cache w) (stream w) (responses w ++ [resp]).
(* ================================================================== *)
(** ** Properties of the value model *)

Unset Implicit Arguments.

Lemma in_rangeb_iff lo hi v : in_rangeb lo hi v = true <-> in_range lo hi v.
Proof.
  unfold in_range; split.
  - destruct v as [| | |[| |q]| | |]; simpl; try discriminate.
    rewrite !andb_true_iff, negb_true_iff, !Qle_bool_iff.
    intros [[Hlo Hhi] Hz]. exists q; repeat split; auto.
    now apply Qeq_bool_neq.
  - intros (q & -> & Hlo & Hhi & Hz); simpl.
    rewrite !andb_true_iff, negb_true_iff, !Qle_bool_iff.
    repeat split; auto.
    destruct (Qeq_bool q 0) eqn:E; [|reflexivity].
    apply Qeq_bool_iff in E; contradiction.
Qed.

(** The coordinate test of the code is the negation of "in range". *)
Lemma bad_coordinate_spec lo hi v :
  bad_coordinate lo hi v = negb (in_rangeb lo hi v).
Proof.
  destruct v as [| | |[|[|]|q]| | |]; simpl; try reflexivity.
  unfold Qlt_bool.
  destruct (Qle_bool (inject_Z lo) q) eqn:E1; simpl; [|reflexivity].
  destruct (Qle_bool q (inject_Z hi)) eqn:E2; simpl; [|reflexivity].
  now destruct (Qeq_bool q 0).
Qed.

Lemma present_and_not_spec check v :
  present_and_not check v = negb (optionalb check v).
Proof.
  unfold present_and_not, optionalb.
  destruct (is_undefined v), (is_null v), (check v); reflexivity.
Qed.

Lemma optionalb_iff check v : optionalb check v = true <-> optional check v.
Proof.
  unfold optionalb, optional; split.
  - destruct v; simpl; auto.
  - intros [-> | [-> | H]]; simpl; auto.
    rewrite H. now rewrite orb_true_r.
Qed.

Lemma typeof_object_not_null v :
  (typeof v =? "object") = true -> v <> VNull -> nullish v = false.
Proof.
  destruct v; cbn; intros Hty Hnn;
    try reflexivity; try discriminate Hty; now elim Hnn.
Qed.

(* ================================================================== *)
(** ** The telemetry validator *)

Section TelemetryProperties.

Context {U : MdsUtils}.

(** Unless [gps] is [null], the validator returns, and what it returns is
    the error of the first failing check of the spec's list, or [null]
    when none fails. *)
Lemma badTelemetry_first_failure (t : JsVal) :
  prop t "gps" <> VNull ->
  badTelemetry t = Ret (first_failure (telemetry_checks t)).
Proof.
  intros Hgps.
  unfold badTelemetry, first_failure, telemetry_checks.
  rewrite !bad_coordinate_spec, !present_and_not_spec.
  cbn [find fst snd option_map].
  destruct (truthy t); cbn [negb]; [|reflexivity].
  destruct (typeof (prop t "gps") =? "object") eqn:Hty; cbn [negb]; [|reflexivity].
  rewrite (typeof_object_not_null _ Hty Hgps).
  repeat match goal with
         | |- context [if negb ?c then _ else _] =>
             destruct c; cbn [negb option_map snd]; [|reflexivity]
         end.
  reflexivity.
Qed.

Lemma badTelemetry_null_inv (t : JsVal) :
  badTelemetry t = Ret None -> prop t "gps" <> VNull.
Proof.
  unfold badTelemetry. intros H Hnull. rewrite Hnull in H.
  destruct (truthy t); discriminate.
Qed.

Lemma well_formed_gps_not_null (t : JsVal) :
  telemetry_well_formed t -> prop t "gps" <> VNull.
Proof.
  intros ((q & Hq & _) & _) Hnull. rewrite Hnull in Hq. discriminate.
Qed.

Lemma well_formed_present (t : JsVal) :
  telemetry_well_formed t ->
  truthy t = true /\ (typeof (prop t "gps") =? "object") = true.
Proof.
  intros ((q & Hq & _) & _).
  destruct t; try discriminate.
  split; [reflexivity|].
  destruct (prop (VObj fields) "gps"); try discriminate. reflexivity.
Qed.

Lemma first_failure_none_iff (t : JsVal) :
  first_failure (telemetry_checks t) = None <-> telemetry_well_formed t.
Proof.
  unfold telemetry_well_formed.
  rewrite <- !in_rangeb_iff, <- !optionalb_iff.
  unfold first_failure, telemetry_checks.
  cbn [find fst snd option_map]. split.
  - intros H.
    repeat match type of H with
           | context [if negb ?c then _ else _] =>
               destruct c eqn:?; cbn [negb option_map snd] in H; [|discriminate]
           end.
    repeat split; assumption.
  - intros (Hlat & Hlng & Hid & Hts & Halt & Hacc & Hsp & Hsat & Hch).
    assert (Hwf : telemetry_well_formed t).
    { unfold telemetry_well_formed.
      rewrite <- !in_rangeb_iff, <- !optionalb_iff. repeat split; assumption. }
    destruct (well_formed_present _ Hwf) as [Ht Hg].
    rewrite Ht, Hg, Hlat, Hlng, Hid, Hts, Halt, Hacc, Hsp, Hsat, Hch.
    reflexivity.
Qed.

(** The validator returns [null] exactly on well-formed telemetry (the
    [heading] is not looked at). *)
Lemma badTelemetry_null_iff (t : JsVal) :
  badTelemetry t = Ret None <-> telemetry_well_formed t.
Proof.
  split.
  - intros H. apply first_failure_none_iff.
    pose proof (badTelemetry_null_inv _ H) as Hgps.
    rewrite (badTelemetry_first_failure _ Hgps) in H. congruence.
  - intros Hwf.
    rewrite (badTelemetry_first_failure _ (well_formed_gps_not_null _ Hwf)).
    f_equal. now apply first_failure_none_iff.
Qed.

(** C1 (as amended): for every telemetry value [t] whose [gps] is not
    [null], [badTelemetry t] returns [null] if and only if [lat] is a
    number in [-90,90] and not 0, [lng] is a number in [-180,180] and not
    0, [device_id] is a UUID, [timestamp] passes the timestamp check and
    each of altitude, accuracy, speed (floats), satellites (integer) and
    charge (percentage) is absent, [null] or well-formed; otherwise it
    returns the error descriptor of the first failing check in the order
    missing telemetry, gps, device_id, lat, lng, altitude, accuracy,
    speed, satellites, charge, timestamp.  The heading is not checked. *)
Theorem C1_badTelemetry_accepts_iff_well_formed (t : JsVal) :
  prop t "gps" <> VNull ->
  (badTelemetry t = Ret None <-> telemetry_well_formed t)
  /\ badTelemetry t = Ret (first_failure (telemetry_checks t))
  /\ (~ telemetry_well_formed t ->
      exists e, first_failure (telemetry_checks t) = Some e).
Proof.
  intros Hgps. split; [apply badTelemetry_null_iff|].
  split; [now apply badTelemetry_first_failure|].
  intros Hn. destruct (first_failure (telemetry_checks t)) as [e|] eqn:E.
  - now exists e.
  - apply first_failure_none_iff in E. contradiction.
Qed.

(** With [gps: null] the destructuring of [gps] throws. *)
Lemma badTelemetry_gps_null_throws (t : JsVal) :
  truthy t = true -> prop t "gps" = VNull ->
  badTelemetry t = Throw null_read.
Proof.
  intros Ht Hg. unfold badTelemetry. rewrite Ht, Hg. reflexivity.
Qed.

End TelemetryProperties.

(* ================================================================== *)
(** ** Objects *)

Lemma lookup_assign_same fs k v : lookup k (assign fs k v) = Some v.
Proof.
  induction fs as [|[k' v'] rest IH]; simpl.
  - now rewrite String.eqb_refl.
  - destruct (k' =? k) eqn:E; simpl; rewrite E; auto.
Qed.

Lemma lookup_assign_other fs k k' v :
  k <> k' -> lookup k' (assign fs k v) = lookup k' fs.
Proof.
  intros Hne. induction fs as [|[k0 v0] rest IH]; simpl.
  - apply String.eqb_neq in Hne. now rewrite Hne.
  - destruct (k0 =? k) eqn:E; simpl.
    + apply String.eqb_eq in E; subst k0.
      apply String.eqb_neq in Hne. now rewrite Hne.
    + now rewrite IH.
Qed.

Lemma prop_set_prop_same fs k v : prop (set_prop (VObj fs) k v) k = v.
Proof. simpl. now rewrite lookup_assign_same. Qed.

Lemma prop_set_prop_other o k k' v :
  k <> k' -> prop (set_prop o k v) k' = prop o k'.
Proof.
  intros Hne. destruct o; simpl; try reflexivity.
  now rewrite lookup_assign_other.
Qed.

Lemma prop_defined_object o k : prop o k <> VUndefined -> exists fs, o = VObj fs.
Proof. destruct o; simpl; try congruence. intros _. now eexists. Qed.

Lemma truthy_prop_object o k : truthy (prop o k) = true -> exists fs, o = VObj fs.
Proof.
  intros H. apply prop_defined_object with (k := k).
  intros E. rewrite E in H. discriminate.
Qed.

Lemma object_not_nullish o fs : o = VObj fs -> nullish o = false.
Proof. now intros ->. Qed.

Lemma includes_iff table v : includes table v = true <-> in_vocabulary table v.
Proof.
  unfold in_vocabulary. destruct v; simpl;
    try (split; [discriminate | intros (s0 & E & _); discriminate]).
  rewrite existsb_exists. split.
  - intros (x & Hin & Heq). apply String.eqb_eq in Heq. subst x. now exists s.
  - intros (s0 & E & Hin). injection E as ->. exists s0. split; auto.
    apply String.eqb_refl.
Qed.


Lemma normalize_trip_id_other event k :
  k <> "trip_id" -> prop (normalize_trip_id event) k = prop event k.
Proof.
  intros Hne. unfold normalize_trip_id.
  destruct (is_str (prop event "trip_id") ""); [|reflexivity].
  apply prop_set_prop_other. congruence.
Qed.

Lemma is_str_true v s : is_str v s = true <-> v = VStr s.
Proof.
  destruct v; simpl; split; try discriminate.
  - intros H. apply String.eqb_eq in H. now subst.
  - intros H. injection H as ->. apply String.eqb_refl.
Qed.

Lemma normalize_trip_id_empty event :
  prop event "trip_id" = VStr "" ->
  prop (normalize_trip_id event) "trip_id" = VNull.
Proof.
  intros H. unfold normalize_trip_id. rewrite H. simpl.
  destruct event; simpl in H; try discriminate.
  apply prop_set_prop_same.
Qed.

Lemma normalize_trip_id_nonempty event :
  prop event "trip_id" <> VStr "" -> normalize_trip_id event = event.
Proof.
  intros H. unfold normalize_trip_id.
  destruct (is_str (prop event "trip_id") "") eqn:E; [|reflexivity].
  apply is_str_true in E. contradiction.
Qed.

(* ================================================================== *)
(** ** The event validator *)

Section EventProperties.

Context {U : MdsUtils} {T : MdsTypes}.

(** Past the checks of timestamp, [event_types] and [vehicle_state], the
    result is decided by the modality branch and then by the trip checks. *)
Lemma badEvent_past_envelope device event ets :
  nullish device = false ->
  envelope_ok event ets ->
  truthy (prop event "vehicle_state") = true ->
  badEvent device event =
  match bad_modality (prop device "modality") event ets with
  | Some e => (event, Ret (Some e))
  | None => (normalize_trip_id event, bad_trip (normalize_trip_id event) ets)
  end.
Proof.
  intros Hdev (Hts & Hvalid & Hets & Hne) Hstate.
  destruct (prop_defined_object _ _ Hts) as [fs ->].
  unfold badEvent. rewrite Hdev. cbn [nullish is_undefined is_null orb].
  destruct (prop (VObj fs) "timestamp") eqn:E; try congruence;
    cbn [is_undefined]; rewrite Hvalid, Hets; cbn [negb truthy];
    destruct ets; try congruence; cbn [List.length Nat.eqb];
    rewrite Hstate; reflexivity.
Qed.

Lemma badEvent_reaching_trip_checks device event ets :
  reaches_trip_checks device event ets ->
  badEvent device event =
  (normalize_trip_id event, bad_trip (normalize_trip_id event) ets).
Proof.
  intros (Hdev & Henv & Hstate & Hmod).
  rewrite (badEvent_past_envelope _ _ _ Hdev Henv Hstate). now rewrite Hmod.
Qed.

Lemma bad_vocabulary_none_iff events states ets state :
  bad_vocabulary events states ets state = None
  <-> Forall (in_vocabulary events) ets /\ in_vocabulary states state.
Proof.
  unfold bad_vocabulary. rewrite <- includes_iff. split.
  - destruct (find _ ets) eqn:Hfind; [discriminate|].
    destruct (includes states state) eqn:Hst; [|discriminate].
    intros _. split; [|reflexivity].
    apply Forall_forall. intros x Hin. apply includes_iff.
    pose proof (find_none _ _ Hfind x Hin) as Hx.
    now apply negb_false_iff in Hx.
  - intros [Hall Hst]. rewrite Hst.
    destruct (find _ ets) eqn:Hfind; [|reflexivity].
    apply find_some in Hfind. destruct Hfind as [Hin Hneg].
    rewrite Forall_forall in Hall. apply Hall in Hin.
    apply includes_iff in Hin. rewrite Hin in Hneg. discriminate.
Qed.

(** The normalized [trip_id]. *)
Lemma normalized_trip_id_cases event :
  let tid := prop event "trip_id" in
  let tid' := prop (normalize_trip_id event) "trip_id" in
  (tid = VStr "" /\ tid' = VNull) \/ (tid <> VStr "" /\ tid' = tid).
Proof.
  cbn zeta. destruct (is_str (prop event "trip_id") "") eqn:E.
  - left. apply is_str_true in E. split; [assumption|].
    now apply normalize_trip_id_empty.
  - right. assert (H : prop event "trip_id" <> VStr "").
    { intros H. apply is_str_true in H. congruence. }
    split; [assumption|]. now rewrite normalize_trip_id_nonempty.
Qed.

Lemma absent_or_uuid_normalized event :
  let tid' := prop (normalize_trip_id event) "trip_id" in
  negb (is_null tid') && negb (is_undefined tid') && negb (isUUID tid') = false
  <-> (trip_id_absent (prop event "trip_id")
       \/ isUUID (prop event "trip_id") = true).
Proof.
  cbn zeta. unfold trip_id_absent.
  destruct (normalized_trip_id_cases event) as [[E ->] | [Hne ->]].
  - rewrite E. simpl. split; auto.
  - destruct (prop event "trip_id") eqn:E; simpl; split; auto;
      try (intros H; right; now apply negb_false_iff in H);
      intros [[H | [H | H]] | H]; try discriminate; try congruence;
      now rewrite H.
Qed.

Lemma truthy_normalized event :
  truthy (prop (normalize_trip_id event) "trip_id")
  = truthy (prop event "trip_id").
Proof.
  destruct (normalized_trip_id_cases event) as [[E ->] | [Hne ->]];
    [now rewrite E | reflexivity].
Qed.

(** The trip checks, in terms of the event as submitted. *)
Lemma bad_trip_normalized event ets :
  bad_trip (normalize_trip_id event) ets =
  if negb (is_null (prop (normalize_trip_id event) "trip_id"))
     && negb (is_undefined (prop (normalize_trip_id event) "trip_id"))
     && negb (isUUID (prop (normalize_trip_id event) "trip_id"))
  then Ret (Some (invalid_trip_id (prop event "trip_id")))
  else if areThereCommonElements trip_boundary_events ets then
         r <- badTelemetry (prop event "telemetry") ;;
         Ret (match r with
              | Some e => Some e
              | None => if truthy (prop event "trip_id") then None
                        else Some missing_trip_id
              end)
       else if includes_str ets "provider_drop_off" then
              badTelemetry (prop event "telemetry")
            else Ret None.
Proof.
  unfold bad_trip. rewrite truthy_normalized.
  rewrite (normalize_trip_id_other event "telemetry") by discriminate.
  destruct (normalized_trip_id_cases event) as [[E E'] | [Hne E']];
    rewrite E'.
  - simpl. rewrite E. simpl.
    destruct (areThereCommonElements trip_boundary_events ets); reflexivity.
  - destruct (negb (is_null _) && _ && _); [reflexivity|].
    destruct (areThereCommonElements trip_boundary_events ets); [|reflexivity].
    destruct (badTelemetry (prop event "telemetry")) as [[e|]|]; simpl;
      try reflexivity.
    now destruct (truthy (prop event "trip_id")).
Qed.

Lemma bad_trip_none_iff event ets :
  bad_trip (normalize_trip_id event) ets = Ret None <-> trip_rules_ok event ets.
Proof.
  rewrite bad_trip_normalized. unfold trip_rules_ok.
  rewrite <- absent_or_uuid_normalized.
  destruct (negb (is_null _) && _ && _).
  - split; [discriminate | intros [H _]; discriminate].
  - destruct (areThereCommonElements trip_boundary_events ets).
    + destruct (badTelemetry (prop event "telemetry")) as [[e|]|]; simpl.
      * split; [discriminate | intros (_ & H & _)].
        destruct (H eq_refl); discriminate.
      * destruct (truthy (prop event "trip_id")).
        -- split; [intros _; repeat split; auto; discriminate | auto].
        -- split; [discriminate | intros (_ & H & _)].
           destruct (H eq_refl); discriminate.
      * split; [discriminate | intros (_ & H & _)].
        destruct (H eq_refl); discriminate.
    + destruct (includes_str ets "provider_drop_off").
      * split.
        -- intros H. repeat split; auto; discriminate.
        -- intros (_ & _ & H). now apply H.
      * split; [intros _; repeat split; auto; discriminate | auto].
Qed.

End EventProperties.

Section EventClaims.

Context {U : MdsUtils} {T : MdsTypes}.

Lemma modality_not_nullish device m :
  prop device "modality" = VStr m -> nullish device = false.
Proof. destruct device; simpl; intros H; try reflexivity; discriminate. Qed.

Lemma badEvent_missing_state device event ets :
  nullish device = false ->
  envelope_ok event ets ->
  truthy (prop event "vehicle_state") = false ->
  badEvent device event =
  (event, Ret (Some (missing_param
                       [Text ("missing enum field " ++ quoted "vehicle_state")]))).
Proof.
  intros Hdev (Hts & Hvalid & Hets & Hne) Hstate.
  destruct (prop_defined_object _ _ Hts) as [fs ->].
  unfold badEvent. rewrite Hdev. cbn [nullish is_undefined is_null orb].
  destruct (prop (VObj fs) "timestamp") eqn:E; try congruence;
    cbn [is_undefined]; rewrite Hvalid, Hets; cbn [negb truthy];
    destruct ets; try congruence; cbn [List.length Nat.eqb];
    rewrite Hstate; reflexivity.
Qed.

(** C2 (as amended): for a micromobility device and an event with a valid
    timestamp and a non-empty [event_types] array, [badEvent] returns
    [null] if and only if every element of [event_types] is in the
    micromobility event vocabulary, [vehicle_state] is in the
    micromobility state vocabulary, and the trip rules hold: [trip_id] is
    absent, empty or a UUID; when [event_types] intersects the
    trip-boundary set the telemetry passes [badTelemetry] and [trip_id]
    is present; when it only includes [provider_drop_off] the telemetry
    passes [badTelemetry]. *)
Theorem C2_micromobility_accepts_iff (device event : JsVal) (ets : list JsVal) :
  prop device "modality" = VStr "micromobility" ->
  envelope_ok event ets ->
  ~ In "" MICRO_MOBILITY_VEHICLE_STATES ->
  (snd (badEvent device event) = Ret None
   <-> Forall (in_vocabulary MICRO_MOBILITY_VEHICLE_EVENTS) ets
       /\ in_vocabulary MICRO_MOBILITY_VEHICLE_STATES (prop event "vehicle_state")
       /\ trip_rules_ok event ets).
Proof.
  intros Hmod Henv Hnonempty.
  pose proof (modality_not_nullish _ _ Hmod) as Hdev.
  destruct (truthy (prop event "vehicle_state")) eqn:Hstate.
  - rewrite (badEvent_past_envelope _ _ _ Hdev Henv Hstate).
    unfold bad_modality. rewrite Hmod. cbn [is_str String.eqb Ascii.eqb Bool.eqb].
    destruct (bad_vocabulary _ _ ets _) as [e|] eqn:Hvoc.
    + split; [discriminate|]. intros (Hall & Hst & _).
      assert (H : bad_vocabulary MICRO_MOBILITY_VEHICLE_EVENTS
                    MICRO_MOBILITY_VEHICLE_STATES ets
                    (prop event "vehicle_state") = None)
        by now apply bad_vocabulary_none_iff.
      congruence.
    + apply bad_vocabulary_none_iff in Hvoc. destruct Hvoc as [Hall Hst].
      cbn [snd]. rewrite bad_trip_none_iff. tauto.
  - rewrite (badEvent_missing_state _ _ _ Hdev Henv Hstate). cbn [snd].
    split; [discriminate|]. intros (_ & (s & Hs & Hin) & _).
    rewrite Hs in Hstate. simpl in Hstate.
    apply negb_false_iff, String.eqb_eq in Hstate. subst s. contradiction.
Qed.

Lemma bad_trip_state_rejects exit_events event ets :
  truthy (prop event "trip_id") = true ->
  includes TRIP_STATES (prop event "vehicle_state") = true ->
  areThereCommonElements exit_events ets = false ->
  bad_trip_state exit_events event ets =
  if truthy (prop event "trip_state") then
    if includes TRIP_STATES (prop event "trip_state") then None
    else Some (bad_param [Text "invalid trip_state ";
                          Subst (prop event "trip_state")])
  else Some missing_trip_state.
Proof.
  intros Htid Hst Hexit. unfold bad_trip_state.
  rewrite Htid, Hst, Hexit. cbn [andb negb].
  destruct (truthy (prop event "trip_state")); cbn [negb andb]; [|reflexivity].
  now destruct (includes TRIP_STATES (prop event "trip_state")).
Qed.

Lemma bad_modality_trip m event ets :
  m = "taxi" \/ m = "tnc" ->
  bad_modality (VStr m) event ets =
  match bad_vocabulary (events_of m) (states_of m) ets
                       (prop event "vehicle_state") with
  | Some e => Some e
  | None => bad_trip_state (exit_events_of m) event ets
  end.
Proof. intros [-> | ->]; reflexivity. Qed.

(** Before the modality branch the function only returns errors. *)
Lemma badEvent_rejects_when_modality_rejects device event :
  nullish device = false -> nullish event = false ->
  (forall ets, prop event "event_types" = VArr ets ->
               exists e, bad_modality (prop device "modality") event ets = Some e) ->
  exists e', snd (badEvent device event) = Ret (Some e').
Proof.
  intros Hdev Hev Hmod. unfold badEvent. rewrite Hdev, Hev. cbn [orb].
  destruct (is_undefined _); [now eexists|].
  destruct (negb (isTimestamp _)); [now eexists|].
  destruct (negb (truthy _)); [now eexists|].
  destruct (prop event "event_types") eqn:Hets; try now eexists.
  destruct (_ =? 0)%nat; [now eexists|].
  destruct (negb (truthy _)); [now eexists|].
  destruct (Hmod items eq_refl) as [e ->]. now eexists.
Qed.

(** C3 (as amended): for a taxi or tnc device, if [trip_id] is set
    (truthy), [vehicle_state] is a member of [TRIP_STATES] and
    [event_types] is disjoint from the modality's trip-exit events, then
    an event lacking a legal [trip_state] is rejected; when it passes the
    earlier checks the error is [missing_param] if [trip_state] is not
    set and [bad_param] if it is set and not a member of [TRIP_STATES]. *)
Theorem C3_trip_state_required
        (m : string) (device event : JsVal) (ets : list JsVal) :
  m = "taxi" \/ m = "tnc" ->
  prop device "modality" = VStr m ->
  prop event "event_types" = VArr ets ->
  truthy (prop event "trip_id") = true ->
  in_vocabulary TRIP_STATES (prop event "vehicle_state") ->
  areThereCommonElements (exit_events_of m) ets = false ->
  (~ in_vocabulary TRIP_STATES (prop event "trip_state") ->
   exists e, snd (badEvent device event) = Ret (Some e))
  /\ (envelope_ok event ets ->
      truthy (prop event "vehicle_state") = true ->
      bad_vocabulary (events_of m) (states_of m) ets
                     (prop event "vehicle_state") = None ->
      (truthy (prop event "trip_state") = false ->
       badEvent device event = (event, Ret (Some missing_trip_state)))
      /\ (truthy (prop event "trip_state") = true ->
          ~ in_vocabulary TRIP_STATES (prop event "trip_state") ->
          badEvent device event =
          (event, Ret (Some (bad_param [Text "invalid trip_state ";
                                        Subst (prop event "trip_state")]))))).
Proof.
  intros Hm Hmod Hets Htid Hst Hexit.
  apply includes_iff in Hst.
  pose proof (modality_not_nullish _ _ Hmod) as Hdev.
  pose proof (bad_trip_state_rejects _ _ _ Htid Hst Hexit) as Hreq.
  split.
  - intros Hillegal.
    destruct (truthy_prop_object _ _ Htid) as [fs Hobj].
    apply badEvent_rejects_when_modality_rejects;
      [assumption | now rewrite Hobj |].
    intros ets' Hets'. rewrite Hets in Hets'. injection Hets' as <-.
    rewrite Hmod, (bad_modality_trip _ _ _ Hm).
    destruct (bad_vocabulary _ _ ets _); [now eexists|].
    rewrite Hreq.
    destruct (truthy (prop event "trip_state")); [|now eexists].
    destruct (includes TRIP_STATES (prop event "trip_state")) eqn:E;
      [|now eexists].
    apply includes_iff in E. contradiction.
  - intros Henv Hstate Hvoc.
    rewrite (badEvent_past_envelope _ _ _ Hdev Henv Hstate).
    rewrite Hmod, (bad_modality_trip _ _ _ Hm), Hvoc, Hreq.
    split.
    + now intros ->.
    + intros -> Hillegal.
      destruct (includes TRIP_STATES (prop event "trip_state")) eqn:E;
        [|reflexivity].
      apply includes_iff in E. contradiction.
Qed.


Lemma badTelemetry_not_trip_id_error t v :
  badTelemetry t <> Ret (Some (invalid_trip_id v)).
Proof.
  unfold badTelemetry.
  repeat match goal with
         | |- context [if ?c then _ else _] => destruct c; try discriminate
         end.
Qed.

(** C8: for an event of any modality that reaches the [trip_id] checks,
    [badEvent] turns an empty-string [trip_id] into [null], never rejects
    an empty-string [trip_id] as not being a UUID, and gives the
    [bad_param] error of the [trip_id] check exactly when [trip_id] is
    present (not undefined, not null, not the empty string) and not a
    UUID. *)
Theorem C8_trip_id_checks (device event : JsVal) (ets : list JsVal) :
  reaches_trip_checks device event ets ->
  (prop event "trip_id" = VStr "" ->
   prop (fst (badEvent device event)) "trip_id" = VNull
   /\ forall v, snd (badEvent device event) <> Ret (Some (invalid_trip_id v)))
  /\ (prop event "trip_id" <> VStr "" -> fst (badEvent device event) = event)
  /\ (~ trip_id_absent (prop event "trip_id")
      /\ isUUID (prop event "trip_id") = false ->
      snd (badEvent device event)
      = Ret (Some (invalid_trip_id (prop event "trip_id"))))
  /\ (forall v, snd (badEvent device event) = Ret (Some (invalid_trip_id v)) ->
                ~ trip_id_absent (prop event "trip_id")
                /\ isUUID (prop event "trip_id") = false).
Proof.
  intros Hreach.
  rewrite (badEvent_reaching_trip_checks _ _ _ Hreach). cbn [fst snd].
  rewrite bad_trip_normalized.
  assert (Hinv : forall v,
    (if negb (is_null (prop (normalize_trip_id event) "trip_id"))
        && negb (is_undefined (prop (normalize_trip_id event) "trip_id"))
        && negb (isUUID (prop (normalize_trip_id event) "trip_id"))
     then Ret (Some (invalid_trip_id (prop event "trip_id")))
     else if areThereCommonElements trip_boundary_events ets then
            r <- badTelemetry (prop event "telemetry") ;;
            Ret (match r with
                 | Some e => Some e
                 | None => if truthy (prop event "trip_id") then None
                           else Some missing_trip_id
                 end)
          else if includes_str ets "provider_drop_off" then
                 badTelemetry (prop event "telemetry")
               else Ret None) = Ret (Some (invalid_trip_id v)) ->
    negb (is_null (prop (normalize_trip_id event) "trip_id"))
    && negb (is_undefined (prop (normalize_trip_id event) "trip_id"))
    && negb (isUUID (prop (normalize_trip_id event) "trip_id")) = true).
  { intros v. destruct (negb (is_null _) && _ && _); [reflexivity|].
    intros H. exfalso.
    destruct (areThereCommonElements trip_boundary_events ets).
    - destruct (badTelemetry (prop event "telemetry")) as [[e|]|] eqn:E;
        simpl in H; try discriminate.
      + rewrite <- E in H. now apply badTelemetry_not_trip_id_error in H.
      + destruct (truthy (prop event "trip_id")); discriminate.
    - destruct (includes_str ets "provider_drop_off"); [|discriminate].
      now apply badTelemetry_not_trip_id_error in H. }
  assert (Hcheck :
    negb (is_null (prop (normalize_trip_id event) "trip_id"))
    && negb (is_undefined (prop (normalize_trip_id event) "trip_id"))
    && negb (isUUID (prop (normalize_trip_id event) "trip_id")) = true
    <-> ~ trip_id_absent (prop event "trip_id")
        /\ isUUID (prop event "trip_id") = false).
  { pose proof (absent_or_uuid_normalized event) as Hiff. cbn zeta in Hiff.
    destruct (negb (is_null _) && _ && _).
    - split; [intros _|reflexivity]. split.
      + intros Habs. assert (true = false) by (apply Hiff; now left).
        discriminate.
      + destruct (isUUID (prop event "trip_id")) eqn:E; [|reflexivity].
        assert (true = false) by (apply Hiff; now right). discriminate.
    - split; [discriminate|]. intros [Hpresent Hnot].
      destruct (proj1 Hiff eq_refl) as [Habs | Huuid];
        [contradiction | congruence]. }
  repeat split.
  - now apply normalize_trip_id_empty.
  - intros v Hv. apply Hinv, Hcheck in Hv. destruct Hv as [Hpresent _].
    apply Hpresent. right; right; assumption.
  - apply normalize_trip_id_nonempty.
  - intros Hbad. apply Hcheck in Hbad. now rewrite Hbad.
  - apply Hinv in H. now apply Hcheck in H.
  - apply Hinv in H. now apply Hcheck in H.
Qed.

End EventClaims.

(* ================================================================== *)
(** ** The composite view *)

Ltac read_composite :=
  cbn [set_prop prop];
  rewrite ?lookup_assign_other by discriminate;
  rewrite ?lookup_assign_same; auto.

(** C9: [computeCompositeVehicleData] gives a record whose [state],
    [prev_events] and [updated] are the event's [vehicle_state],
    [event_types] and [timestamp] when an event is present, whose [state]
    is ['removed'] and [prev_events] is [['decommissioned']] when there is
    none, and whose [gps] is the telemetry's [gps] when telemetry with a
    [gps] is present; otherwise no [gps] is set (the record then has a
    [gps] only if the device itself carries one, which a device does
    not). *)
Theorem C9_computeCompositeVehicleData (payload : VehiclePayload) :
  let device := payload_device payload in
  let event := payload_event payload in
  let telemetry := payload_telemetry payload in
  let composite := computeCompositeVehicleData payload in
  (truthy event = true ->
   prop composite "state" = prop event "vehicle_state"
   /\ prop composite "prev_events" = prop event "event_types"
   /\ prop composite "updated" = prop event "timestamp")
  /\ (truthy event = false ->
      prop composite "state" = VStr "removed"
      /\ prop composite "prev_events" = VArr [VStr "decommissioned"])
  /\ (truthy telemetry = true -> truthy (prop telemetry "gps") = true ->
      prop composite "gps" = prop telemetry "gps")
  /\ (truthy telemetry && truthy (prop telemetry "gps") = false ->
      prop composite "gps" = prop device "gps").
Proof.
  destruct payload as [device event telemetry]. cbn zeta.
  unfold computeCompositeVehicleData.
  cbn [payload_device payload_event payload_telemetry].
  assert (Hdev : forall k, match lookup k (spread device) with
                           | Some v => v | None => VUndefined end
                           = prop device k)
    by (intros k; destruct device; reflexivity).
  split; [|split; [|split]].
  - intros ->.
    destruct (truthy telemetry); [destruct (truthy _)|];
      repeat split; read_composite.
  - intros ->.
    destruct (truthy telemetry); [destruct (truthy _)|];
      repeat split; read_composite.
  - intros -> ->. destruct (truthy event); read_composite.
  - intros Hno. destruct (truthy telemetry); cbn [andb] in Hno;
      [rewrite Hno|]; destruct (truthy event); read_composite; apply Hdev.
Qed.

(* ================================================================== *)
(** ** The collaborators *)

Lemma same_num_refl n : same_num n n = true.
Proof.
  destruct n as [|s|q]; simpl;
    [reflexivity | apply Bool.eqb_reflx | apply Qeq_bool_refl].
Qed.

Lemma same_value_refl : forall v, same_value v v = true.
Proof.
  fix IH 1. intros [| |b|n|s|items|fields]; simpl.
  - reflexivity.
  - reflexivity.
  - apply Bool.eqb_reflx.
  - apply same_num_refl.
  - apply String.eqb_refl.
  - revert items. fix IHitems 1. intros [|x xs].
    + reflexivity.
    + rewrite (IH x). simpl. apply IHitems.
  - revert fields. fix IHfields 1. intros [|[k x] rest].
    + reflexivity.
    + rewrite String.eqb_refl, (IH x). simpl. apply IHfields.
Qed.

Lemma same_key_agree a b :
  prop a "device_id" = prop b "device_id" ->
  prop a "timestamp" = prop b "timestamp" ->
  same_key a b = true.
Proof.
  intros Hd Ht. unfold same_key. rewrite Hd, Ht, !same_value_refl. reflexivity.
Qed.

Lemma Db_eta d : mkDb (db_devices d) (db_events d) (db_telemetry d) = d.
Proof. now destruct d. Qed.

Lemma World_eta w : mkWorld (db w) (cache w) (stream w) (responses w) = w.
Proof. now destruct w. Qed.

(** A row that is already recorded is absorbed. *)
Lemma record_new_known known t :
  existsb (same_key t) known = true -> record_new known [t] = (known, []).
Proof. intros H. simpl. now rewrite H. Qed.

(** After the write of a row, the row is recorded. *)
Lemma record_new_recorded known t :
  existsb (same_key t) (fst (record_new known [t])) = true.
Proof.
  simpl. destruct (existsb (same_key t) known) eqn:E; simpl; [assumption|].
  rewrite existsb_app. simpl.
  rewrite (same_key_agree t t eq_refl eq_refl). now rewrite orb_true_r.
Qed.

Lemma existsb_same_key_agree t t' known :
  prop t "device_id" = prop t' "device_id" ->
  prop t "timestamp" = prop t' "timestamp" ->
  existsb (same_key t) known = existsb (same_key t') known.
Proof.
  intros Hd Ht. induction known as [|x xs IH]; simpl; [reflexivity|].
  rewrite IH. unfold same_key. now rewrite Hd, Ht.
Qed.

Lemma app_singleton_neq {A} (l : list A) (x : A) : (l ++ [x])%list <> l.
Proof.
  intros H. apply (f_equal (@List.length A)) in H.
  rewrite length_app in H. simpl in H. lia.
Qed.

(* ================================================================== *)
(** ** The phases of the submission *)

Section Phases.

Context {U : MdsUtils} {T : MdsTypes} {B : StringBuiltins}.
Variable env : Env.
Variable req : Request.

(** The cache warm-up leaves the store of record and the response alone
    and never throws. *)
Lemma reseed_spec device id s :
  exists w', reseed env device id s = (mkLocal w' (event s), Ret tt)
             /\ db w' = db (world s) /\ responses w' = responses (world s).
Proof.
  destruct s as [w ev].
  unfold reseed, try_catch, mbind, on_world, cache_readDevice, Promise_all,
    cache_writeDevice, stream_writeDevice, attempt, mret.
  cbn [world event].
  destruct (cache_readDevice_fault env), (reseed_cache_fault env),
    (reseed_stream_fault env);
    try destruct (find _ (cache_devices (cache w)));
    cbn [world event]; eexists; repeat split.
Qed.

(** The fan-out never throws: whatever the cache and the stream do, the
    success response is sent, and the store of record is left alone. *)
Lemma fan_out_spec recorded_event telemetry recorded s :
  exists s',
    fan_out env req recorded_event telemetry recorded s = (s', Ret tt)
    /\ db (world s') = db (world s)
    /\ responses (world s')
       = (responses (world s)
          ++ [created (params_device_id req) (prop (event s) "vehicle_state")])%list.
Proof.
  destruct s as [w ev].
  unfold fan_out, success, try_catch, mbind, on_world, Promise_all, the_event,
    cache_writeEvent, stream_writeEvent, cache_writeTelemetry,
    stream_writeTelemetry, set_event, attempt, mret, send, created.
  cbn [world event].
  destruct (cache_writeEvent_fault env), (stream_writeEvent_fault env),
    (truthy telemetry), (cache_writeTelemetry_fault env),
    (stream_writeTelemetry_fault env);
    cbn [world event db responses set_cache emit];
    rewrite ?prop_set_prop_other by discriminate;
    eexists; repeat split.
Qed.

Lemma validate_spec device s :
  validate device s
  = (mkLocal (world s) (fst (verdict device (event s))),
     snd (verdict device (event s))).
Proof.
  destruct s as [w ev].
  unfold validate, verdict, mbind, badEvent_in_place, the_event, lift, mret.
  cbn [world event].
  destruct (badEvent device ev) as [ev' [[e|]|e]]; cbn [world event fst snd];
    try reflexivity.
  now destruct (truthy (prop ev' "telemetry")).
Qed.

(** The answer to a validation failure: the store of record is left
    alone, and either the failure is sent with status 400, or the write
    to the stream throws and nothing is sent yet. *)
Lemma rejected_spec failure s :
  exists w' r,
    rejected env req failure s = (mkLocal w' (event s), r)
    /\ db w' = db (world s)
    /\ ((r = Ret tt
         /\ responses w'
            = (responses (world s) ++ [mkResponse 400 (ErrorBody failure)])%list)
        \/ ((exists e, r = Throw e) /\ responses w' = responses (world s))).
Proof.
  destruct s as [w ev].
  unfold rejected, mbind, on_world, the_event, stream_writeEventError,
    attempt, send.
  cbn [world event].
  destruct (rejected_stream_fault env); cbn [world event db responses emit];
    do 2 eexists; repeat split; eauto.
Qed.

(** [fail] sends one response, of status 400 or 500, and leaves the store
    of record alone. *)
Lemma fail_spec err s :
  exists w' r resp,
    fail env req err s = (mkLocal w' (event s), r)
    /\ db w' = db (world s)
    /\ responses w' = (responses (world s) ++ [resp])%list
    /\ status resp <> 201%nat
    /\ (message err = "duplicate" -> resp = already_received).
Proof.
  destruct s as [w ev].
  unfold fail, mbind, on_world, the_event, stream_writeEventError,
    attempt, send.
  cbn [world event].
  destruct (contains _ "duplicate") eqn:Hdup;
    [| destruct (contains _ "not found" || contains _ "unregistered") eqn:Hnf ];
    destruct (failed_stream_fault env); cbn [world event db responses emit];
    do 3 eexists; (split; [reflexivity|]); repeat split;
    cbn [status]; try discriminate;
    try (intros E; rewrite E in Hdup; vm_compute in Hdup; discriminate).
Qed.

End Phases.

(* ================================================================== *)
(** ** Runs of [submitVehicleEvent] *)

Lemma mbind_ret {S A B} (m : M S A) (k : A -> M S B) s s' a :
  m s = (s', Ret a) -> mbind m k s = k a s'.
Proof. intros H. unfold mbind. now rewrite H. Qed.

Lemma mbind_throw {S A B} (m : M S A) (k : A -> M S B) s s' e :
  m s = (s', Throw e) -> mbind m k s = (s', Throw e).
Proof. intros H. unfold mbind. now rewrite H. Qed.

Lemma on_world_eq {A} (m : M World A) s w' r :
  m (world s) = (w', r) -> on_world m s = (mkLocal w' (event s), r).
Proof. intros H. unfold on_world. now rewrite H. Qed.

Lemma db_readDevice_world id pid w :
  exists r, db_readDevice id pid w = (w, r).
Proof. unfold db_readDevice. destruct (find _ _); now eexists. Qed.

Lemma db_readDevice_devices id pid w w' :
  db_devices (db w') = db_devices (db w) ->
  snd (db_readDevice id pid w') = snd (db_readDevice id pid w).
Proof.
  intros H. unfold db_readDevice. rewrite H. now destruct (find _ _).
Qed.

Section EventLiteral.

Context {B : StringBuiltins}.

Lemma event_literal_but_recorded req r1 r2 k :
  k <> "recorded" ->
  lookup k (event_literal req r1) = lookup k (event_literal req r2).
Proof.
  intros Hk. unfold event_literal. cbn [lookup].
  destruct ("recorded" =? k) eqn:E; [|reflexivity].
  apply String.eqb_eq in E. congruence.
Qed.

Lemma new_event_object req recorded : exists fs, new_event req recorded = VObj fs.
Proof.
  unfold new_event. destruct (truthy _); cbn [set_prop]; now eexists.
Qed.

Lemma new_event_prop req recorded k :
  k <> "telemetry_timestamp" ->
  prop (new_event req recorded) k = prop (VObj (event_literal req recorded)) k.
Proof.
  intros Hk. unfold new_event. destruct (truthy _); [|reflexivity].
  apply prop_set_prop_other. congruence.
Qed.

Lemma new_event_device_id req recorded :
  prop (new_event req recorded) "device_id" = params_device_id req.
Proof. now rewrite new_event_prop by discriminate. Qed.

Lemma new_event_vehicle_state req recorded :
  prop (new_event req recorded) "vehicle_state" = prop (body req) "vehicle_state".
Proof. now rewrite new_event_prop by discriminate. Qed.

Lemma new_event_timestamp req recorded :
  prop (new_event req recorded) "timestamp" = prop (body req) "timestamp".
Proof. now rewrite new_event_prop by discriminate. Qed.

Lemma set_prop_object o k v :
  (exists fs, o = VObj fs) -> exists fs, set_prop o k v = VObj fs.
Proof. intros [fs ->]. simpl. now eexists. Qed.

Lemma prop_set_prop o k k' v :
  (exists fs, o = VObj fs) ->
  prop (set_prop o k v) k' = if k =? k' then v else prop o k'.
Proof.
  intros [fs ->]. destruct (k =? k') eqn:E.
  - apply String.eqb_eq in E. subst k'. apply prop_set_prop_same.
  - apply String.eqb_neq in E. now apply prop_set_prop_other.
Qed.

Lemma same_but_recorded_set_prop a b k v :
  same_but_recorded a b -> same_but_recorded (set_prop a k v) (set_prop b k v).
Proof.
  intros (Ha & Hb & Hk). repeat split; try now apply set_prop_object.
  intros k' Hk'. rewrite !prop_set_prop by assumption.
  destruct (k =? k'); [reflexivity | now apply Hk].
Qed.

Lemma same_but_recorded_refl a : (exists fs, a = VObj fs) -> same_but_recorded a a.
Proof. intros H. now repeat split. Qed.

Lemma new_event_same_but_recorded req r1 r2 :
  same_but_recorded (new_event req r1) (new_event req r2).
Proof.
  assert (Hbase : same_but_recorded (VObj (event_literal req r1))
                                    (VObj (event_literal req r2))).
  { repeat split; try now eexists.
    intros k Hk. cbn [prop]. now rewrite (event_literal_but_recorded req r1 r2). }
  unfold new_event.
  destruct Hbase as (Ha & Hb & Hk).
  rewrite (Hk "telemetry") by discriminate.
  destruct (truthy _); [apply same_but_recorded_set_prop|]; now repeat split.
Qed.

Lemma submitted_event_same_but_recorded req r1 r2 :
  same_but_recorded (submitted_event req r1) (submitted_event req r2).
Proof.
  pose proof (new_event_same_but_recorded req r1 r2) as H.
  unfold submitted_event.
  destruct H as (Ha & Hb & Hk).
  rewrite (Hk "telemetry"), (Hk "device_id") by discriminate.
  destruct (truthy _); [apply same_but_recorded_set_prop|]; now repeat split.
Qed.

Lemma submitted_event_object req recorded :
  exists fs, submitted_event req recorded = VObj fs.
Proof.
  unfold submitted_event.
  destruct (truthy _); [apply set_prop_object|]; apply new_event_object.
Qed.

Lemma submitted_event_prop req recorded k :
  k <> "telemetry" ->
  prop (submitted_event req recorded) k = prop (new_event req recorded) k.
Proof.
  intros Hk. unfold submitted_event. destruct (truthy _); [|reflexivity].
  apply prop_set_prop_other. congruence.
Qed.

End EventLiteral.

Section VerdictProperties.

Context {U : MdsUtils} {T : MdsTypes} {B : StringBuiltins}.

Lemma fst_verdict device event :
  fst (verdict device event) = fst (badEvent device event).
Proof.
  unfold verdict. now destruct (badEvent device event) as [ev [[e|]|e]].
Qed.

(** The validation changes no property of the event but [trip_id]. *)
Lemma badEvent_event_prop device event k :
  k <> "trip_id" -> prop (fst (badEvent device event)) k = prop event k.
Proof.
  intros Hk. unfold badEvent.
  repeat match goal with
         | |- context [if ?c then _ else _] =>
             lazymatch c with
             | is_str _ _ => fail
             | _ => destruct c; try reflexivity
             end
         | |- context [match prop event "event_types" with _ => _ end] =>
             destruct (prop event "event_types"); try reflexivity
         | |- context [match bad_modality ?m ?e ?l with _ => _ end] =>
             destruct (bad_modality m e l); try reflexivity
         end.
  cbn [fst]. now apply normalize_trip_id_other.
Qed.

Lemma badEvent_event_object device event :
  (exists fs, event = VObj fs) -> exists fs, fst (badEvent device event) = VObj fs.
Proof.
  intros Hobj. unfold badEvent.
  repeat match goal with
         | |- context [if ?c then _ else _] =>
             lazymatch c with
             | is_str _ _ => fail
             | _ => destruct c; try assumption
             end
         | |- context [match prop event "event_types" with _ => _ end] =>
             destruct (prop event "event_types"); try assumption
         | |- context [match bad_modality ?m ?e ?l with _ => _ end] =>
             destruct (bad_modality m e l); try assumption
         end.
  cbn [fst]. unfold normalize_trip_id.
  destruct (is_str _ _); [now apply set_prop_object | assumption].
Qed.

Lemma normalize_trip_id_same_but_recorded a b :
  same_but_recorded a b ->
  same_but_recorded (normalize_trip_id a) (normalize_trip_id b).
Proof.
  intros H. unfold normalize_trip_id.
  destruct H as (Ha & Hb & Hk). rewrite (Hk "trip_id") by discriminate.
  destruct (is_str _ _); [apply same_but_recorded_set_prop|]; now repeat split.
Qed.

Lemma badEvent_same_but_recorded device a b :
  same_but_recorded a b ->
  snd (badEvent device a) = snd (badEvent device b)
  /\ same_but_recorded (fst (badEvent device a)) (fst (badEvent device b)).
Proof.
  intros H.
  pose proof (normalize_trip_id_same_but_recorded _ _ H) as Hn.
  destruct Hn as (_ & _ & Hnk).
  pose proof H as (Ha & Hb & Hk).
  assert (Hmod : forall m ets, bad_modality m a ets = bad_modality m b ets).
  { intros m ets. unfold bad_modality, bad_trip_state.
    now rewrite (Hk "vehicle_state"), (Hk "trip_id"), (Hk "trip_state"),
      (Hk "event_types") by discriminate. }
  assert (Htrip : forall ets, bad_trip (normalize_trip_id a) ets
                              = bad_trip (normalize_trip_id b) ets).
  { intros ets. unfold bad_trip.
    now rewrite (Hnk "trip_id"), (Hnk "telemetry") by discriminate. }
  destruct Ha as [fa Ea], Hb as [fb Eb].
  unfold badEvent.
  rewrite <- (Hk "timestamp"), <- (Hk "event_types"), <- (Hk "vehicle_state")
    by discriminate.
  rewrite (object_not_nullish a fa Ea), (object_not_nullish b fb Eb).
  destruct (nullish device); cbn [orb fst snd]; [now split|].
  repeat match goal with
         | |- context [if ?c then _ else _] =>
             destruct c; cbn [fst snd]; [now split|]
         end.
  destruct (prop a "event_types"); cbn [fst snd]; try now split.
  repeat match goal with
         | |- context [if ?c then _ else _] =>
             destruct c; cbn [fst snd]; [now split|]
         end.
  rewrite <- Hmod.
  destruct (bad_modality _ a items); cbn [fst snd]; [now split|].
  split; [apply Htrip | now apply normalize_trip_id_same_but_recorded].
Qed.

(** The verdict on a submission does not depend on the time of its
    recording. *)
Lemma verdict_same_but_recorded device a b :
  same_but_recorded a b ->
  snd (verdict device a) = snd (verdict device b)
  /\ same_but_recorded (fst (verdict device a)) (fst (verdict device b)).
Proof.
  intros H.
  destruct (badEvent_same_but_recorded device a b H) as [Hr He].
  rewrite !fst_verdict. split; [|assumption].
  destruct He as (_ & _ & Hk).
  unfold verdict.
  destruct (badEvent device a) as [a' ra], (badEvent device b) as [b' rb].
  cbn [fst snd] in *. subst rb.
  destruct ra as [[e|]|e]; cbn [snd]; try reflexivity.
  now rewrite (Hk "telemetry") by discriminate.
Qed.

End VerdictProperties.

(** [writeTelemetry] returns the rows that the store of record has newly
    recorded, whatever the cache and the stream do. *)
Lemma writeTelemetry_tolerates_fan_out_failure cache_fault stream_fault telemetry w :
  exists w' rows,
    writeTelemetry cache_fault stream_fault telemetry w = (w', Ret rows)
    /\ rows = snd (record_new (db_telemetry (db w))
                              (match telemetry with
                               | VArr items => items
                               | _ => [telemetry]
                               end))
    /\ db_telemetry (db w')
       = fst (record_new (db_telemetry (db w))
                         (match telemetry with
                          | VArr items => items
                          | _ => [telemetry]
                          end)).
Proof.
  unfold writeTelemetry, mbind, try_catch, Promise_all, db_writeTelemetry,
    cache_writeTelemetry, stream_writeTelemetry, attempt, mret.
  destruct (record_new _ _) as [known fresh].
  destruct cache_fault, stream_fault; cbn; do 2 eexists; repeat split.
Qed.

Section Runs.

Context {U : MdsUtils} {T : MdsTypes} {B : StringBuiltins}.
Variable env : Env.
Variable req : Request.

(** The durable writes and what follows them. *)
Lemma record_and_fan_out_spec recorded w ev :
  let d := db w in
  let d2 := mkDb (db_devices d) (db_events d)
                 (telemetry_after (db_telemetry d) ev) in
  exists s' r,
    record_and_fan_out env req recorded (mkLocal w ev) = (s', r)
    /\ if existsb (same_key ev) (db_events d) then
         r = Throw (Error "duplicate")
         /\ db (world s') = d2 /\ responses (world s') = responses w
       else if device_known d ev then
         r = Ret tt
         /\ db (world s') = mkDb (db_devices d) (db_events d ++ [ev])
                                 (telemetry_after (db_telemetry d) ev)
         /\ responses (world s')
            = (responses w
               ++ [created (params_device_id req) (prop ev "vehicle_state")])%list
       else
         r = Throw (Error "unregistered")
         /\ db (world s') = d2 /\ responses (world s') = responses w.
Proof.
  cbn zeta. unfold record_and_fan_out, telemetry_after, device_known.
  rewrite (mbind_ret the_event _ _ (mkLocal w ev) ev eq_refl).
  cbn [event].
  set (w2 := if truthy (prop ev "telemetry")
             then fst (db_writeTelemetry [prop ev "telemetry"] w) else w).
  assert (Hw2 : db w2 = mkDb (db_devices (db w)) (db_events (db w))
                  (if truthy (prop ev "telemetry")
                   then fst (record_new (db_telemetry (db w)) [prop ev "telemetry"])
                   else db_telemetry (db w))
                /\ responses w2 = responses w).
  { unfold w2. destruct (truthy (prop ev "telemetry")).
    - unfold db_writeTelemetry.
      destruct (record_new _ _) as [known fresh]. now cbn.
    - now rewrite Db_eta. }
  destruct Hw2 as [Hdb2 Hresp2].
  rewrite (mbind_ret _ _ (mkLocal w ev) (mkLocal w2 ev) tt).
  2:{ unfold w2. destruct (truthy (prop ev "telemetry")); [|reflexivity].
      unfold mbind, on_world, mret. cbn [world event].
      now destruct (db_writeTelemetry _ w) as [w' [fresh|e]] eqn:E;
        [|unfold db_writeTelemetry in E; destruct (record_new _ _);
          discriminate]. }
  unfold mbind at 1, on_world at 1, db_writeEvent. cbn [world event].
  rewrite Hdb2. cbn [db_events db_devices].
  destruct (existsb (same_key ev) (db_events (db w))).
  - do 2 eexists. split; [reflexivity|]. cbn [world]. now rewrite Hdb2.
  - destruct (existsb _ (db_devices (db w))); cbn [negb].
    + destruct (fan_out_spec env req ev (prop ev "telemetry") recorded
                  (mkLocal (set_db w2
                     (mkDb (db_devices (db w)) (db_events (db w) ++ [ev])
                           (db_telemetry (db w2)))) ev))
        as (s' & Hrun & Hdb & Hresp).
      rewrite Hdb2 in Hrun. cbn [db_telemetry] in Hrun.
      exists s', (Ret tt). split; [exact Hrun|].
      split; [reflexivity|]. rewrite Hdb, Hresp. cbn [world event db responses set_db].
      rewrite Hdb2, Hresp2. now split.
    + do 2 eexists. split; [reflexivity|]. cbn [world]. now rewrite Hdb2.
Qed.

(** The body of the [try]: what it returns and what it has done, by the
    result of the device lookup, the verdict of the validation and the
    state of the store of record. *)
Lemma submit_spec recorded w :
  exists s r,
    submit env req recorded (mkLocal w (new_event req recorded)) = (s, r)
    /\ db_devices (db (world s)) = db_devices (db w)
    /\ match snd (db_readDevice (prop (new_event req recorded) "device_id")
                                (locals_provider_id req) w) with
       | Throw e =>
           r = Throw e /\ db (world s) = db w
           /\ responses (world s) = responses w
       | Ret device =>
           let ev := fst (verdict device (submitted_event req recorded)) in
           match snd (verdict device (submitted_event req recorded)) with
           | Throw e =>
               r = Throw e /\ db (world s) = db w
               /\ responses (world s) = responses w
           | Ret (Some failure) =>
               db (world s) = db w
               /\ ((r = Ret tt
                    /\ responses (world s)
                       = (responses w
                          ++ [mkResponse 400 (ErrorBody failure)])%list)
                   \/ ((exists e, r = Throw e)
                       /\ responses (world s) = responses w))
           | Ret None =>
               if existsb (same_key ev) (db_events (db w)) then
                 r = Throw (Error "duplicate")
                 /\ db (world s)
                    = mkDb (db_devices (db w)) (db_events (db w))
                           (telemetry_after (db_telemetry (db w)) ev)
                 /\ responses (world s) = responses w
               else if device_known (db w) ev then
                 r = Ret tt
                 /\ db (world s)
                    = mkDb (db_devices (db w)) (db_events (db w) ++ [ev])
                           (telemetry_after (db_telemetry (db w)) ev)
                 /\ responses (world s)
                    = (responses w
                       ++ [created (params_device_id req)
                                   (prop ev "vehicle_state")])%list
               else
                 r = Throw (Error "unregistered")
                 /\ db (world s)
                    = mkDb (db_devices (db w)) (db_events (db w))
                           (telemetry_after (db_telemetry (db w)) ev)
                 /\ responses (world s) = responses w
           end
       end.
Proof.
  unfold submit.
  rewrite (mbind_ret the_event _ _ _ _ eq_refl). cbn [event].
  destruct (db_readDevice_world (prop (new_event req recorded) "device_id")
                                (locals_provider_id req) w) as [rd Hrd].
  rewrite Hrd. cbn [snd].
  destruct rd as [device|e].
  2:{ rewrite (mbind_throw _ _ _ _ _
                 (on_world_eq _ (mkLocal w (new_event req recorded)) _ _ Hrd)).
      do 2 eexists. split; [reflexivity|]. now cbn. }
  rewrite (mbind_ret _ _ _ _ _
             (on_world_eq _ (mkLocal w (new_event req recorded)) _ _ Hrd)).
  cbn [event].
  destruct (reseed_spec env device (prop (new_event req recorded) "device_id")
                        (mkLocal w (new_event req recorded)))
    as (w1 & Hre & Hdb1 & Hresp1).
  cbn [world event] in Hre, Hdb1, Hresp1.
  rewrite (mbind_ret _ _ _ _ _ Hre).
  rewrite (mbind_ret _ _ (mkLocal w1 (new_event req recorded))
                     (mkLocal w1 (submitted_event req recorded)) tt).
  2:{ unfold submitted_event. now destruct (truthy _). }
  pose proof (validate_spec device (mkLocal w1 (submitted_event req recorded)))
    as Hval.
  cbn [world event] in Hval.
  destruct (verdict device (submitted_event req recorded))
    as [ev [[failure|]|e]] eqn:Hv; cbn [fst snd] in Hval |- *.
  - rewrite (mbind_ret _ _ _ _ _ Hval).
    destruct (rejected_spec env req failure (mkLocal w1 ev))
      as (w' & r & Hrej & Hdb & Hresp).
    cbn [world event] in Hrej, Hdb, Hresp.
    exists (mkLocal w' ev), r. split; [exact Hrej|]. cbn [world].
    rewrite Hdb, Hdb1. split; [reflexivity|]. split; [reflexivity|].
    now rewrite <- Hresp1.
  - rewrite (mbind_ret _ _ _ _ _ Hval).
    destruct (record_and_fan_out_spec recorded w1 ev) as (s' & r & Hrun & Hcases).
    cbn zeta in Hcases. rewrite Hdb1, Hresp1 in Hcases.
    exists s', r. split; [exact Hrun|].
    destruct (existsb (same_key ev) (db_events (db w)));
      [|destruct (device_known (db w) ev)];
      destruct Hcases as (Hr & Hdb & Hresp); rewrite Hdb;
      (split; [reflexivity|]); now repeat split.
  - rewrite (mbind_throw _ _ _ _ _ Hval).
    do 2 eexists. split; [reflexivity|]. cbn [world].
    now rewrite Hdb1, Hresp1.
Qed.

Lemma refused_after_fail w s e :
  db_devices (db (world s)) = db_devices (db w) ->
  db_events (db (world s)) = db_events (db w) ->
  responses (world s) = responses w ->
  refused w (world (fst (fail env req e s))).
Proof.
  intros Hd He Hr.
  destruct (fail_spec env req e s) as (w' & r & resp & Hf & Hdb & Hresp & Hst & _).
  rewrite Hf. cbn [fst world]. unfold refused.
  rewrite Hdb, Hresp, Hr. repeat split; try assumption. now exists resp.
Qed.

(** A run of the handler: its result and what it has done, by the result
    of the device lookup, the verdict of the validation and the state of
    the store of record. *)
Lemma run_spec w :
  nullish (body req) = false ->
  exists w' r,
    submitVehicleEvent env req w = (w', r)
    /\ match snd (db_readDevice (params_device_id req)
                                (locals_provider_id req) w) with
       | Throw _ => refused w w'
       | Ret device =>
           let ev := fst (verdict device
                                  (submitted_event req (now_recorded env))) in
           match snd (verdict device
                              (submitted_event req (now_recorded env))) with
           | Ret None =>
               if existsb (same_key ev) (db_events (db w)) then
                 db w' = mkDb (db_devices (db w)) (db_events (db w))
                              (telemetry_after (db_telemetry (db w)) ev)
                 /\ responses w' = (responses w ++ [already_received])%list
               else if device_known (db w) ev then
                 r = Ret tt
                 /\ db w' = mkDb (db_devices (db w)) (db_events (db w) ++ [ev])
                                 (telemetry_after (db_telemetry (db w)) ev)
                 /\ responses w'
                    = (responses w
                       ++ [created (params_device_id req)
                                   (prop ev "vehicle_state")])%list
               else refused w w'
           | _ => refused w w'
           end
       end.
Proof.
  intros Hbody. unfold submitVehicleEvent. rewrite Hbody.
  destruct (submit_spec (now_recorded env) w) as (s & r & Hsub & Hdev & Hcases).
  rewrite new_event_device_id in Hcases.
  unfold try_catch. rewrite Hsub.
  destruct (snd (db_readDevice _ _ w)) as [device|e0].
  - cbn zeta in Hcases |- *.
    destruct (snd (verdict device _)) as [[failure|]|e1].
    + destruct Hcases as (Hdb & [[-> Hresp] | [[e ->] Hresp]]).
      * do 2 eexists. split; [reflexivity|]. unfold refused.
        rewrite Hdb, Hresp. repeat split. eexists. split; [reflexivity|].
        cbn. discriminate.
      * destruct (fail env req e s) as [s2 r2] eqn:Hf.
        do 2 eexists. split; [reflexivity|].
        change s2 with (fst (s2, r2)). rewrite <- Hf.
        apply refused_after_fail; now rewrite ?Hdb.
    + destruct (existsb _ (db_events (db w)));
        [|destruct (device_known (db w) _)];
        destruct Hcases as (-> & Hdb & Hresp).
      * destruct (fail_spec env req (Error "duplicate") s)
          as (w' & r & resp & Hf & Hdb' & Hresp' & _ & Hdup).
        rewrite Hf. do 2 eexists. split; [reflexivity|]. cbn [world].
        rewrite Hdb', Hdb, Hresp', Hresp, (Hdup eq_refl). now split.
      * do 2 eexists. split; [reflexivity|]. now repeat split.
      * destruct (fail env req (Error "unregistered") s) as [s2 r2] eqn:Hf.
        do 2 eexists. split; [reflexivity|].
        change s2 with (fst (s2, r2)). rewrite <- Hf.
        apply refused_after_fail; now rewrite ?Hdb.
    + destruct Hcases as (-> & Hdb & Hresp).
      destruct (fail env req e1 s) as [s2 r2] eqn:Hf.
      do 2 eexists. split; [reflexivity|].
      change s2 with (fst (s2, r2)). rewrite <- Hf.
      apply refused_after_fail; now rewrite ?Hdb.
  - destruct Hcases as (-> & Hdb & Hresp).
    destruct (fail env req e0 s) as [s2 r2] eqn:Hf.
    do 2 eexists. split; [reflexivity|].
    change s2 with (fst (s2, r2)). rewrite <- Hf.
    apply refused_after_fail; now rewrite ?Hdb.
Qed.

Lemma verdict_event_prop device event k :
  k <> "trip_id" -> prop (fst (verdict device event)) k = prop event k.
Proof. intros Hk. rewrite fst_verdict. now apply badEvent_event_prop. Qed.

Lemma verdict_vehicle_state device recorded :
  prop (fst (verdict device (submitted_event req recorded))) "vehicle_state"
  = prop (body req) "vehicle_state".
Proof.
  rewrite verdict_event_prop, submitted_event_prop by discriminate.
  apply new_event_vehicle_state.
Qed.

(** C5: for every submission whose durable write of the event succeeds
    (the store of record gains the event), if the writes of the event to
    the cache and to the stream both throw, [submitVehicleEvent] still
    sends the 201 response [{ device_id, state: event.vehicle_state }]
    and completes without throwing. *)
Theorem C5_success_despite_fan_out_failure
        (w w' : World) (r : outcome unit) (ev : JsVal) (m1 m2 : string) :
  submitVehicleEvent env req w = (w', r) ->
  db_events (db w') = (db_events (db w) ++ [ev])%list ->
  cache_writeEvent_fault env = Some m1 ->
  stream_writeEvent_fault env = Some m2 ->
  r = Ret tt
  /\ responses w'
     = (responses w
        ++ [created (params_device_id req) (prop ev "vehicle_state")])%list
  /\ prop ev "vehicle_state" = prop (body req) "vehicle_state".
Proof.
  intros Hrun Hgrow _ _.
  destruct (nullish (body req)) eqn:Hbody.
  { unfold submitVehicleEvent in Hrun. rewrite Hbody in Hrun.
    injection Hrun as <- <-. symmetry in Hgrow.
    now apply app_singleton_neq in Hgrow. }
  destruct (run_spec w Hbody) as (w2 & r2 & Hrun2 & Hcases).
  rewrite Hrun in Hrun2. injection Hrun2 as <- <-.
  assert (Hrefused : refused w w' -> False).
  { intros (_ & He & _). rewrite He in Hgrow. symmetry in Hgrow.
    now apply app_singleton_neq in Hgrow. }
  destruct (snd (db_readDevice _ _ w)) as [device|e0]; [|contradiction].
  cbn zeta in Hcases.
  pose proof (verdict_vehicle_state device (now_recorded env)) as Hstate.
  destruct (snd (verdict device _)) as [[failure|]|e1]; try contradiction.
  destruct (existsb _ (db_events (db w))).
  - destruct Hcases as [Hdb _]. rewrite Hdb in Hgrow. cbn in Hgrow.
    symmetry in Hgrow. now apply app_singleton_neq in Hgrow.
  - destruct (device_known (db w) _); [|contradiction].
    destruct Hcases as (-> & Hdb & Hresp).
    rewrite Hdb in Hgrow. cbn [db_events] in Hgrow.
    apply app_inj_tail in Hgrow. destruct Hgrow as [_ <-].
    now repeat split.
Qed.

End Runs.

Section Resubmission.

Context {U : MdsUtils} {T : MdsTypes} {B : StringBuiltins}.

Lemma device_known_of_read id pid w device ev :
  snd (db_readDevice id pid w) = Ret device ->
  prop ev "device_id" = id ->
  device_known (db w) ev = true.
Proof.
  unfold db_readDevice, device_known. intros Hread ->.
  destruct (find _ (db_devices (db w))) as [d|] eqn:Hfind; [|discriminate].
  apply find_some in Hfind. destruct Hfind as [Hin Hcond].
  apply andb_true_iff in Hcond. destruct Hcond as [Hid _].
  apply existsb_exists. now exists d.
Qed.

Lemma telemetry_after_again known ev ev' :
  prop ev' "telemetry" = prop ev "telemetry" ->
  telemetry_after (telemetry_after known ev) ev' = telemetry_after known ev.
Proof.
  intros Htel. unfold telemetry_after. rewrite Htel.
  destruct (truthy (prop ev "telemetry")); [|reflexivity].
  now rewrite (record_new_known _ _ (record_new_recorded known _)).
Qed.

(** C4 (as amended): when an event for a registered device passes
    validation and no event with its [(device_id, timestamp)] is recorded
    yet, its submission yields the 201 success response; a second
    submission of the same request is answered with status 400 and an
    error object whose [error] field is ["bad_param"] (description: an
    event with this device_id and timestamp has already been received),
    and the store of record is unaffected by the second submission. *)
Theorem C4_second_submission_is_rejected
        (env1 env2 : Env) (req : Request) (w : World) (device : JsVal) :
  nullish (body req) = false ->
  snd (db_readDevice (params_device_id req) (locals_provider_id req) w)
  = Ret device ->
  snd (verdict device (submitted_event req (now_recorded env1))) = Ret None ->
  existsb (same_key (fst (verdict device
                                  (submitted_event req (now_recorded env1)))))
          (db_events (db w)) = false ->
  let first := submitVehicleEvent env1 req w in
  let second := submitVehicleEvent env2 req (fst first) in
  snd first = Ret tt
  /\ responses (fst first)
     = (responses w
        ++ [created (params_device_id req)
                    (prop (body req) "vehicle_state")])%list
  /\ responses (fst second) = (responses (fst first) ++ [already_received])%list
  /\ db (fst second) = db (fst first).
Proof.
  intros Hbody Hread Hverdict Hfresh. cbn zeta.
  set (ev := fst (verdict device (submitted_event req (now_recorded env1)))) in *.
  assert (Hid : prop ev "device_id" = params_device_id req).
  { unfold ev. rewrite verdict_event_prop, submitted_event_prop by discriminate.
    apply new_event_device_id. }
  (* the first submission *)
  destruct (run_spec env1 req w Hbody) as (w1 & r1 & Hrun1 & Hcases1).
  rewrite Hrun1. cbn [fst snd].
  rewrite Hread in Hcases1. cbn zeta in Hcases1.
  rewrite Hverdict in Hcases1. fold ev in Hcases1.
  rewrite Hfresh, (device_known_of_read _ _ _ _ ev Hread Hid) in Hcases1.
  destruct Hcases1 as (-> & Hdb1 & Hresp1).
  assert (Hstate : prop ev "vehicle_state" = prop (body req) "vehicle_state")
    by (unfold ev; apply verdict_vehicle_state).
  rewrite Hstate in Hresp1.
  split; [reflexivity|]. split; [assumption|].
  (* the second submission *)
  destruct (run_spec env2 req w1 Hbody) as (w2 & r2 & Hrun2 & Hcases2).
  rewrite Hrun2. cbn [fst snd].
  assert (Hread2 : snd (db_readDevice (params_device_id req)
                                      (locals_provider_id req) w1) = Ret device).
  { rewrite <- Hread. apply db_readDevice_devices. now rewrite Hdb1. }
  rewrite Hread2 in Hcases2. cbn zeta in Hcases2.
  destruct (verdict_same_but_recorded device _ _
              (submitted_event_same_but_recorded req (now_recorded env2)
                                                 (now_recorded env1)))
    as [Hsame (_ & _ & Hprops)].
  rewrite Hsame, Hverdict in Hcases2. fold ev in Hprops.
  set (ev' := fst (verdict device (submitted_event req (now_recorded env2)))) in *.
  assert (Hdup : existsb (same_key ev') (db_events (db w1)) = true).
  { rewrite Hdb1. cbn [db_events]. rewrite existsb_app. cbn [existsb].
    rewrite (same_key_agree ev' ev) by (apply Hprops; discriminate).
    now rewrite orb_true_r. }
  rewrite Hdup in Hcases2. destruct Hcases2 as [Hdb2 Hresp2].
  split; [assumption|].
  rewrite Hdb2, Hdb1. cbn [db_devices db_events db_telemetry].
  now rewrite telemetry_after_again by (apply Hprops; discriminate).
Qed.

End Resubmission.

(* ================================================================== *)
(** ** The validators on examples *)

Import Sample.

(** The heading of the telemetry is not looked at: telemetry whose heading
    is the string ["north"] passes. *)
Lemma C1_counterexample_heading :
  ~ (badTelemetry (U := utils) telemetry_heading_north = Ret None
     <-> telemetry_well_formed_with_heading (U := utils) telemetry_heading_north).
Proof.
  intros [Hfwd _]. destruct (Hfwd eq_refl) as [_ [H | [H | H]]]; discriminate H.
Qed.

Lemma C1_witness :
  prop telemetry_heading_north "gps" <> VNull
  /\ badTelemetry (U := utils) telemetry_heading_north
     = Ret (first_failure (telemetry_checks (U := utils) telemetry_heading_north)).
Proof.
  split; [discriminate|].
  apply (C1_badTelemetry_accepts_iff_well_formed (U := utils) telemetry_heading_north).
  discriminate.
Defined.

(** C7: on telemetry with [gps: null] the guard [typeof gps !== 'object']
    lets [null] through and the destructuring of [gps] throws a
    [TypeError]: [badTelemetry] does not return [missing_param]; through
    [submitVehicleEvent] the request is answered with status 500. *)
Theorem C7_gps_null_throws :
  badTelemetry (U := utils) telemetry_gps_null = Throw null_read
  /\ responses (fst (submitVehicleEvent (U := utils) (T := types) (B := ascii_strings)
                       calm gps_null_request world0))
     = [mkResponse 500 (ErrorBody agencyServerError)].
Proof. split; vm_compute; reflexivity. Qed.

(** A [trip_start] whose type and state are in the micromobility
    vocabularies is rejected when it carries no telemetry. *)
Lemma C2_counterexample_missing_telemetry :
  ~ (snd (badEvent (U := utils) (T := types)
                   (device "micromobility") trip_start_without_telemetry) = Ret None
     <-> Forall (in_vocabulary (MICRO_MOBILITY_VEHICLE_EVENTS (MdsTypes := types)))
                [VStr "trip_start"]
         /\ in_vocabulary (MICRO_MOBILITY_VEHICLE_STATES (MdsTypes := types))
                          (prop trip_start_without_telemetry "vehicle_state")).
Proof.
  intros [_ Hback].
  assert (H : snd (badEvent (U := utils) (T := types)
                            (device "micromobility") trip_start_without_telemetry)
              = Ret None).
  { apply Hback. split.
    - constructor; [|constructor]. exists "trip_start". split; [reflexivity|].
      simpl. tauto.
    - exists "on_trip". split; [reflexivity|]. simpl. tauto. }
  vm_compute in H. discriminate H.
Qed.

Lemma sample_states_nonempty :
  ~ In "" (MICRO_MOBILITY_VEHICLE_STATES (MdsTypes := types)).
Proof. simpl. intros H. repeat destruct H as [H | H]; try discriminate H; exact H. Qed.

Lemma sample_envelope_ok event ets :
  prop event "timestamp" = t0 ->
  prop event "event_types" = VArr ets ->
  ets <> [] ->
  envelope_ok (U := utils) event ets.
Proof.
  intros Hts Hets Hne. unfold envelope_ok. rewrite Hts.
  repeat split; try assumption; discriminate.
Qed.

Lemma C2_witness :
  snd (badEvent (U := utils) (T := types) (device "micromobility") trip_start_event)
  = Ret None
  <-> Forall (in_vocabulary (MICRO_MOBILITY_VEHICLE_EVENTS (MdsTypes := types)))
             [VStr "trip_start"]
      /\ in_vocabulary (MICRO_MOBILITY_VEHICLE_STATES (MdsTypes := types))
                       (prop trip_start_event "vehicle_state")
      /\ trip_rules_ok (U := utils) trip_start_event [VStr "trip_start"].
Proof.
  apply (C2_micromobility_accepts_iff (U := utils) (T := types)
           (device "micromobility") trip_start_event [VStr "trip_start"]).
  - reflexivity.
  - apply sample_envelope_ok; [reflexivity | reflexivity | discriminate].
  - exact sample_states_nonempty.
Defined.

(** A taxi event whose state is a trip state and whose types are disjoint
    from the trip-exit events, without [trip_id]: no [trip_state] is asked
    for, and the event is accepted. *)
Lemma C3_counterexample_no_trip_id :
  prop (device "taxi") "modality" = VStr "taxi"
  /\ in_vocabulary (TRIP_STATES (MdsTypes := types))
                   (prop trip_stop_event "vehicle_state")
  /\ areThereCommonElements (TAXI_TRIP_EXIT_EVENTS (MdsTypes := types))
                            [VStr "trip_stop"] = false
  /\ ~ in_vocabulary (TRIP_STATES (MdsTypes := types))
                     (prop trip_stop_event "trip_state")
  /\ snd (badEvent (U := utils) (T := types) (device "taxi") trip_stop_event)
     = Ret None.
Proof.
  repeat split.
  - exists "stopped". split; [reflexivity|]. simpl. tauto.
  - intros (s & E & _). discriminate E.
Qed.

Lemma C3_witness :
  (exists e, snd (badEvent (U := utils) (T := types) (device "taxi") trip_stop_of_trip)
             = Ret (Some e))
  /\ badEvent (U := utils) (T := types) (device "taxi") trip_stop_of_trip
     = (trip_stop_of_trip, Ret (Some missing_trip_state)).
Proof.
  destruct (C3_trip_state_required (U := utils) (T := types)
              "taxi" (device "taxi") trip_stop_of_trip [VStr "trip_stop"])
    as [Hrejected Herror].
  - left; reflexivity.
  - reflexivity.
  - reflexivity.
  - reflexivity.
  - exists "stopped". split; [reflexivity|]. simpl. tauto.
  - reflexivity.
  - split.
    + apply Hrejected. intros (s & E & _). discriminate E.
    + apply Herror.
      * apply sample_envelope_ok; [reflexivity | reflexivity | discriminate].
      * reflexivity.
      * reflexivity.
      * reflexivity.
Defined.


Lemma C8_witness :
  prop (fst (badEvent (U := utils) (T := types)
                      (device "micromobility") battery_low_empty_trip_id))
       "trip_id" = VNull
  /\ snd (badEvent (U := utils) (T := types)
                   (device "micromobility") battery_low_empty_trip_id)
     <> Ret (Some (invalid_trip_id (VStr ""))).
Proof.
  destruct (C8_trip_id_checks (U := utils) (T := types)
              (device "micromobility") battery_low_empty_trip_id
              [VStr "battery_low"])
    as (Hempty & _).
  - repeat split; try reflexivity; discriminate.
  - destruct (Hempty eq_refl) as [Hnull Hnever]. split; [exact Hnull|].
    apply Hnever.
Defined.

Lemma C9_witness :
  prop (computeCompositeVehicleData payload) "state" = VStr "on_trip"
  /\ prop (computeCompositeVehicleData payload) "gps" = gps_ok.
Proof.
  destruct (C9_computeCompositeVehicleData payload) as (Hevent & _ & Hgps & _).
  split.
  - destruct (Hevent eq_refl) as (Hstate & _). exact Hstate.
  - exact (Hgps eq_refl eq_refl).
Defined.

(** The second submission of an event is answered with the error
    ["bad_param"], not ["duplicate"]. *)
Lemma C4_counterexample_bad_param :
  let first := submitVehicleEvent (U := utils) (T := types) (B := ascii_strings)
                                  calm trip_start_request world0 in
  let second := submitVehicleEvent (U := utils) (T := types) (B := ascii_strings)
                                   calm trip_start_request (fst first) in
  responses (fst first) = [created D1 (VStr "on_trip")]
  /\ exists e, responses (fst second)
               = [created D1 (VStr "on_trip"); mkResponse 400 (ErrorBody e)]
               /\ error e = "bad_param" /\ error e <> "duplicate".
Proof.
  cbn zeta. split; [vm_compute; reflexivity|].
  eexists. split; [vm_compute; reflexivity|]. split; [reflexivity | discriminate].
Qed.

Lemma C4_witness :
  let first := submitVehicleEvent (U := utils) (T := types) (B := ascii_strings)
                                  calm trip_start_request world0 in
  let second := submitVehicleEvent (U := utils) (T := types) (B := ascii_strings)
                                   stormy trip_start_request (fst first) in
  snd first = Ret tt
  /\ responses (fst first)
     = (responses world0 ++ [created D1 (VStr "on_trip")])%list
  /\ responses (fst second) = (responses (fst first) ++ [already_received])%list
  /\ db (fst second) = db (fst first).
Proof.
  apply (C4_second_submission_is_rejected (U := utils) (T := types) (B := ascii_strings)
           calm stormy trip_start_request world0 (device "micromobility")).
  - reflexivity.
  - reflexivity.
  - vm_compute; reflexivity.
  - vm_compute; reflexivity.
Defined.

Lemma C5_witness :
  let result := submitVehicleEvent (U := utils) (T := types) (B := ascii_strings)
                                   stormy trip_start_request world0 in
  snd result = Ret tt
  /\ responses (fst result) = [created D1 (VStr "on_trip")].
Proof.
  cbn zeta.
  destruct (C5_success_despite_fan_out_failure (U := utils) (T := types) (B := ascii_strings)
              stormy trip_start_request world0
              (fst (submitVehicleEvent (U := utils) (T := types) (B := ascii_strings)
                      stormy trip_start_request world0))
              (snd (submitVehicleEvent (U := utils) (T := types) (B := ascii_strings)
                      stormy trip_start_request world0))
              (nth 0 (db_events (db (fst (submitVehicleEvent (U := utils) (T := types) (B := ascii_strings)
                                            stormy trip_start_request world0))))
                   VUndefined)
              "cache down" "stream down")
    as (Hdone & Hsent & _).
  - apply surjective_pairing.
  - vm_compute; reflexivity.
  - reflexivity.
  - reflexivity.
  - split; [exact Hdone|]. rewrite Hsent. vm_compute; reflexivity.
Defined.

(** The event type [TRIP_START] is accepted like [trip_start]; the vehicle
    state [ON_TRIP] is not accepted like [on_trip]. *)
Example upper_case_event_type_accepted :
  responses (fst (submitVehicleEvent (U := utils) (T := types) (B := ascii_strings)
                    calm upper_case_event_type world0))
  = [created D1 (VStr "on_trip")].
Proof. vm_compute; reflexivity. Qed.

Example upper_case_state_rejected :
  responses (fst (submitVehicleEvent (U := utils) (T := types) (B := ascii_strings)
                    calm upper_case_state world0))
  = [mkResponse 400 (ErrorBody (bad_param [Text "invalid vehicle_state ";
                                            Subst (VStr "ON_TRIP")]))].
Proof. vm_compute; reflexivity. Qed.

(* ================================================================== *)
(** ** More on the event validator *)

Section MoreEventProperties.

Context {U : MdsUtils} {T : MdsTypes}.

Lemma badTelemetry_error_kinds t e :
  badTelemetry t = Ret (Some e) -> validation_kind e.
Proof.
  unfold badTelemetry, validation_kind.
  repeat match goal with
         | |- context [if ?c then _ else _] => destruct c
         end;
    intros E; try discriminate E; injection E as <-; cbn; auto.
Qed.

Lemma bad_vocabulary_error_kinds events states ets state e :
  bad_vocabulary events states ets state = Some e -> validation_kind e.
Proof.
  unfold bad_vocabulary, validation_kind.
  destruct (find _ ets); [|destruct (negb _)];
    intros E; try discriminate E; injection E as <-; cbn; auto.
Qed.

Lemma bad_trip_state_error_kinds exit_events event ets e :
  bad_trip_state exit_events event ets = Some e -> validation_kind e.
Proof.
  unfold bad_trip_state, validation_kind.
  repeat match goal with
         | |- context [if ?c then _ else _] => destruct c
         end;
    intros E; try discriminate E; injection E as <-; cbn; auto.
Qed.

Lemma bad_modality_error_kinds modality event ets e :
  bad_modality modality event ets = Some e -> validation_kind e.
Proof.
  unfold bad_modality.
  destruct (is_str modality "micromobility");
    [apply bad_vocabulary_error_kinds|].
  destruct (is_str modality "taxi").
  { destruct (bad_vocabulary _ _ ets _) eqn:Hv.
    - intros E. injection E as <-. now apply bad_vocabulary_error_kinds in Hv.
    - apply bad_trip_state_error_kinds. }
  destruct (is_str modality "tnc").
  { destruct (bad_vocabulary _ _ ets _) eqn:Hv.
    - intros E. injection E as <-. now apply bad_vocabulary_error_kinds in Hv.
    - apply bad_trip_state_error_kinds. }
  intros E. injection E as <-. right. reflexivity.
Qed.

Lemma bad_trip_error_kinds event ets e :
  bad_trip event ets = Ret (Some e) -> validation_kind e.
Proof.
  unfold bad_trip.
  destruct (negb (is_null _) && _ && _).
  { intros E. injection E as <-. right. reflexivity. }
  destruct (areThereCommonElements trip_boundary_events ets).
  - destruct (badTelemetry (prop event "telemetry")) as [[e'|]|] eqn:Ht;
      cbn [bind]; intros E; try discriminate E.
    + injection E as <-. now apply badTelemetry_error_kinds in Ht.
    + destruct (negb (truthy _)); [|discriminate E].
      injection E as <-. left. reflexivity.
  - destruct (includes_str ets "provider_drop_off"); [|discriminate].
    apply badTelemetry_error_kinds.
Qed.

(** X1: whatever the device and the event, an error that [badEvent]
    returns is a [missing_param] or a [bad_param]. *)
Theorem badEvent_error_kinds (device event : JsVal) (e : ErrorObject) :
  snd (badEvent device event) = Ret (Some e) ->
  error e = "missing_param" \/ error e = "bad_param".
Proof.
  unfold badEvent.
  destruct (nullish device || nullish event); [discriminate|].
  destruct (is_undefined _).
  { intros E. injection E as <-. left. reflexivity. }
  destruct (negb (isTimestamp _)).
  { intros E. injection E as <-. right. reflexivity. }
  destruct (negb (truthy (prop event "event_types"))).
  { intros E. injection E as <-. left. reflexivity. }
  destruct (prop event "event_types") eqn:Hets;
    try (intros E; injection E as <-; right; reflexivity).
  destruct (_ =? 0)%nat.
  { intros E. injection E as <-. right. reflexivity. }
  destruct (negb (truthy _)).
  { intros E. injection E as <-. left. reflexivity. }
  destruct (bad_modality _ event items) eqn:Hm; cbn [snd].
  - intros E. injection E as <-. now apply bad_modality_error_kinds in Hm.
  - apply bad_trip_error_kinds.
Qed.

(** An accepted event has passed every check. *)
Lemma badEvent_accept_inv device event :
  snd (badEvent device event) = Ret None ->
  exists ets, reaches_trip_checks device event ets
              /\ bad_trip (normalize_trip_id event) ets = Ret None.
Proof.
  unfold badEvent, reaches_trip_checks, envelope_ok.
  destruct (nullish device) eqn:Hdev; [discriminate|].
  destruct (nullish event); cbn [orb]; [discriminate|].
  destruct (is_undefined (prop event "timestamp")) eqn:Hts; [discriminate|].
  destruct (isTimestamp (prop event "timestamp")) eqn:Hvalid;
    cbn [negb]; [|discriminate].
  destruct (truthy (prop event "event_types")); cbn [negb]; [|discriminate].
  destruct (prop event "event_types") as [| | | | |items|] eqn:Hets;
    try discriminate.
  destruct items as [|x items]; [discriminate|]. cbn [List.length Nat.eqb].
  destruct (truthy (prop event "vehicle_state")) eqn:Hstate;
    cbn [negb]; [|discriminate].
  destruct (bad_modality _ event (x :: items)) eqn:Hm; [discriminate|].
  cbn [snd]. intros Htrip. exists (x :: items).
  repeat split; try assumption; try discriminate.
  intros E. rewrite E in Hts. discriminate.
Qed.

Lemma bad_modality_none_inv modality event ets :
  bad_modality modality event ets = None ->
  exists events states,
    vocabulary_of modality = Some (events, states)
    /\ bad_vocabulary events states ets (prop event "vehicle_state") = None.
Proof.
  unfold bad_modality, vocabulary_of.
  destruct (is_str modality "micromobility"); [intros E; eauto|].
  destruct (is_str modality "taxi").
  { destruct (bad_vocabulary _ _ ets _) eqn:Hv; [discriminate|]. eauto. }
  destruct (is_str modality "tnc").
  { destruct (bad_vocabulary _ _ ets _) eqn:Hv; [discriminate|]. eauto. }
  discriminate.
Qed.

(** X2: an event that [badEvent] accepts is for a device of one of the
    three modalities, has a defined and valid timestamp and a non-empty
    [event_types] array all of whose elements are event types of that
    modality, has a state of that modality, and obeys the trip rules. *)
Theorem badEvent_accepts_only_legal_events (device event : JsVal) :
  snd (badEvent device event) = Ret None ->
  exists ets events states,
    vocabulary_of (prop device "modality") = Some (events, states)
    /\ envelope_ok event ets
    /\ Forall (in_vocabulary events) ets
    /\ in_vocabulary states (prop event "vehicle_state")
    /\ trip_rules_ok event ets.
Proof.
  intros Hacc.
  destruct (badEvent_accept_inv _ _ Hacc) as (ets & (_ & Henv & _ & Hmod) & Htrip).
  destruct (bad_modality_none_inv _ _ _ Hmod) as (events & states & Hvoc & Hbad).
  apply bad_vocabulary_none_iff in Hbad. destruct Hbad as [Hall Hst].
  apply bad_trip_none_iff in Htrip.
  exists ets, events, states.
  repeat (split; [assumption|]). assumption.
Qed.

(** X3: [badEvent] changes nothing of the event it is given but its
    [trip_id], and that only from the empty string to [null]. *)
Theorem badEvent_only_normalizes_trip_id (device event : JsVal) :
  fst (badEvent device event) = event
  \/ (prop event "trip_id" = VStr ""
      /\ fst (badEvent device event) = set_prop event "trip_id" VNull).
Proof.
  unfold badEvent.
  repeat match goal with
         | |- context [if ?c then _ else _] =>
             lazymatch c with
             | is_str _ _ => fail
             | _ => destruct c; try (left; reflexivity)
             end
         | |- context [match prop event "event_types" with _ => _ end] =>
             destruct (prop event "event_types"); try (left; reflexivity)
         | |- context [match bad_modality ?m ?e ?l with _ => _ end] =>
             destruct (bad_modality m e l); try (left; reflexivity)
         end.
  cbn [fst]. unfold normalize_trip_id.
  destruct (is_str (prop event "trip_id") "") eqn:E; [|left; reflexivity].
  right. apply is_str_true in E. now split.
Qed.

(** X4: for an event that passes the earlier checks and whose types
    include [provider_drop_off] and no trip-boundary event, the result is
    the one of the telemetry validator on its telemetry; no [trip_id] is
    asked for. *)
Theorem provider_drop_off_needs_telemetry_only
        (device event : JsVal) (ets : list JsVal) :
  reaches_trip_checks device event ets ->
  trip_id_absent (prop event "trip_id") \/ isUUID (prop event "trip_id") = true ->
  areThereCommonElements trip_boundary_events ets = false ->
  includes_str ets "provider_drop_off" = true ->
  snd (badEvent device event) = badTelemetry (prop event "telemetry").
Proof.
  intros Hreach Hid Hboundary Hdrop.
  rewrite (badEvent_reaching_trip_checks _ _ _ Hreach). cbn [snd].
  rewrite bad_trip_normalized.
  apply absent_or_uuid_normalized in Hid. cbn zeta in Hid.
  now rewrite Hid, Hboundary, Hdrop.
Qed.

End MoreEventProperties.

(* ================================================================== *)
(** ** More on the runs of [submitVehicleEvent] *)

Section MoreRuns.

Context {U : MdsUtils} {T : MdsTypes} {B : StringBuiltins}.
Variable env : Env.
Variable req : Request.

Lemma fail_answer_spec err s :
  exists w' r,
    fail env req err s = (mkLocal w' (event s), r)
    /\ db w' = db (world s)
    /\ cache w' = cache (world s)
    /\ responses w' = (responses (world s) ++ [fail_answer err])%list.
Proof.
  destruct s as [w ev].
  unfold fail, fail_answer, mbind, on_world, the_event, stream_writeEventError,
    attempt, send, already_received, unregistered_response.
  cbn [world event].
  destruct (contains _ "duplicate");
    [| destruct (contains _ "not found" || contains _ "unregistered") ];
    destruct (failed_stream_fault env);
    cbn [world event db cache responses emit];
    do 2 eexists; repeat split.
Qed.

Lemma reseed_frame device id s :
  exists w',
    reseed env device id s = (mkLocal w' (event s), Ret tt)
    /\ db w' = db (world s)
    /\ responses w' = responses (world s)
    /\ cache_events (cache w') = cache_events (cache (world s))
    /\ (exists more, stream w' = (stream (world s) ++ more)%list).
Proof.
  destruct s as [w ev].
  unfold reseed, try_catch, mbind, on_world, cache_readDevice, Promise_all,
    cache_writeDevice, stream_writeDevice, attempt, mret.
  cbn [world event].
  destruct (cache_readDevice_fault env), (reseed_cache_fault env),
    (reseed_stream_fault env);
    try destruct (find _ (cache_devices (cache w)));
    cbn [world event db cache responses stream cache_events set_cache emit];
    eexists; repeat split;
    first [ now exists [] ; rewrite app_nil_r
          | exists []; now rewrite app_nil_r
          | eexists; reflexivity ].
Qed.

(** The body of the [try], once the device is read: the cache warm-up,
    then what the verdict of the validation decides. *)
Lemma submit_steps recorded w device :
  snd (db_readDevice (params_device_id req) (locals_provider_id req) w)
  = Ret device ->
  exists w1,
    db w1 = db w /\ responses w1 = responses w
    /\ cache_events (cache w1) = cache_events (cache w)
    /\ (exists more, stream w1 = (stream w ++ more)%list)
    /\ submit env req recorded (mkLocal w (new_event req recorded))
       = match verdict device (submitted_event req recorded) with
         | (ev, Ret (Some failure)) => rejected env req failure (mkLocal w1 ev)
         | (ev, Ret None) => record_and_fan_out env req recorded (mkLocal w1 ev)
         | (ev, Throw e) => (mkLocal w1 ev, Throw e)
         end.
Proof.
  intros Hread. unfold submit.
  rewrite (mbind_ret the_event _ _ _ _ eq_refl). cbn [event].
  rewrite new_event_device_id.
  destruct (db_readDevice_world (params_device_id req)
                                (locals_provider_id req) w) as [rd Hrd].
  rewrite Hrd in Hread. cbn [snd] in Hread. subst rd.
  rewrite (mbind_ret _ _ _ _ _
             (on_world_eq _ (mkLocal w (new_event req recorded)) _ _ Hrd)).
  cbn [event].
  destruct (reseed_frame device (params_device_id req)
                         (mkLocal w (new_event req recorded)))
    as (w1 & Hre & Hdb1 & Hresp1 & Hcache1 & Hstream1).
  cbn [world event] in Hre, Hdb1, Hresp1, Hcache1, Hstream1.
  exists w1. repeat (split; [assumption|]).
  rewrite (mbind_ret _ _ _ _ _ Hre).
  rewrite (mbind_ret _ _ (mkLocal w1 (new_event req recorded))
                     (mkLocal w1 (submitted_event req recorded)) tt).
  2:{ unfold submitted_event. rewrite new_event_device_id.
      now destruct (truthy _). }
  pose proof (validate_spec device (mkLocal w1 (submitted_event req recorded)))
    as Hval.
  cbn [world event] in Hval.
  destruct (verdict device (submitted_event req recorded))
    as [ev [[failure|]|e]] eqn:Hv; cbn [fst snd] in Hval.
  - now rewrite (mbind_ret _ _ _ _ _ Hval).
  - now rewrite (mbind_ret _ _ _ _ _ Hval).
  - now rewrite (mbind_throw _ _ _ _ _ Hval).
Qed.

Lemma run_of_submit w s r :
  nullish (body req) = false ->
  submit env req (now_recorded env) (mkLocal w (new_event req (now_recorded env)))
  = (s, r) ->
  submitVehicleEvent env req w
  = match r with
    | Ret a => (world s, Ret a)
    | Throw e => (world (fst (fail env req e s)), snd (fail env req e s))
    end.
Proof.
  intros Hbody Hsub. unfold submitVehicleEvent, try_catch.
  rewrite Hbody, Hsub. destruct r as [a|e]; [reflexivity|].
  now destruct (fail env req e s).
Qed.

(** X5: a run of [submitVehicleEvent] on a request with a body sends
    exactly one response, and this response has status 201 if and only if
    the run has added an event to the store of record. *)
Theorem submitVehicleEvent_answers_once (w : World) :
  nullish (body req) = false ->
  exists resp,
    responses (fst (submitVehicleEvent env req w)) = (responses w ++ [resp])%list
    /\ (status resp = 201%nat
        <-> exists ev, db_events (db (fst (submitVehicleEvent env req w)))
                       = (db_events (db w) ++ [ev])%list).
Proof.
  intros Hbody.
  destruct (run_spec env req w Hbody) as (w' & r & Hrun & Hcases).
  rewrite Hrun. cbn [fst].
  assert (Hrefused : refused w w' ->
    exists resp, responses w' = (responses w ++ [resp])%list
      /\ (status resp = 201%nat
          <-> exists ev, db_events (db w') = (db_events (db w) ++ [ev])%list)).
  { intros (_ & He & resp & Hresp & Hst). exists resp. split; [assumption|].
    split; [contradiction|]. intros [ev Hev]. rewrite He in Hev.
    symmetry in Hev. now apply app_singleton_neq in Hev. }
  destruct (snd (db_readDevice _ _ w)) as [device|e0]; [|auto].
  cbn zeta in Hcases.
  destruct (snd (verdict device _)) as [[failure|]|e1]; auto.
  destruct (existsb _ (db_events (db w))).
  - destruct Hcases as [Hdb Hresp]. exists already_received.
    split; [assumption|]. split; [discriminate|].
    intros [ev Hev]. rewrite Hdb in Hev. cbn in Hev.
    symmetry in Hev. now apply app_singleton_neq in Hev.
  - destruct (device_known (db w) _); auto.
    destruct Hcases as (_ & Hdb & Hresp). eexists. split; [exact Hresp|].
    split; [intros _|reflexivity]. rewrite Hdb. cbn. now eexists.
Qed.

(** X6: an event for a device that the store of record does not know is
    answered with status 400 and the error [unregistered], and nothing is
    written to the store of record. *)
Theorem submitVehicleEvent_unregistered (w : World) :
  nullish (body req) = false ->
  (forall d, In d (db_devices (db w)) ->
             same_value (prop d "device_id") (params_device_id req) = false) ->
  responses (fst (submitVehicleEvent env req w))
  = (responses w ++ [unregistered_response])%list
  /\ db (fst (submitVehicleEvent env req w)) = db w.
Proof.
  intros Hbody Hunknown.
  assert (Hread : snd (db_readDevice (params_device_id req)
                                     (locals_provider_id req) w)
                  = Throw (Error "device not found")).
  { unfold db_readDevice.
    destruct (find _ (db_devices (db w))) as [d|] eqn:Hfind; [|reflexivity].
    apply find_some in Hfind. destruct Hfind as [Hin Hcond].
    rewrite (Hunknown d Hin) in Hcond. discriminate. }
  destruct (submit_spec env req (now_recorded env) w) as (s & r & Hsub & _ & Hcases).
  rewrite new_event_device_id, Hread in Hcases.
  destruct Hcases as (-> & Hdb & Hresp).
  rewrite (run_of_submit w s _ Hbody Hsub).
  destruct (fail_answer_spec (Error "device not found") s)
    as (w' & r & Hf & Hdb' & _ & Hresp').
  rewrite Hf. cbn [fst world]. rewrite Hdb', Hresp', Hdb, Hresp. now split.
Qed.

(** X7: for a registered device and a body whose telemetry is neither
    an array nor a string (so that the event of the model is the event of
    the code), when the validation of the event or of its telemetry
    returns a failure, the store of record is left as it was.  If the
    write of the rejected event to the error stream succeeds, the handler
    returns, the failure is sent with status 400, and the stream ends with
    the rejected event and the description of the failure.  If that write
    throws, the failure is not sent: the one response is the answer of
    [fail] to the error thrown. *)
Theorem submitVehicleEvent_validation_failure
        (w : World) (device : JsVal) (failure : ErrorObject) :
  nullish (body req) = false ->
  indexed (prop (body req) "telemetry") = false ->
  snd (db_readDevice (params_device_id req) (locals_provider_id req) w)
  = Ret device ->
  snd (verdict device (submitted_event req (now_recorded env)))
  = Ret (Some failure) ->
  let w' := fst (submitVehicleEvent env req w) in
  let ev := fst (verdict device (submitted_event req (now_recorded env))) in
  db w' = db w
  /\ (rejected_stream_fault env = None ->
      snd (submitVehicleEvent env req w) = Ret tt
      /\ responses w' = (responses w ++ [mkResponse 400 (ErrorBody failure)])%list
      /\ exists earlier,
          stream w'
          = (earlier ++ [EventErrorRecord (locals_provider_id req) ev (now_error env)
                                          (error_description failure)])%list)
  /\ (forall msg,
         rejected_stream_fault env = Some msg ->
         responses w' = (responses w ++ [fail_answer (Error msg)])%list).
Proof.
  intros Hbody _ Hread Hverdict. cbn zeta.
  destruct (submit_steps (now_recorded env) w device Hread)
    as (w1 & Hdb1 & Hresp1 & _ & [more Hmore] & Hsub).
  destruct (verdict device (submitted_event req (now_recorded env)))
    as [ev r] eqn:Hv.
  cbn [fst snd] in Hverdict |- *. subst r.
  destruct (rejected_stream_fault env) as [msg|] eqn:Hstream.
  - assert (Hrej : rejected env req failure (mkLocal w1 ev)
                   = (mkLocal w1 ev, Throw (Error msg))).
    { unfold rejected, mbind, on_world, the_event, stream_writeEventError,
        attempt. cbn [world event]. rewrite Hstream. reflexivity. }
    rewrite Hrej in Hsub.
    rewrite (run_of_submit w _ _ Hbody Hsub).
    destruct (fail_answer_spec (Error msg) (mkLocal w1 ev))
      as (w2 & r2 & Hfail & Hdb2 & _ & Hresp2).
    rewrite Hfail. cbn [fst snd world event] in *.
    rewrite Hdb2, Hdb1, Hresp2, Hresp1.
    split; [reflexivity|]. split; [discriminate|].
    intros msg' E. now injection E as <-.
  - assert (Hrej : rejected env req failure (mkLocal w1 ev)
                   = (mkLocal (mkWorld (db w1) (cache w1)
                        (stream w1 ++ [EventErrorRecord (locals_provider_id req) ev
                                         (now_error env) (error_description failure)])
                        (responses w1 ++ [mkResponse 400 (ErrorBody failure)])) ev,
                      Ret tt)).
    { unfold rejected, mbind, on_world, the_event, stream_writeEventError,
        attempt, send, emit. cbn [world event]. rewrite Hstream.
      reflexivity. }
    rewrite Hrej in Hsub.
    rewrite (run_of_submit w _ _ Hbody Hsub). cbn [fst snd world db responses stream].
    rewrite Hdb1, Hresp1, Hmore.
    split; [reflexivity|]. split; [|discriminate].
    intros _. repeat split. eexists. reflexivity.
Qed.

(** X8: the telemetry of an event is written before the event, so that a
    submission that is refused because its [(device_id, timestamp)] is
    already recorded still records its telemetry when that is new: the
    events of the store are as before, its telemetry has one more row. *)
Theorem duplicate_event_still_records_telemetry
        (w : World) (device ev : JsVal) :
  nullish (body req) = false ->
  snd (db_readDevice (params_device_id req) (locals_provider_id req) w)
  = Ret device ->
  verdict device (submitted_event req (now_recorded env)) = (ev, Ret None) ->
  existsb (same_key ev) (db_events (db w)) = true ->
  truthy (prop ev "telemetry") = true ->
  existsb (same_key (prop ev "telemetry")) (db_telemetry (db w)) = false ->
  let w' := fst (submitVehicleEvent env req w) in
  responses w' = (responses w ++ [already_received])%list
  /\ db_events (db w') = db_events (db w)
  /\ db_telemetry (db w') = (db_telemetry (db w) ++ [prop ev "telemetry"])%list.
Proof.
  intros Hbody Hread Hverdict Hdup Htel Hnew. cbn zeta.
  destruct (run_spec env req w Hbody) as (w' & r & Hrun & Hcases).
  rewrite Hrun. cbn [fst].
  rewrite Hread in Hcases. cbn zeta in Hcases. rewrite Hverdict in Hcases.
  cbn [fst snd] in Hcases. rewrite Hdup in Hcases.
  destruct Hcases as [Hdb Hresp]. rewrite Hdb. cbn [db_events db_telemetry].
  unfold telemetry_after. rewrite Htel. cbn [record_new]. rewrite Hnew.
  now repeat split.
Qed.

End MoreRuns.

(* ================================================================== *)
(** ** Lower-casing of the event types *)

Section Lowercasing.

Context {U : MdsUtils} {T : MdsTypes} {B : StringBuiltins}.

Lemma verdict_accepts_inv device event :
  snd (verdict device event) = Ret None -> snd (badEvent device event) = Ret None.
Proof.
  unfold verdict. destruct (badEvent device event) as [ev [[e|]|e]]; cbn [snd];
    [discriminate | reflexivity | discriminate].
Qed.

(** Event types that differ in case only make the same event. *)
Lemma new_event_same_lowercase did pid b ets ets' recorded :
  prop b "event_types" = VArr ets ->
  map lower ets' = map lower ets ->
  new_event (mkRequest did pid (set_prop b "event_types" (VArr ets'))) recorded
  = new_event (mkRequest did pid b) recorded.
Proof.
  intros Hets Hsame.
  assert (Hobj : exists fs, b = VObj fs).
  { apply prop_defined_object with (k := "event_types"). rewrite Hets. discriminate. }
  unfold new_event, event_literal. cbn [body params_device_id locals_provider_id].
  rewrite !prop_set_prop by assumption.
  cbn [String.eqb Ascii.eqb Bool.eqb].
  rewrite Hets. cbn [truthy Array_isArray andb elements].
  now rewrite Hsame.
Qed.

(** C10: [submitVehicleEvent] validates the event with every element of
    its [event_types] array in lower case and with its [vehicle_state] as
    it is in the body.  For a registered device the answer is 201 exactly
    when this event passes the validation and is not recorded already;
    then every event type, in lower case, is an event type of the
    modality, and the vehicle state, as written, is a state of the
    modality.  Requests that differ only in the case of their event types
    (their event types are the same in lower case) are handled alike. *)
Theorem C10_event_types_lowercased
        (env : Env) (req : Request) (w : World) (ets : list JsVal) :
  prop (body req) "event_types" = VArr ets ->
  let validated := submitted_event req (now_recorded env) in
  prop validated "event_types" = VArr (map lower ets)
  /\ prop validated "vehicle_state" = prop (body req) "vehicle_state"
  /\ (forall device,
         snd (db_readDevice (params_device_id req) (locals_provider_id req) w)
         = Ret device ->
         (exists resp,
             responses (fst (submitVehicleEvent env req w))
             = (responses w ++ [resp])%list
             /\ (status resp = 201%nat
                 <-> snd (verdict device validated) = Ret None
                     /\ existsb (same_key (fst (verdict device validated)))
                                (db_events (db w)) = false))
         /\ (snd (verdict device validated) = Ret None ->
             exists events states,
               vocabulary_of (prop device "modality") = Some (events, states)
               /\ Forall (fun t => in_vocabulary events (lower t)) ets
               /\ in_vocabulary states (prop (body req) "vehicle_state")))
  /\ (forall ets',
         map lower ets' = map lower ets ->
         submitVehicleEvent env
           (mkRequest (params_device_id req) (locals_provider_id req)
                      (set_prop (body req) "event_types" (VArr ets')))
           w
         = submitVehicleEvent env req w).
Proof.
  intros Hets. cbn zeta.
  assert (Hbody : nullish (body req) = false).
  { destruct (body req); try reflexivity; discriminate Hets. }
  assert (Htypes : prop (submitted_event req (now_recorded env)) "event_types"
                   = VArr (map lower ets)).
  { rewrite submitted_event_prop, new_event_prop by discriminate.
    cbn [prop lookup event_literal String.eqb Ascii.eqb Bool.eqb].
    now rewrite Hets. }
  assert (Hstate : prop (submitted_event req (now_recorded env)) "vehicle_state"
                   = prop (body req) "vehicle_state").
  { rewrite submitted_event_prop by discriminate. apply new_event_vehicle_state. }
  split; [exact Htypes|]. split; [exact Hstate|]. split.
  - intros device Hread. split.
    + destruct (run_spec env req w Hbody) as (w' & r & Hrun & Hcases).
      rewrite Hrun. cbn [fst]. rewrite Hread in Hcases. cbn zeta in Hcases.
      assert (Hknown : device_known (db w)
                         (fst (verdict device
                                 (submitted_event req (now_recorded env)))) = true).
      { apply (device_known_of_read _ _ _ _ _ Hread).
        rewrite verdict_event_prop, submitted_event_prop by discriminate.
        apply new_event_device_id. }
      rewrite Hknown in Hcases.
      destruct (snd (verdict device _)) as [[failure|]|e].
      * destruct Hcases as (_ & _ & resp & Hresp & Hst). exists resp.
        split; [assumption|]. split; [contradiction | intros [E _]; discriminate E].
      * destruct (existsb _ (db_events (db w))).
        -- destruct Hcases as [_ Hresp]. exists already_received.
           split; [assumption|]. split; [discriminate | intros [_ E]; discriminate E].
        -- destruct Hcases as (_ & _ & Hresp). eexists. split; [exact Hresp|].
           split; [now split | reflexivity].
      * destruct Hcases as (_ & _ & resp & Hresp & Hst). exists resp.
        split; [assumption|]. split; [contradiction | intros [E _]; discriminate E].
    + intros Hacc. apply verdict_accepts_inv in Hacc.
      destruct (badEvent_accept_inv _ _ Hacc)
        as (ets0 & (_ & (_ & _ & Hets0 & _) & _ & Hmod) & _).
      destruct (bad_modality_none_inv _ _ _ Hmod) as (events & states & Hvoc & Hbad).
      apply bad_vocabulary_none_iff in Hbad. destruct Hbad as [Hall Hst].
      rewrite Htypes in Hets0. injection Hets0 as <-.
      exists events, states. split; [assumption|]. split.
      * rewrite Forall_forall in Hall |- *. intros t Hin.
        apply Hall. now apply in_map.
      * now rewrite <- Hstate.
  - intros ets' Hsame. destruct req as [did pid b].
    cbn [body params_device_id locals_provider_id] in *.
    destruct (prop_defined_object b "event_types") as [fs ->];
      [rewrite Hets; discriminate|].
    unfold submitVehicleEvent.
    cbn [body nullish is_undefined is_null orb set_prop].
    change (VObj (assign fs "event_types" (VArr ets')))
      with (set_prop (VObj fs) "event_types" (VArr ets')).
    rewrite (new_event_same_lowercase did pid (VObj fs) ets ets' _ Hets Hsame).
    reflexivity.
Qed.

End Lowercasing.

(** The event type [TRIP_START] is answered as [trip_start] is: with 201,
    since the event with [trip_start] passes the validation and is new. *)
Lemma C10_witness :
  let validated := submitted_event (B := ascii_strings) upper_case_event_type
                                   (now_recorded calm) in
  prop validated "event_types" = VArr [VStr "trip_start"]
  /\ prop validated "vehicle_state" = VStr "on_trip"
  /\ (exists resp,
         responses (fst (submitVehicleEvent (U := utils) (T := types)
                           (B := ascii_strings) calm upper_case_event_type world0))
         = (responses world0 ++ [resp])%list
         /\ status resp = 201%nat)
  /\ submitVehicleEvent (U := utils) (T := types) (B := ascii_strings)
                        calm trip_start_request world0
     = submitVehicleEvent (U := utils) (T := types) (B := ascii_strings)
                          calm upper_case_event_type world0.
Proof.
  destruct (C10_event_types_lowercased (U := utils) (T := types)
              (B := ascii_strings) calm upper_case_event_type world0
              [VStr "TRIP_START"] eq_refl)
    as (Htypes & Hstate & Hrun & Hsame).
  split; [exact Htypes|]. split; [exact Hstate|]. split.
  - destruct (Hrun (device "micromobility")) as [(resp & Hresp & Hiff) _];
      [vm_compute; reflexivity|].
    exists resp. split; [exact Hresp|].
    apply Hiff. split; vm_compute; reflexivity.
  - exact (Hsame [VStr "trip_start"] eq_refl).
Defined.

(* ================================================================== *)
(** ** The telemetry table *)

Lemma record_new_app known rows :
  fst (record_new known rows) = (known ++ snd (record_new known rows))%list.
Proof.
  revert known. induction rows as [|t rest IH]; intros known; simpl.
  - now rewrite app_nil_r.
  - destruct (existsb (same_key t) known); [apply IH|].
    specialize (IH (known ++ [t])%list).
    destruct (record_new (known ++ [t]) rest) as [known' fresh].
    cbn [fst snd] in *. now rewrite IH, <- app_assoc.
Qed.

Lemma record_new_fresh known rows :
  Forall (fun r => In r rows /\ existsb (same_key r) known = false)
         (snd (record_new known rows)).
Proof.
  revert known. induction rows as [|t rest IH]; intros known; simpl.
  - constructor.
  - destruct (existsb (same_key t) known) eqn:E.
    + eapply Forall_impl; [|apply IH]. intros r [Hin Hk]. split; [now right | assumption].
    + specialize (IH (known ++ [t])%list).
      destruct (record_new (known ++ [t]) rest) as [known' fresh]. cbn [snd] in *.
      constructor; [split; [now left | assumption]|].
      eapply Forall_impl; [|apply IH]. intros r [Hin Hk]. split; [now right|].
      rewrite existsb_app in Hk. now apply orb_false_iff in Hk.
Qed.

Lemma record_new_keeps known rows r :
  existsb (same_key r) known = true ->
  existsb (same_key r) (fst (record_new known rows)) = true.
Proof.
  intros H. rewrite record_new_app, existsb_app, H. reflexivity.
Qed.

Lemma record_new_records known rows r :
  In r rows -> existsb (same_key r) (fst (record_new known rows)) = true.
Proof.
  revert known. induction rows as [|t rest IH]; intros known Hin; [contradiction|].
  simpl. destruct Hin as [-> | Hin].
  - destruct (existsb (same_key r) known) eqn:E.
    + now apply record_new_keeps.
    + pose proof (record_new_keeps (known ++ [r])%list rest r) as Hk.
      destruct (record_new (known ++ [r]) rest) as [known' fresh]. cbn [fst] in *.
      apply Hk. rewrite existsb_app. cbn [existsb].
      rewrite (same_key_agree r r eq_refl eq_refl). now rewrite orb_true_r.
  - destruct (existsb (same_key t) known); [now apply IH|].
    specialize (IH (known ++ [t])%list Hin).
    now destruct (record_new (known ++ [t]) rest).
Qed.

Lemma record_new_absorbs known rows :
  (forall r, In r rows -> existsb (same_key r) known = true) ->
  record_new known rows = (known, []).
Proof.
  induction rows as [|t rest IH]; intros Hall; [reflexivity|].
  simpl. rewrite (Hall t (or_introl eq_refl)).
  apply IH. intros r Hin. apply Hall. now right.
Qed.

Lemma writeTelemetry_run cache_fault stream_fault telemetry w :
  exists w',
    writeTelemetry cache_fault stream_fault telemetry w
    = (w', Ret (snd (record_new (db_telemetry (db w)) (rows_of telemetry))))
    /\ db w' = mkDb (db_devices (db w)) (db_events (db w))
                    (fst (record_new (db_telemetry (db w)) (rows_of telemetry)))
    /\ responses w' = responses w.
Proof.
  unfold writeTelemetry, mbind, try_catch, Promise_all, db_writeTelemetry,
    cache_writeTelemetry, stream_writeTelemetry, attempt, mret, rows_of.
  destruct (record_new _ _) as [known fresh].
  destruct cache_fault, stream_fault; cbn; eexists; repeat split.
Qed.

(** X9: [writeTelemetry] adds to the store of record exactly the rows it
    returns; each of them is a row of its argument whose
    [(device_id, timestamp)] was not recorded before; and this does not
    depend on what the cache and the stream do. *)
Theorem writeTelemetry_records_the_new_rows
        (cache_fault stream_fault : fault) (telemetry : JsVal) (w : World) :
  exists w' rows,
    writeTelemetry cache_fault stream_fault telemetry w = (w', Ret rows)
    /\ db_telemetry (db w') = (db_telemetry (db w) ++ rows)%list
    /\ Forall (fun r => In r (rows_of telemetry)
                        /\ existsb (same_key r) (db_telemetry (db w)) = false)
              rows.
Proof.
  destruct (writeTelemetry_run cache_fault stream_fault telemetry w)
    as (w' & Hrun & Hdb & _).
  do 2 eexists. split; [exact Hrun|]. rewrite Hdb. cbn [db_telemetry].
  split; [apply record_new_app | apply record_new_fresh].
Qed.

(** X10: writing the same telemetry a second time records nothing: the
    second call returns no row and leaves the store of record as it is. *)
Theorem writeTelemetry_twice
        (f1 f2 f3 f4 : fault) (telemetry : JsVal) (w : World) :
  let first := writeTelemetry f1 f2 telemetry w in
  let second := writeTelemetry f3 f4 telemetry (fst first) in
  snd second = Ret [] /\ db (fst second) = db (fst first).
Proof.
  cbn zeta.
  destruct (writeTelemetry_run f1 f2 telemetry w) as (w1 & Hrun1 & Hdb1 & _).
  rewrite Hrun1. cbn [fst].
  destruct (writeTelemetry_run f3 f4 telemetry w1) as (w2 & Hrun2 & Hdb2 & _).
  rewrite Hrun2. cbn [fst snd]. rewrite Hdb2, Hdb1.
  cbn [db_devices db_events db_telemetry].
  rewrite (record_new_absorbs _ (rows_of telemetry))
    by (intros r Hin; now apply record_new_records).
  now split.
Qed.

(* ================================================================== *)
(** ** More on the composite view *)

(** X11: the composite record keeps every property of the device other
    than [state], [prev_events], [updated] and [gps]. *)
Theorem computeCompositeVehicleData_keeps_the_device
        (payload : VehiclePayload) (k : string) :
  k <> "state" -> k <> "prev_events" -> k <> "updated" -> k <> "gps" ->
  prop (computeCompositeVehicleData payload) k = prop (payload_device payload) k.
Proof.
  intros Hs Hp Hu Hg. destruct payload as [device event telemetry].
  unfold computeCompositeVehicleData.
  cbn [payload_device payload_event payload_telemetry].
  assert (Hdev : prop (VObj (spread device)) k = prop device k)
    by (destruct device; reflexivity).
  destruct (truthy event), (truthy telemetry);
    try destruct (truthy (prop telemetry "gps"));
    rewrite ?prop_set_prop_other by congruence; exact Hdev.
Qed.

(* ================================================================== *)
(** ** The parser of validation errors *)

Lemma strip_only_letters s :
  all_chars is_letter_or_underscore (strip_nonword_and_digits s) = true.
Proof.
  induction s as [|c s IH]; simpl; [reflexivity|].
  destruct (is_letter_or_underscore c) eqn:E; simpl; [now rewrite E|assumption].
Qed.

Lemma strip_fixes_letters s :
  all_chars is_letter_or_underscore s = true -> strip_nonword_and_digits s = s.
Proof.
  induction s as [|c s IH]; simpl; [reflexivity|].
  intros H. apply andb_true_iff in H. destruct H as [Hc Hs].
  now rewrite Hc, IH.
Qed.

Lemma reduce_collect_missing items acc :
  Forall has_params items ->
  reduce collect_missing items acc = Ret (acc ++ missing_properties items)%list.
Proof.
  intros Hall. revert acc.
  induction Hall as [|e items [Hobj Hparams] _ IH]; intros acc; simpl.
  - now rewrite app_nil_r.
  - unfold collect_missing at 1. rewrite Hobj. unfold missing_properties.
    cbn [filter].
    destruct Hparams as [[fs Hp] | [l Hp]]; rewrite Hp; cbn [has_property has_key].
    + destruct (lookup "missingProperty" fs) eqn:El; cbn [map bind].
      * rewrite IH. unfold missing_properties. rewrite <- app_assoc.
        cbn [app]. now rewrite Hp.
      * apply IH.
    + cbn [bind]. apply IH.
Qed.

Lemma reduce_collect_invalid items acc :
  Forall has_path items ->
  reduce collect_invalid items acc = Ret (acc ++ map invalid_property items)%list.
Proof.
  intros Hall. revert acc.
  induction Hall as [|e items [Hobj [p Hp]] _ IH]; intros acc; simpl.
  - now rewrite app_nil_r.
  - unfold collect_invalid at 1. rewrite Hobj, Hp. cbn [bind].
    rewrite IH, <- app_assoc. cbn [app]. unfold invalid_property at 2.
    now rewrite Hp.
Qed.

(** X12: what [agencyValidationErrorParser] returns is a [missing_param]
    when the error carries a list of errors whose first one has the keyword
    [required], and a [bad_param] in every other case. *)
Theorem agencyValidationErrorParser_kinds (error r : JsVal) :
  agencyValidationErrorParser error = Ret r ->
  (first_is_required error = true
   /\ prop r "error" = VStr "missing_param"
   /\ prop r "error_description" = VStr "A required parameter is missing.")
  \/ (first_is_required error = false
      /\ prop r "error" = VStr "bad_param"
      /\ prop r "error_description" = VStr "A validation error occurred.").
Proof.
  unfold agencyValidationErrorParser, first_is_required.
  destruct (nullish error); [discriminate|].
  destruct (prop error "info") as [| | | | |items|];
    try (intros E; injection E as <-; right; now repeat split).
  destruct items as [|first items]; [discriminate|]. cbn [nth].
  destruct (nullish first); [discriminate|].
  destruct (is_str (prop first "keyword") "required").
  - destruct (reduce collect_missing _ _); cbn [bind]; [|discriminate].
    intros E; injection E as <-. left. now repeat split.
  - destruct (reduce collect_invalid _ _); cbn [bind]; [|discriminate].
    intros E; injection E as <-. right. now repeat split.
Qed.

(** X13: for a list of errors that starts with a [required] error, the
    details are the [missingProperty] of the errors that have one, in the
    order of the list; the other errors are ignored. *)
Theorem agencyValidationErrorParser_missing_properties
        (error first : JsVal) (items : list JsVal) :
  nullish error = false ->
  prop error "info" = VArr (first :: items) ->
  prop first "keyword" = VStr "required" ->
  Forall has_params (first :: items) ->
  agencyValidationErrorParser error
  = Ret (VObj [("error", VStr "missing_param");
               ("error_description", VStr "A required parameter is missing.");
               ("error_details", VArr (missing_properties (first :: items)))]).
Proof.
  intros Herr Hinfo Hkey Hall. unfold agencyValidationErrorParser.
  rewrite Herr, Hinfo. cbn [nth].
  pose proof Hall as Hfirst. apply Forall_inv in Hfirst. destruct Hfirst as [Hobj _].
  rewrite Hobj, Hkey. cbn [is_str].
  rewrite (String.eqb_refl "required").
  now rewrite (reduce_collect_missing _ [] Hall).
Qed.

(** X14: for a list of errors that does not start with a [required]
    error, the details have one [{ property, message }] for each error, in
    order, and every [property] is made of letters and underscores only:
    the separators and the digits of the path are gone. *)
Theorem agencyValidationErrorParser_invalid_properties
        (error first : JsVal) (items : list JsVal) :
  nullish error = false ->
  prop error "info" = VArr (first :: items) ->
  is_str (prop first "keyword") "required" = false ->
  Forall has_path (first :: items) ->
  agencyValidationErrorParser error
  = Ret (VObj [("error", VStr "bad_param");
               ("error_description", VStr "A validation error occurred.");
               ("error_details", VArr (map invalid_property (first :: items)))])
  /\ Forall (fun d => exists p, prop d "property" = VStr p
                                /\ all_chars is_letter_or_underscore p = true)
            (map invalid_property (first :: items)).
Proof.
  intros Herr Hinfo Hkey Hall. split.
  - unfold agencyValidationErrorParser.
    rewrite Herr, Hinfo. cbn [nth].
    pose proof Hall as Hfirst. apply Forall_inv in Hfirst.
    destruct Hfirst as [Hobj _]. rewrite Hobj, Hkey.
    now rewrite (reduce_collect_invalid _ [] Hall).
  - apply Forall_map. eapply Forall_impl; [|exact Hall].
    intros e [_ [p Hp]]. unfold invalid_property. rewrite Hp.
    eexists. split; [reflexivity|]. apply strip_only_letters.
Qed.

(** X15: a list of errors that is empty, or whose first element is
    [null], makes the parser throw: its first error is destructured before
    anything else. *)
Theorem agencyValidationErrorParser_needs_a_first_error
        (error : JsVal) (items : list JsVal) :
  prop error "info" = VArr items ->
  nullish (nth 0 items VUndefined) = true ->
  agencyValidationErrorParser error = Throw null_read.
Proof.
  intros Hinfo Hfirst. unfold agencyValidationErrorParser.
  destruct (nullish error) eqn:Herr; [reflexivity|].
  now rewrite Hinfo, Hfirst.
Qed.

(* ================================================================== *)
(** ** Batches of telemetry *)

Section BatchProperties.

Context {U : MdsUtils} {H : AgencyHelpers}.

Lemma batch_telemetry_returns env p row :
  badTelemetry (batch_telemetry env p row)
  = Ret (first_failure (telemetry_checks (batch_telemetry env p row))).
Proof. apply badTelemetry_first_failure. discriminate. Qed.

Lemma batch_telemetry_verdict env1 env2 p row :
  badTelemetry (batch_telemetry env1 p row)
  = badTelemetry (batch_telemetry env2 p row).
Proof. reflexivity. Qed.

(** The rows sorted so far and the rows still to sort add up. *)
Lemma reduce_sort_row_count env p ids data valid0 failures0 valid failures :
  reduce (sort_row env p ids) data (valid0, failures0) = Ret (valid, failures) ->
  (List.length valid + List.length failures
   = List.length valid0 + List.length failures0 + List.length data)%nat.
Proof.
  revert valid0 failures0.
  induction data as [|row data IH]; intros valid0 failures0; simpl.
  - intros E. injection E as <- <-. lia.
  - unfold sort_row at 1.
    destruct (nullish row || nullish (prop row "gps")); [discriminate|].
    rewrite batch_telemetry_returns. cbn [bind].
    destruct (first_failure _) as [bad|];
      [|destruct (negb (existsb _ ids))];
      intros E; apply IH in E; rewrite ?length_app in E; simpl in E; lia.
Qed.

(** Every row that is sorted as valid has passed the telemetry validator
    and belongs to one of the known devices. *)
Lemma reduce_sort_row_valid env p ids data valid0 failures0 valid failures :
  reduce (sort_row env p ids) data (valid0, failures0) = Ret (valid, failures) ->
  forall t, In t valid ->
    In t valid0
    \/ exists row, In row data
                   /\ t = batch_telemetry env p row
                   /\ badTelemetry t = Ret None
                   /\ existsb (same_value_zero (prop t "device_id")) ids = true.
Proof.
  revert valid0 failures0.
  induction data as [|row data IH]; intros valid0 failures0; simpl.
  - intros E. injection E as <- <-. auto.
  - unfold sort_row at 1.
    destruct (nullish row || nullish (prop row "gps")); [discriminate|].
    destruct (badTelemetry (batch_telemetry env p row)) as [[bad|]|] eqn:Hbad;
      cbn [bind]; try discriminate.
    + intros E t Hin. destruct (IH _ _ E t Hin) as [H0 | (r & Hr & Ht)]; auto.
      right. exists r. split; [now right | assumption].
    + destruct (existsb _ ids) eqn:Hknown; cbn [negb].
      * intros E t Hin. destruct (IH _ _ E t Hin) as [H0 | (r & Hr & Ht)].
        -- apply in_app_or in H0. destruct H0 as [H0 | [<- | []]]; auto.
           right. exists row. split; [now left|]. now repeat split.
        -- right. exists r. split; [now right | assumption].
      * intros E t Hin. destruct (IH _ _ E t Hin) as [H0 | (r & Hr & Ht)]; auto.
        right. exists r. split; [now right | assumption].
Qed.

(** The sorting does not depend on the time of recording, but for the
    [recorded] of the rows. *)
Lemma reduce_sort_row_env env1 env2 p ids data
      valid0 failures0 valid0' failures0' valid failures :
  reduce (sort_row env1 p ids) data (valid0, failures0) = Ret (valid, failures) ->
  Forall2 same_row_key valid0 valid0' ->
  exists valid' failures',
    reduce (sort_row env2 p ids) data (valid0', failures0') = Ret (valid', failures')
    /\ Forall2 same_row_key valid valid'.
Proof.
  revert valid0 failures0 valid0' failures0'.
  induction data as [|row data IH];
    intros valid0 failures0 valid0' failures0'; simpl.
  - intros E Hrel. injection E as <- <-. now do 2 eexists.
  - intros E Hrel. unfold sort_row at 1 in E. unfold sort_row at 1.
    destruct (nullish row || nullish (prop row "gps")); [discriminate|].
    rewrite (batch_telemetry_verdict env2 env1).
    destruct (badTelemetry (batch_telemetry env1 p row)) as [[bad|]|];
      cbn [bind] in E |- *; try discriminate.
    + now apply (IH _ _ _ _ E).
    + change (prop (batch_telemetry env2 p row) "device_id")
        with (prop (batch_telemetry env1 p row) "device_id").
      destruct (existsb _ ids); cbn [negb] in E |- *.
      * apply (IH _ _ _ _ E).
        apply Forall2_app; [assumption|]. constructor; [|constructor].
        now split.
      * now apply (IH _ _ _ _ E).
Qed.

Lemma reduce_sort_row_throws env p ids data acc :
  existsb unreadable_row data = true ->
  reduce (sort_row env p ids) data acc = Throw null_read.
Proof.
  revert acc. induction data as [|row data IH]; intros [valid failures];
    [discriminate|].
  simpl. intros Hbad. unfold sort_row at 1. unfold unreadable_row in Hbad at 1.
  destruct (nullish row || nullish (prop row "gps")); [reflexivity|].
  cbn [orb] in Hbad.
  rewrite batch_telemetry_returns. cbn [bind].
  destruct (first_failure _) as [bad|];
    [|destruct (negb (existsb _ ids))]; now apply IH.
Qed.

Lemma known_device_ids_world p data w :
  fst (known_device_ids p data w) = w.
Proof.
  unfold known_device_ids, mbind, db_readDeviceIds, mret, lift.
  destruct data as [|telemetry [|]]; try reflexivity.
  destruct (has_property "device_id" telemetry) as [[|]|]; try reflexivity.
  destruct (isUUID _); [|reflexivity].
  unfold db_readDevice. now destruct (find _ _).
Qed.

Lemma known_device_ids_devices p data w w' :
  db_devices (db w') = db_devices (db w) ->
  snd (known_device_ids p data w') = snd (known_device_ids p data w).
Proof.
  intros Hdev.
  unfold known_device_ids, mbind, db_readDeviceIds, mret, lift.
  destruct data as [|telemetry [|]]; cbn [snd]; rewrite ?Hdev; try reflexivity.
  destruct (has_property "device_id" telemetry) as [[|]|];
    cbn [snd]; rewrite ?Hdev; try reflexivity.
  destruct (isUUID _); cbn [snd]; rewrite ?Hdev; [|reflexivity].
  unfold db_readDevice. rewrite Hdev. now destruct (find _ _).
Qed.

Lemma known_device_ids_known p data w ids :
  snd (known_device_ids p data w) = Ret ids ->
  forall id, In id ids ->
             exists d, In d (db_devices (db w)) /\ id = prop d "device_id".
Proof.
  assert (Hall : forall id,
    In id (map (fun r => prop r "device_id")
               (map (fun d => VObj [("device_id", prop d "device_id");
                                    ("provider_id", prop d "provider_id")])
                    (filter (fun d => negb (truthy p)
                                      || same_value (prop d "provider_id") p)
                            (db_devices (db w))))) ->
    exists d, In d (db_devices (db w)) /\ id = prop d "device_id").
  { intros id Hin. rewrite map_map in Hin. apply in_map_iff in Hin.
    destruct Hin as (d & <- & Hd). apply filter_In in Hd. destruct Hd as [Hd _].
    now exists d. }
  unfold known_device_ids, mbind, db_readDeviceIds, mret, lift.
  destruct data as [|telemetry [|]]; cbn [snd];
    try (intros E; injection E as <-; exact Hall).
  destruct (has_property "device_id" telemetry) as [[|]|]; cbn [snd];
    try discriminate; try (intros E; injection E as <-; exact Hall).
  destruct (isUUID _); cbn [snd];
    try (intros E; injection E as <-; exact Hall).
  unfold db_readDevice.
  destruct (find _ (db_devices (db w))) as [d|] eqn:Hfind; cbn [snd];
    [|discriminate].
  intros E; injection E as <-. intros id [<- | []].
  apply find_some in Hfind. destruct Hfind as [Hin _]. now exists d.
Qed.

(** A run of the handler on a batch, step by step. *)
Lemma batch_run env req w data :
  truthy (batch_provider_id req) = true ->
  batch_data req = Some data ->
  submitVehicleTelemetry env req w
  = match snd (known_device_ids (batch_provider_id req) data w) with
    | Throw e => batch_failed data e w
    | Ret ids =>
        match reduce (sort_row env (batch_provider_id req) ids) data ([], []) with
        | Throw e => batch_failed data e w
        | Ret (valid, failures) =>
            if (List.length valid =? 0)%nat then
              (w, Ret (mkBatchResponse 400 (InvalidData failures)))
            else
              let w' := fst (writeTelemetry (device_cache_fault env)
                                            (device_stream_fault env)
                                            (VArr valid) w) in
              if (List.length (snd (record_new (db_telemetry (db w)) valid)) =? 0)%nat
              then (w', Ret (mkBatchResponse 400 (InvalidData failures)))
              else (w', Ret (mkBatchResponse 200
                               (BatchAccepted (List.length valid) (List.length data)
                                              (map rejected_telemetry failures))))
        end
    end.
Proof.
  intros Hp Hdata. unfold submitVehicleTelemetry. rewrite Hp, Hdata. cbn [negb].
  unfold try_catch, mbind at 1.
  pose proof (known_device_ids_world (batch_provider_id req) data w) as Hw.
  destruct (known_device_ids (batch_provider_id req) data w) as [w0 [ids|e]].
  2:{ cbn [fst snd] in *. subst w0. reflexivity. }
  cbn [fst snd] in *. subst w0.
  unfold mbind at 1, lift.
  destruct (reduce _ data ([], [])) as [[valid failures]|e]; [|reflexivity].
  destruct (List.length valid =? 0)%nat; cbn [negb]; [reflexivity|].
  destruct (writeTelemetry_run (device_cache_fault env) (device_stream_fault env)
                               (VArr valid) w) as (w' & Hrun & _).
  unfold mbind. rewrite Hrun. cbn [fst rows_of].
  now destruct (List.length _ =? 0)%nat.
Qed.

End BatchProperties.

Lemma Forall2_in_r {A B} {R : A -> B -> Prop} {l : list A} {l' : list B} :
  Forall2 R l l' -> forall y, In y l' -> exists x, In x l /\ R x y.
Proof.
  induction 1 as [|x y l l' Hxy _ IH]; intros z Hin; [contradiction|].
  destruct Hin as [<- | Hin].
  - exists x. split; [now left | assumption].
  - destruct (IH z Hin) as (x' & Hx' & Hr). exists x'. split; [now right | assumption].
Qed.

Section BatchClaims.

Context {U : MdsUtils} {H : AgencyHelpers}.

Lemma batch_failed_world data e w : fst (batch_failed data e w) = w.
Proof.
  unfold batch_failed, throw, mret.
  destruct (isNotFoundError e); [destruct (nullish _)|]; reflexivity.
Qed.

Lemma batch_failed_status data e w resp :
  snd (batch_failed data e w) = Ret resp -> batch_status resp <> 200%nat.
Proof.
  unfold batch_failed, throw, mret.
  destruct (isNotFoundError e); [destruct (nullish _)|]; cbn [snd];
    intros E; try discriminate E; injection E as <-; discriminate.
Qed.

(** X16: when [submitVehicleTelemetry] answers with status 200, the body
    counts the rows of the batch: [total] is the number of rows, [success]
    is at least one, and [success] and the number of [failures] add up to
    [total]. *)
Theorem submitVehicleTelemetry_counts
        (env : DeviceEnv) (req : BatchRequest) (w : World) (resp : BatchResponse) :
  snd (submitVehicleTelemetry env req w) = Ret resp ->
  batch_status resp = 200%nat ->
  exists data success failures,
    batch_data req = Some data
    /\ batch_body resp = BatchAccepted success (List.length data) failures
    /\ (success + List.length failures = List.length data)%nat
    /\ (0 < success)%nat.
Proof.
  intros Hrun Hstatus.
  destruct (truthy (batch_provider_id req)) eqn:Hp.
  2:{ unfold submitVehicleTelemetry in Hrun. rewrite Hp in Hrun.
      injection Hrun as <-. discriminate. }
  destruct (batch_data req) as [data|] eqn:Hdata.
  2:{ unfold submitVehicleTelemetry in Hrun. rewrite Hp, Hdata in Hrun.
      injection Hrun as <-. discriminate. }
  rewrite (batch_run env req w data Hp Hdata) in Hrun.
  destruct (snd (known_device_ids _ data w)) as [ids|e];
    [|now apply batch_failed_status in Hrun].
  destruct (reduce _ data ([], [])) as [[valid failures]|e] eqn:Hsort;
    [|now apply batch_failed_status in Hrun].
  apply reduce_sort_row_count in Hsort. simpl in Hsort.
  destruct (List.length valid =? 0)%nat eqn:Hvalid.
  { injection Hrun as <-. discriminate. }
  cbn zeta in Hrun.
  destruct (List.length (snd (record_new _ valid)) =? 0)%nat.
  { injection Hrun as <-. discriminate. }
  injection Hrun as <-. exists data, (List.length valid), (map rejected_telemetry failures).
  cbn [batch_body]. rewrite length_map.
  apply Nat.eqb_neq in Hvalid. repeat split; lia.
Qed.

(** X17: whatever the batch, a row that [submitVehicleTelemetry] adds to
    the telemetry of the store of record is the telemetry built from a row
    of the batch (with [accuracy] taken from [gps.hdop]), has passed
    [badTelemetry], and has the [device_id] of a device of the store. *)
Theorem submitVehicleTelemetry_records_only_valid_rows
        (env : DeviceEnv) (req : BatchRequest) (w : World) (t : JsVal) :
  In t (db_telemetry (db (fst (submitVehicleTelemetry env req w)))) ->
  In t (db_telemetry (db w))
  \/ exists data row d,
      batch_data req = Some data /\ In row data
      /\ t = batch_telemetry env (batch_provider_id req) row
      /\ prop (prop t "gps") "accuracy" = prop (prop row "gps") "hdop"
      /\ badTelemetry t = Ret None
      /\ In d (db_devices (db w))
      /\ same_value_zero (prop t "device_id") (prop d "device_id") = true.
Proof.
  intros Hin.
  destruct (truthy (batch_provider_id req)) eqn:Hp.
  2:{ unfold submitVehicleTelemetry in Hin. rewrite Hp in Hin. now left. }
  destruct (batch_data req) as [data|] eqn:Hdata.
  2:{ unfold submitVehicleTelemetry in Hin. rewrite Hp, Hdata in Hin. now left. }
  rewrite (batch_run env req w data Hp Hdata) in Hin.
  destruct (snd (known_device_ids _ data w)) as [ids|e] eqn:Hids;
    [|rewrite batch_failed_world in Hin; now left].
  destruct (reduce _ data ([], [])) as [[valid failures]|e] eqn:Hsort;
    [|rewrite batch_failed_world in Hin; now left].
  destruct (List.length valid =? 0)%nat; [now left|].
  cbn zeta in Hin.
  assert (Hin' : In t (db_telemetry (db (fst (writeTelemetry
                   (device_cache_fault env) (device_stream_fault env)
                   (VArr valid) w))))).
  { now destruct (List.length (snd (record_new _ valid)) =? 0)%nat. }
  clear Hin.
  destruct (writeTelemetry_run (device_cache_fault env) (device_stream_fault env)
                               (VArr valid) w) as (w' & Hrun & Hdb & _).
  rewrite Hrun in Hin'. cbn [fst] in Hin'. rewrite Hdb in Hin'.
  cbn [db_telemetry rows_of] in Hin'. rewrite record_new_app in Hin'.
  apply in_app_or in Hin'. destruct Hin' as [Hold | Hnew]; [now left|].
  pose proof (record_new_fresh (db_telemetry (db w)) valid) as Hfresh.
  rewrite Forall_forall in Hfresh. destruct (Hfresh t Hnew) as [Hvalid _].
  destruct (reduce_sort_row_valid _ _ _ _ _ _ _ _ Hsort t Hvalid)
    as [[] | (row & Hrow & Ht & Hok & Hknown)].
  apply existsb_exists in Hknown. destruct Hknown as (id & Hid & Hsame).
  destruct (known_device_ids_known _ _ _ _ Hids id Hid) as (d & Hd & ->).
  right. exists data, row, d. repeat split; try assumption.
  now subst t.
Qed.

(** X18: a batch that was answered with status 200 is answered, when it
    is submitted again, with status 400 and [invalid_data], although its
    rows are as valid as before: all of them are recorded already.  The
    store of record is left as it is. *)
Theorem submitVehicleTelemetry_again
        (env1 env2 : DeviceEnv) (req : BatchRequest) (w : World)
        (resp : BatchResponse) :
  snd (submitVehicleTelemetry env1 req w) = Ret resp ->
  batch_status resp = 200%nat ->
  let w1 := fst (submitVehicleTelemetry env1 req w) in
  exists failures,
    snd (submitVehicleTelemetry env2 req w1)
    = Ret (mkBatchResponse 400 (InvalidData failures))
    /\ db (fst (submitVehicleTelemetry env2 req w1)) = db w1.
Proof.
  intros Hrun Hstatus. cbn zeta.
  destruct (truthy (batch_provider_id req)) eqn:Hp.
  2:{ unfold submitVehicleTelemetry in Hrun. rewrite Hp in Hrun.
      injection Hrun as <-. discriminate. }
  destruct (batch_data req) as [data|] eqn:Hdata.
  2:{ unfold submitVehicleTelemetry in Hrun. rewrite Hp, Hdata in Hrun.
      injection Hrun as <-. discriminate. }
  rewrite (batch_run env1 req w data Hp Hdata) in Hrun |- *.
  destruct (snd (known_device_ids _ data w)) as [ids|e] eqn:Hids;
    [|now apply batch_failed_status in Hrun].
  destruct (reduce _ data ([], [])) as [[valid failures]|e] eqn:Hsort;
    [|now apply batch_failed_status in Hrun].
  destruct (List.length valid =? 0)%nat eqn:Hvalid.
  { injection Hrun as <-. discriminate. }
  cbn zeta in Hrun |- *.
  destruct (List.length (snd (record_new _ valid)) =? 0)%nat.
  { injection Hrun as <-. discriminate. }
  clear Hrun. cbn [fst].
  destruct (writeTelemetry_run (device_cache_fault env1) (device_stream_fault env1)
                               (VArr valid) w) as (w1 & Hrun1 & Hdb1 & _).
  rewrite Hrun1. cbn [fst rows_of] in *.
  rewrite (batch_run env2 req w1 data Hp Hdata).
  rewrite (known_device_ids_devices _ data w w1) by now rewrite Hdb1.
  rewrite Hids.
  destruct (reduce_sort_row_env env1 env2 _ _ _ _ _ [] [] _ _ Hsort)
    as (valid' & failures' & Hsort' & Hrel); [constructor|].
  rewrite Hsort'.
  assert (Hlen : List.length valid' = List.length valid)
    by (symmetry; eapply Forall2_length; eassumption).
  rewrite Hlen, Hvalid. cbn zeta.
  assert (Habsorbed : record_new (db_telemetry (db w1)) valid'
                      = (db_telemetry (db w1), [])).
  { apply record_new_absorbs. intros r' Hin'.
    destruct (Forall2_in_r Hrel r' Hin') as (r & Hin & Hd & Ht).
    rewrite Hdb1. cbn [db_telemetry].
    rewrite <- (existsb_same_key_agree r r') by assumption.
    now apply record_new_records. }
  rewrite Habsorbed. cbn [snd List.length Nat.eqb].
  exists failures'. split; [reflexivity|].
  destruct (writeTelemetry_run (device_cache_fault env2) (device_stream_fault env2)
                               (VArr valid') w1) as (w2 & Hrun2 & Hdb2 & _).
  rewrite Hrun2. cbn [fst rows_of] in *. rewrite Hdb2, Habsorbed. cbn [fst].
  apply Db_eta.
Qed.

(** X19: a row without [gps] (or a row that is [null]) in a batch of
    several rows makes the whole batch fail with status 500 and nothing is
    recorded, whatever the other rows are: unlike a row that the telemetry
    validator rejects, it is not reported as a failure of its own. *)
Theorem submitVehicleTelemetry_unreadable_row
        (env : DeviceEnv) (req : BatchRequest) (w : World) (data : list JsVal) :
  truthy (batch_provider_id req) = true ->
  batch_data req = Some data ->
  List.length data <> 1%nat ->
  existsb unreadable_row data = true ->
  isNotFoundError null_read = false ->
  submitVehicleTelemetry env req w = (w, Ret (mkBatchResponse 500 ServerFailure)).
Proof.
  intros Hp Hdata Hlen Hbad Hnf.
  rewrite (batch_run env req w data Hp Hdata).
  assert (Hids : exists ids, snd (known_device_ids (batch_provider_id req) data w)
                             = Ret ids).
  { unfold known_device_ids, mbind, db_readDeviceIds, mret.
    destruct data as [|r [|r' rest]]; cbn [snd];
      first [now elim Hlen | now eexists]. }
  destruct Hids as [ids ->].
  rewrite (reduce_sort_row_throws env _ ids data _ Hbad).
  unfold batch_failed. now rewrite Hnf.
Qed.

End BatchClaims.

(* ================================================================== *)
(** ** [registerVehicle] and [updateVehicle] *)

(** The best-effort writes of a device to the cache and the stream. *)
Lemma device_fan_out cache_fault stream_fault device w :
  exists w',
    try_catch (Promise_all (cache_writeDevice cache_fault device)
                           (stream_writeDevice stream_fault device))
              (fun _ => mret tt) w
    = (w', Ret tt)
    /\ db w' = db w /\ responses w' = responses w.
Proof.
  unfold try_catch, Promise_all, cache_writeDevice, stream_writeDevice,
    attempt, mret.
  destruct cache_fault, stream_fault; cbn; eexists; repeat split.
Qed.

Lemma update_first_find matches change devices :
  match find matches devices with
  | Some d0 =>
      exists devices',
        update_first matches change devices = Some (change d0, devices')
        /\ In (change d0) devices'
        /\ List.length devices' = List.length devices
  | None => update_first matches change devices = None
  end.
Proof.
  induction devices as [|d rest IH]; simpl; [reflexivity|].
  destruct (matches d).
  - eexists. split; [reflexivity|]. split; [now left | reflexivity].
  - destruct (find matches rest) as [d0|].
    + destruct IH as (rest' & -> & Hin & Hlen).
      eexists. split; [reflexivity|]. split; [now right | simpl; now rewrite Hlen].
    + now rewrite IH.
Qed.

Lemma find_app_singleton {A} (f : A -> bool) (l : list A) (x : A) :
  find f (l ++ [x]) = match find f l with
                      | Some y => Some y
                      | None => if f x then Some x else None
                      end.
Proof.
  induction l as [|y l IH]; simpl; [reflexivity|].
  now destruct (f y).
Qed.

Section DeviceProperties.

Context {H : AgencyHelpers}.
Variable env : DeviceEnv.
Variable req : Request.

(** X20: a device that passes [badDevice] and whose [device_id] is not in
    the store of record is registered whatever the cache and the stream
    do: the answer is 201, the store gains the device built from the body,
    and a read of the store by this id and provider gives it back. *)
Theorem registerVehicle_registers (w : World) :
  nullish (body req) = false ->
  badDevice (new_device env req) = None ->
  existsb (fun d => same_value (prop d "device_id") (prop (body req) "device_id"))
          (db_devices (db w)) = false ->
  let w' := fst (registerVehicle env req w) in
  snd (registerVehicle env req w) = Ret tt
  /\ responses w' = (responses w ++ [mkResponse 201 (ObjectBody (VObj []))])%list
  /\ db w' = mkDb (db_devices (db w) ++ [new_device env req])
                  (db_events (db w)) (db_telemetry (db w))
  /\ snd (db_readDevice (prop (body req) "device_id") (locals_provider_id req) w')
     = Ret (new_device env req).
Proof.
  intros Hbody Hok Hfresh. cbn zeta.
  assert (Hid : prop (new_device env req) "device_id" = prop (body req) "device_id")
    by reflexivity.
  assert (Hpid : prop (new_device env req) "provider_id" = locals_provider_id req)
    by reflexivity.
  assert (Hrun : exists w',
    registerVehicle env req w = (w', Ret tt)
    /\ responses w' = (responses w ++ [mkResponse 201 (ObjectBody (VObj []))])%list
    /\ db w' = mkDb (db_devices (db w) ++ [new_device env req])
                    (db_events (db w)) (db_telemetry (db w))).
  { unfold registerVehicle. rewrite Hbody, Hok.
    unfold try_catch at 1, mbind at 1, db_writeDevice.
    rewrite Hid, Hfresh.
    set (w1 := set_db w _).
    unfold mbind at 1.
    destruct (device_fan_out (device_cache_fault env) (device_stream_fault env)
                             (new_device env req) w1) as (w2 & -> & Hdb2 & Hresp2).
    unfold send. eexists. split; [reflexivity|]. cbn [db responses].
    rewrite Hdb2, Hresp2. now subst w1. }
  destruct Hrun as (w' & -> & Hresp & Hdb). cbn [fst snd].
  repeat split; try assumption.
  unfold db_readDevice. rewrite Hdb. cbn [db_devices].
  rewrite find_app_singleton.
  destruct (find _ (db_devices (db w))) as [d|] eqn:Hfind.
  - apply find_some in Hfind. destruct Hfind as [Hin Hcond].
    apply andb_true_iff in Hcond. destruct Hcond as [Hsame _].
    assert (Hex : existsb (fun d => same_value (prop d "device_id")
                                               (prop (body req) "device_id"))
                          (db_devices (db w)) = true)
      by (apply existsb_exists; now exists d).
    rewrite Hfresh in Hex. discriminate.
  - rewrite Hid, Hpid, !same_value_refl, orb_true_r. reflexivity.
Qed.

(** X21: registering a [device_id] that the store of record has already is
    answered with status 409 and the error [already_registered]; nothing
    but the response changes. *)
Theorem registerVehicle_already_registered (w : World) :
  nullish (body req) = false ->
  badDevice (new_device env req) = None ->
  existsb (fun d => same_value (prop d "device_id") (prop (body req) "device_id"))
          (db_devices (db w)) = true ->
  registerVehicle env req w
  = (mkWorld (db w) (cache w) (stream w)
             (responses w
              ++ [mkResponse 409 (ErrorBody (mkError "already_registered"
                    [Text "A vehicle with this device_id is already registered"]))]),
     Ret tt).
Proof.
  intros Hbody Hok Hdup.
  assert (Hid : prop (new_device env req) "device_id" = prop (body req) "device_id")
    by reflexivity.
  unfold registerVehicle. rewrite Hbody, Hok.
  unfold try_catch at 1, mbind at 1, db_writeDevice.
  rewrite Hid, Hdup. reflexivity.
Qed.

(** X22: [updateVehicle] on a request with a body answers exactly once,
    with status 201 or 404 and never 400 or 500.  With 404 the store of
    record is as before; with 201 the device that the store gives for this
    id and provider now has the [vehicle_id] of the body, and the events
    and the telemetry of the store are as before. *)
Theorem updateVehicle_answers (w : World) :
  nullish (body req) = false ->
  let w' := fst (updateVehicle env req w) in
  snd (updateVehicle env req w) = Ret tt
  /\ ((responses w' = (responses w ++ [mkResponse 404 (ObjectBody (VObj []))])%list
       /\ db w' = db w)
      \/ (responses w' = (responses w ++ [mkResponse 201 (ObjectBody (VObj []))])%list
          /\ db_events (db w') = db_events (db w)
          /\ db_telemetry (db w') = db_telemetry (db w)
          /\ List.length (db_devices (db w')) = List.length (db_devices (db w))
          /\ exists d0,
              snd (db_readDevice (params_device_id req) (locals_provider_id req) w)
              = Ret d0
              /\ strict_equal (prop d0 "provider_id") (locals_provider_id req) = true
              /\ In (set_prop d0 "vehicle_id" (prop (body req) "vehicle_id"))
                    (db_devices (db w')))).
Proof.
  intros Hbody. cbn zeta.
  assert (Hrun : exists w',
    updateVehicle env req w = (w', Ret tt)
    /\ ((responses w' = (responses w ++ [mkResponse 404 (ObjectBody (VObj []))])%list
         /\ db w' = db w)
        \/ (responses w' = (responses w ++ [mkResponse 201 (ObjectBody (VObj []))])%list
            /\ db_events (db w') = db_events (db w)
            /\ db_telemetry (db w') = db_telemetry (db w)
            /\ List.length (db_devices (db w')) = List.length (db_devices (db w))
            /\ exists d0,
                snd (db_readDevice (params_device_id req) (locals_provider_id req) w)
                = Ret d0
                /\ strict_equal (prop d0 "provider_id") (locals_provider_id req) = true
                /\ In (set_prop d0 "vehicle_id" (prop (body req) "vehicle_id"))
                      (db_devices (db w'))))).
  { unfold updateVehicle. rewrite Hbody.
    unfold try_catch at 1, mbind at 1, db_readDevice.
    pose proof (update_first_find
                  (device_matches (params_device_id req) (locals_provider_id req))
                  (apply_update [("vehicle_id", prop (body req) "vehicle_id")])
                  (db_devices (db w))) as Hupdate.
    unfold device_matches in Hupdate.
    destruct (find _ (db_devices (db w))) as [d0|] eqn:Hfind.
    2:{ unfold updateVehicleFail, send. cbn. eexists. split; [reflexivity|]. now left. }
    destruct (nullish d0).
    { unfold throw, updateVehicleFail, send. cbn.
      eexists. split; [reflexivity|]. now left. }
    destruct (strict_equal (prop d0 "provider_id") (locals_provider_id req)) eqn:Hown.
    2:{ unfold updateVehicleFail, send. cbn. eexists. split; [reflexivity|]. now left. }
    cbn [negb]. unfold mbind at 1, db_updateDevice, device_matches.
    destruct Hupdate as (devices' & -> & Hin & Hlen).
    set (w1 := set_db w _).
    unfold mbind at 1.
    destruct (device_fan_out (device_cache_fault env) (device_stream_fault env)
                (apply_update [("vehicle_id", prop (body req) "vehicle_id")] d0) w1)
      as (w2 & -> & Hdb2 & Hresp2).
    unfold send. eexists. split; [reflexivity|]. right.
    cbn [db responses]. rewrite Hdb2, Hresp2. subst w1.
    cbn [set_db db responses db_events db_telemetry db_devices].
    repeat split; try assumption.
    exists d0. split; [reflexivity|]. split; [exact Hown | exact Hin]. }
  destruct Hrun as (w' & -> & Hcases). cbn [fst snd]. now split.
Qed.

End DeviceProperties.

(* ================================================================== *)
(** ** [readPayload] and [getVehicleById] *)

Lemma stored_device_in device_id w :
  truthy (stored_device device_id w) = true ->
  In (stored_device device_id w) (db_devices (db w))
  /\ same_value (prop (stored_device device_id w) "device_id") device_id = true.
Proof.
  unfold stored_device, db_readDevice.
  destruct (find _ (db_devices (db w))) as [d|] eqn:Hfind; cbn [snd];
    [intros _ | discriminate].
  apply find_some in Hfind. destruct Hfind as [Hin Hcond].
  apply andb_true_iff in Hcond. now destruct Hcond.
Qed.

Lemma readPayload_run cache_fault device_id w :
  readPayload cache_fault device_id w
  = (w, Ret (mkPayload
               (stored_device device_id w)
               (cached_event cache_fault device_id w)
               (let event := cached_event cache_fault device_id w in
                if truthy event && truthy (prop event "telemetry")
                then normalizeTelemetry (prop event "telemetry")
                else VUndefined))).
Proof.
  unfold readPayload, stored_device, cached_event, mbind, try_catch, mret,
    db_readDevice, cache_readEvent.
  destruct (find _ (db_devices (db w))) as [d|]; cbn [snd fst];
    (destruct cache_fault as [msg|]; cbn [snd fst];
     [reflexivity
     |destruct (find _ (rev (cache_events (cache w)))) as [e|]; cbn [snd fst];
      [destruct (truthy e), (truthy (prop e "telemetry")); reflexivity
      |reflexivity]]).
Qed.

(** X23: [readPayload] never throws and changes nothing.  Its device is
    [undefined] or a device of the store of record with the id asked for;
    it has telemetry only together with an event; and when the cache
    cannot be read it has neither event nor telemetry. *)
Theorem readPayload_reads (cache_fault : fault) (device_id : JsVal) (w : World) :
  exists payload,
    readPayload cache_fault device_id w = (w, Ret payload)
    /\ (truthy (payload_device payload) = true ->
        In (payload_device payload) (db_devices (db w))
        /\ same_value (prop (payload_device payload) "device_id") device_id = true)
    /\ (payload_telemetry payload <> VUndefined ->
        truthy (payload_event payload) = true
        /\ payload_telemetry payload
           = normalizeTelemetry (prop (payload_event payload) "telemetry"))
    /\ (cache_fault <> None ->
        payload_event payload = VUndefined
        /\ payload_telemetry payload = VUndefined).
Proof.
  eexists. split; [apply readPayload_run|]. cbn [payload_device payload_event
                                                 payload_telemetry].
  split; [apply stored_device_in|]. split.
  - cbn zeta. destruct (truthy (cached_event cache_fault device_id w));
      [|now intros []].
    destruct (truthy (prop _ "telemetry")); [now split | now intros []].
  - destruct cache_fault as [msg|]; [intros _ | now intros []].
    now split.
Qed.

Lemma composite_is_object payload :
  exists fs, computeCompositeVehicleData payload = VObj fs.
Proof.
  unfold computeCompositeVehicleData. cbn zeta.
  destruct (truthy (payload_event payload)),
    (truthy (payload_telemetry payload));
    try destruct (truthy (prop (payload_telemetry payload) "gps"));
    cbn [set_prop]; now eexists.
Qed.

Lemma getVehicleById_run cache_fault q w :
  let device := stored_device (query_device_id q) w in
  let event := cached_event cache_fault (query_device_id q) w in
  getVehicleById cache_fault q w
  = (answered w
       (if negb (truthy device)
           || (truthy (asking_provider q)
               && negb (strict_equal (prop device "provider_id")
                                     (asking_provider q)))
        then mkResponse 404 (ObjectBody (VObj []))
        else mkResponse 200 (ObjectBody (computeCompositeVehicleData
               (mkPayload device event
                  (if truthy event && truthy (prop event "telemetry")
                   then normalizeTelemetry (prop event "telemetry")
                   else VUndefined))))),
     Ret tt).
Proof.
  cbn zeta. unfold getVehicleById, mbind. rewrite readPayload_run.
  cbn [payload_device]. fold (asking_provider q).
  destruct (negb _ || _); [reflexivity|].
  unfold send, answered.
  destruct (composite_is_object
              (mkPayload (stored_device (query_device_id q) w)
                 (cached_event cache_fault (query_device_id q) w)
                 (let event := cached_event cache_fault (query_device_id q) w in
                  if truthy event && truthy (prop event "telemetry")
                  then normalizeTelemetry (prop event "telemetry")
                  else VUndefined))) as [fs Hfs].
  cbn zeta in Hfs. rewrite Hfs. reflexivity.
Qed.

(** X24: [getVehicleById] never throws, changes nothing and sends exactly
    one response: 404 with an empty body, or 200 with the composite record
    of a device of the store of record that has the id asked for.  The
    [provider_id] it filters by is the one of the query string for a
    caller with the scope [vehicles:read] and the caller's own otherwise:
    when this [provider_id] is truthy, the device shown has exactly it;
    when it is falsy (absent), no filter applies and the device found for
    the id is shown whatever its provider. *)
Theorem getVehicleById_answers (cache_fault : fault) (q : VehicleQuery) (w : World) :
  exists resp,
    getVehicleById cache_fault q w = (answered w resp, Ret tt)
    /\ (resp = mkResponse 404 (ObjectBody (VObj []))
        \/ exists d event telemetry,
            In d (db_devices (db w))
            /\ same_value (prop d "device_id") (query_device_id q) = true
            /\ resp = mkResponse 200 (ObjectBody (computeCompositeVehicleData
                                                    (mkPayload d event telemetry)))
            /\ (truthy (asking_provider q) = true ->
                strict_equal (prop d "provider_id") (asking_provider q) = true))
    /\ (truthy (asking_provider q) = false ->
        truthy (stored_device (query_device_id q) w) = true ->
        status resp = 200%nat).
Proof.
  eexists. split; [apply getVehicleById_run|]. cbn zeta.
  destruct (truthy (stored_device (query_device_id q) w)) eqn:Hdev;
    cbn [negb orb]; [|split; [now left | discriminate]].
  destruct (truthy (asking_provider q)) eqn:Hp; cbn [andb].
  - split; [|discriminate].
    destruct (strict_equal _ (asking_provider q)) eqn:Hown; cbn [negb];
      [right | now left].
    destruct (stored_device_in _ _ Hdev) as [Hin Hid].
    do 3 eexists. repeat (split; [eassumption|]). split; [reflexivity|]. now intros _.
  - split; [|reflexivity]. right.
    destruct (stored_device_in _ _ Hdev) as [Hin Hid].
    do 3 eexists. repeat (split; [eassumption|]). split; [reflexivity|]. discriminate.
Qed.

(** X25: when the cache cannot be read, or has no event for the device,
    every vehicle that [getVehicleById] shows is reported in state
    [removed] with [decommissioned] as its last event, whatever the store
    of record has recorded of it. *)
Theorem getVehicleById_without_cached_event
        (cache_fault : fault) (q : VehicleQuery) (w : World) (composite : JsVal) :
  truthy (cached_event cache_fault (query_device_id q) w) = false ->
  responses (fst (getVehicleById cache_fault q w))
  = (responses w ++ [mkResponse 200 (ObjectBody composite)])%list ->
  prop composite "state" = VStr "removed"
  /\ prop composite "prev_events" = VArr [VStr "decommissioned"]
  /\ prop composite "updated" = prop (stored_device (query_device_id q) w) "updated".
Proof.
  intros Hevent Hresp. rewrite getVehicleById_run in Hresp.
  cbn zeta in Hresp. cbn [fst answered responses] in Hresp.
  apply app_inv_head in Hresp.
  destruct (negb _ || _); [discriminate|].
  injection Hresp as <-. rewrite Hevent. cbn [andb].
  unfold computeCompositeVehicleData.
  cbn [payload_device payload_event payload_telemetry truthy].
  rewrite Hevent. cbn zeta. cbn [set_prop prop].
  repeat first [rewrite lookup_assign_same
               |rewrite lookup_assign_other by discriminate].
  repeat split. now destruct (stored_device (query_device_id q) w).
Qed.

(* ================================================================== *)
(** ** From [submitVehicleEvent] to [getVehicleById] *)

Lemma find_rev_last {A} (f : A -> bool) (l : list A) (x : A) :
  f x = true -> find f (rev (l ++ [x])) = Some x.
Proof. intros Hx. rewrite rev_app_distr. simpl. now rewrite Hx. Qed.

Section RoundTrip.

Context {U : MdsUtils} {T : MdsTypes} {B : StringBuiltins}.
Variable env : Env.
Variable req : Request.

(** An accepted event reaches the cache when the cache takes it. *)
Lemma fan_out_cache recorded_event telemetry recorded s :
  cache_writeEvent_fault env = None ->
  exists s',
    fan_out env req recorded_event telemetry recorded s = (s', Ret tt)
    /\ db (world s') = db (world s)
    /\ cache_events (cache (world s'))
       = (cache_events (cache (world s)) ++ [recorded_event])%list.
Proof.
  intros Hcache. destruct s as [w ev].
  unfold fan_out, success, try_catch, mbind, on_world, Promise_all, the_event,
    cache_writeEvent, stream_writeEvent, cache_writeTelemetry,
    stream_writeTelemetry, set_event, attempt, mret, send.
  cbn [world event]. rewrite Hcache.
  destruct (stream_writeEvent_fault env), (truthy telemetry),
    (cache_writeTelemetry_fault env), (stream_writeTelemetry_fault env);
    cbn [world event db cache cache_events set_cache emit];
    eexists; repeat split.
Qed.

Lemma record_and_fan_out_cache recorded w ev :
  existsb (same_key ev) (db_events (db w)) = false ->
  device_known (db w) ev = true ->
  cache_writeEvent_fault env = None ->
  exists s',
    record_and_fan_out env req recorded (mkLocal w ev) = (s', Ret tt)
    /\ cache_events (cache (world s')) = (cache_events (cache w) ++ [ev])%list
    /\ db_devices (db (world s')) = db_devices (db w).
Proof.
  intros Hnew Hknown Hcache. unfold device_known in Hknown.
  unfold record_and_fan_out.
  rewrite (mbind_ret the_event _ _ (mkLocal w ev) ev eq_refl).
  cbn [event].
  set (w2 := if truthy (prop ev "telemetry")
             then fst (db_writeTelemetry [prop ev "telemetry"] w) else w).
  assert (Hw2 : db_devices (db w2) = db_devices (db w)
                /\ db_events (db w2) = db_events (db w)
                /\ cache w2 = cache w).
  { unfold w2. destruct (truthy (prop ev "telemetry")); [|now repeat split].
    unfold db_writeTelemetry.
    destruct (record_new _ _) as [known fresh]. now cbn. }
  destruct Hw2 as (Hdev2 & Hev2 & Hcache2).
  rewrite (mbind_ret _ _ (mkLocal w ev) (mkLocal w2 ev) tt).
  2:{ unfold w2. destruct (truthy (prop ev "telemetry")); [|reflexivity].
      unfold mbind, on_world, mret. cbn [world event].
      now destruct (db_writeTelemetry _ w) as [w' [fresh|e]] eqn:E;
        [|unfold db_writeTelemetry in E; destruct (record_new _ _);
          discriminate]. }
  unfold mbind at 1, on_world at 1, db_writeEvent. cbn [world event].
  rewrite Hev2, Hdev2, Hnew, Hknown. cbn [negb].
  destruct (fan_out_cache ev (prop ev "telemetry") recorded
              (mkLocal (set_db w2
                 (mkDb (db_devices (db w)) (db_events (db w) ++ [ev])
                       (db_telemetry (db w2)))) ev) Hcache)
    as (s' & Hrun & Hdb & Hce).
  exists s'. split; [exact Hrun|].
  rewrite Hce, Hdb. cbn [world cache db set_db db_devices].
  now rewrite Hcache2.
Qed.

(** X26: an event that [submitVehicleEvent] accepts and the cache takes is
    what [getVehicleById] then shows of the vehicle to its provider: the
    [state] is the [vehicle_state] of the body, [prev_events] are its
    event types in lower case and [updated] is its [timestamp]. *)
Theorem submitVehicleEvent_then_getVehicleById
        (w : World) (device ev : JsVal) (device_id provider_id : string)
        (event_types : list JsVal) :
  params_device_id req = VStr device_id ->
  locals_provider_id req = VStr provider_id ->
  prop (body req) "event_types" = VArr event_types ->
  snd (db_readDevice (params_device_id req) (locals_provider_id req) w)
  = Ret device ->
  snd (db_readDevice (params_device_id req) VUndefined w) = Ret device ->
  verdict device (submitted_event req (now_recorded env)) = (ev, Ret None) ->
  existsb (same_key ev) (db_events (db w)) = false ->
  cache_writeEvent_fault env = None ->
  let w' := fst (submitVehicleEvent env req w) in
  let q := mkVehicleQuery (params_device_id req) [] VUndefined
                          (locals_provider_id req) in
  exists composite,
    getVehicleById None q w'
    = (answered w' (mkResponse 200 (ObjectBody composite)), Ret tt)
    /\ prop composite "state" = prop (body req) "vehicle_state"
    /\ prop composite "prev_events" = VArr (map lower event_types)
    /\ prop composite "updated" = prop (body req) "timestamp".
Proof.
  intros Hdid Hpid Htypes Hread Hread' Hverdict Hnew Hcache. cbn zeta.
  assert (Hbody : nullish (body req) = false).
  { destruct (body req); try reflexivity; discriminate Htypes. }
  assert (Hev : forall k, k <> "trip_id" ->
                          prop ev k = prop (submitted_event req (now_recorded env)) k).
  { intros k Hk.
    rewrite <- (verdict_event_prop device (submitted_event req (now_recorded env)) k Hk).
    now rewrite Hverdict. }
  assert (Hid : prop ev "device_id" = params_device_id req).
  { rewrite Hev, submitted_event_prop by discriminate. apply new_event_device_id. }
  assert (Hobj : exists fs, ev = VObj fs).
  { apply prop_defined_object with (k := "device_id"). rewrite Hid, Hdid.
    discriminate. }
  assert (Hshown :
    negb (truthy device)
    || (truthy (VStr provider_id)
        && negb (strict_equal (prop device "provider_id") (VStr provider_id)))
    = false).
  { unfold db_readDevice in Hread.
    destruct (find _ (db_devices (db w))) as [d|] eqn:Hfind; [|discriminate].
    cbn [snd] in Hread. injection Hread as ->.
    apply find_some in Hfind. destruct Hfind as [_ Hcond].
    apply andb_true_iff in Hcond. destruct Hcond as [Hsame Hcond].
    rewrite Hpid in Hcond. rewrite Hdid in Hsame.
    assert (Htruthy : truthy device = true).
    { destruct device; try reflexivity; discriminate Hsame. }
    rewrite Htruthy. cbn [negb orb].
    destruct (truthy (VStr provider_id)); [|reflexivity].
    cbn [negb orb andb] in Hcond |- *.
    destruct (prop device "provider_id"); try discriminate Hcond.
    cbn in Hcond |- *. now rewrite Hcond. }
  (* the run *)
  destruct (submit_steps env req (now_recorded env) w device Hread)
    as (w1 & Hdb1 & _ & Hcache1 & _ & Hsub).
  rewrite Hverdict in Hsub.
  destruct (record_and_fan_out_cache (now_recorded env) w1 ev) as (s' & Hrec & Hce & Hdev);
    [now rewrite Hdb1
    |rewrite Hdb1; now apply (device_known_of_read _ _ _ _ _ Hread)
    |assumption|].
  rewrite Hrec in Hsub.
  rewrite (run_of_submit env req w s' _ Hbody Hsub). cbn [fst].
  rewrite Hdb1 in Hdev. rewrite Hcache1 in Hce.
  (* the read *)
  rewrite getVehicleById_run. cbn zeta. cbn [query_device_id].
  assert (Hstored : stored_device (params_device_id req) (world s') = device).
  { unfold stored_device.
    now rewrite (db_readDevice_devices _ _ w (world s') Hdev), Hread'. }
  assert (Hcached : cached_event None (params_device_id req) (world s') = ev).
  { unfold cached_event, cache_readEvent. rewrite Hce.
    rewrite find_rev_last; [reflexivity|].
    rewrite Hid. apply same_value_refl. }
  rewrite Hstored, Hcached.
  assert (Hprov : asking_provider (mkVehicleQuery (params_device_id req) []
                                     VUndefined (locals_provider_id req))
                  = VStr provider_id) by (now rewrite <- Hpid).
  rewrite Hprov, Hshown.
  eexists. split; [reflexivity|].
  destruct Hobj as [fs ->].
  unfold computeCompositeVehicleData.
  cbn [payload_device payload_event payload_telemetry truthy andb]. cbn zeta.
  set (telemetry := if truthy (prop (VObj fs) "telemetry") then _ else _).
  assert (Hkeep : forall k v composite, k <> "gps" ->
    prop (if truthy telemetry
          then if truthy (prop telemetry "gps")
               then set_prop composite "gps" v else composite
          else composite) k = prop composite k).
  { intros k v c Hk. destruct (truthy telemetry); [|reflexivity].
    destruct (truthy (prop telemetry "gps")); [|reflexivity].
    now apply prop_set_prop_other. }
  rewrite !Hkeep by discriminate.
  rewrite !Hev by discriminate.
  rewrite !submitted_event_prop by discriminate.
  rewrite !new_event_prop by discriminate.
  unfold event_literal.
  cbn [set_prop prop lookup String.eqb Ascii.eqb Bool.eqb].
  repeat first [rewrite lookup_assign_same
               |rewrite lookup_assign_other by discriminate].
  rewrite Htypes. cbn [truthy Array_isArray andb elements].
  repeat split.
Qed.

End RoundTrip.

(* ================================================================== *)
(** ** A batch of one row *)

Section SingleRow.

Context {U : MdsUtils} {H : AgencyHelpers}.

(** X27: a batch of one row whose [device_id] is a UUID that the store of
    record does not have for this provider is answered with status 400
    and the error [unregistered] with that [device_id]; the row is not
    looked at any further, and nothing is written. *)
Theorem submitVehicleTelemetry_single_unregistered
        (env : DeviceEnv) (req : BatchRequest) (w : World)
        (row : JsVal) (e : JsError) :
  truthy (batch_provider_id req) = true ->
  batch_data req = Some [row] ->
  has_property "device_id" row = Ret true ->
  isUUID (prop row "device_id") = true ->
  snd (db_readDevice (prop row "device_id") (batch_provider_id req) w) = Throw e ->
  isNotFoundError e = true ->
  submitVehicleTelemetry env req w
  = (w, Ret (mkBatchResponse 400 (SomeUnregistered [prop row "device_id"]))).
Proof.
  intros Hp Hdata Hhas Huuid Hread Hnf.
  rewrite (batch_run env req w [row] Hp Hdata).
  assert (Hids : snd (known_device_ids (batch_provider_id req) [row] w) = Throw e).
  { unfold known_device_ids, mbind, lift. rewrite Hhas, Huuid.
    destruct (db_readDevice_world (prop row "device_id") (batch_provider_id req) w)
      as [r Hr].
    rewrite Hr in Hread |- *. cbn [snd] in Hread. now subst r. }
  rewrite Hids. unfold batch_failed. rewrite Hnf. cbn [nth].
  assert (Hrow : nullish row = false).
  { destruct row; try reflexivity; discriminate Hhas. }
  now rewrite Hrow.
Qed.

End SingleRow.

(* ================================================================== *)
(** ** The properties above on the sample data *)

Lemma badEvent_error_kinds_witness :
  error missing_trip_id = "missing_param" \/ error missing_trip_id = "bad_param".
Proof.
  apply (badEvent_error_kinds (U := utils) (T := types)
           (device "micromobility") trip_start_without_trip_id).
  vm_compute; reflexivity.
Defined.

Lemma badEvent_accepts_only_legal_events_witness :
  exists ets events states,
    vocabulary_of (T := types) (prop (device "micromobility") "modality")
    = Some (events, states)
    /\ envelope_ok (U := utils) trip_start_event ets
    /\ Forall (in_vocabulary events) ets
    /\ in_vocabulary states (prop trip_start_event "vehicle_state")
    /\ trip_rules_ok (U := utils) trip_start_event ets.
Proof.
  apply (badEvent_accepts_only_legal_events (U := utils) (T := types)
           (device "micromobility") trip_start_event).
  vm_compute; reflexivity.
Defined.

Lemma provider_drop_off_needs_telemetry_only_witness :
  snd (badEvent (U := utils) (T := types) (device "micromobility") drop_off_event)
  = badTelemetry (U := utils) (prop drop_off_event "telemetry").
Proof.
  apply (provider_drop_off_needs_telemetry_only (U := utils) (T := types)
           (device "micromobility") drop_off_event [VStr "provider_drop_off"]).
  - split; [reflexivity|]. split.
    + apply sample_envelope_ok; [reflexivity | reflexivity | discriminate].
    + split; [reflexivity | vm_compute; reflexivity].
  - left. left. reflexivity.
  - vm_compute; reflexivity.
  - vm_compute; reflexivity.
Defined.

Lemma submitVehicleEvent_answers_once_witness :
  exists resp,
    responses (fst (submitVehicleEvent (U := utils) (T := types) (B := ascii_strings)
                      calm trip_start_request world0))
    = (responses world0 ++ [resp])%list
    /\ (status resp = 201%nat
        <-> exists ev,
            db_events (db (fst (submitVehicleEvent (U := utils) (T := types) (B := ascii_strings)
                                  calm trip_start_request world0)))
            = (db_events (db world0) ++ [ev])%list).
Proof.
  apply (submitVehicleEvent_answers_once (U := utils) (T := types) (B := ascii_strings)
           calm trip_start_request world0).
  reflexivity.
Defined.

Lemma submitVehicleEvent_unregistered_witness :
  responses (fst (submitVehicleEvent (U := utils) (T := types) (B := ascii_strings)
                    calm unregistered_request world0))
  = (responses world0 ++ [unregistered_response])%list
  /\ db (fst (submitVehicleEvent (U := utils) (T := types) (B := ascii_strings)
                calm unregistered_request world0)) = db world0.
Proof.
  apply (submitVehicleEvent_unregistered (U := utils) (T := types) (B := ascii_strings)
           calm unregistered_request world0).
  - reflexivity.
  - intros d [<- | []]. vm_compute; reflexivity.
Defined.

Lemma submitVehicleEvent_validation_failure_witness :
  let failure := mkError "bad_param"
                         [Text "invalid vehicle_state "; Subst (VStr "ON_TRIP")] in
  let w' := fst (submitVehicleEvent (U := utils) (T := types) (B := ascii_strings)
                   calm upper_case_state world0) in
  let ev := fst (verdict (U := utils) (T := types) (device "micromobility")
                   (submitted_event (B := ascii_strings) upper_case_state
                                    (now_recorded calm))) in
  db w' = db world0
  /\ (rejected_stream_fault calm = None ->
      snd (submitVehicleEvent (U := utils) (T := types) (B := ascii_strings)
             calm upper_case_state world0) = Ret tt
      /\ responses w'
         = (responses world0 ++ [mkResponse 400 (ErrorBody failure)])%list
      /\ exists earlier,
          stream w'
          = (earlier ++ [EventErrorRecord (locals_provider_id upper_case_state) ev
                           (now_error calm) (error_description failure)])%list)
  /\ (forall msg,
         rejected_stream_fault calm = Some msg ->
         responses w' = (responses world0 ++ [fail_answer (Error msg)])%list).
Proof.
  apply (submitVehicleEvent_validation_failure (U := utils) (T := types)
           (B := ascii_strings) calm upper_case_state world0
           (device "micromobility")).
  - reflexivity.
  - reflexivity.
  - vm_compute; reflexivity.
  - vm_compute; reflexivity.
Defined.

Lemma duplicate_event_still_records_telemetry_witness :
  let w := fst (submitVehicleEvent (U := utils) (T := types) (B := ascii_strings)
                  calm trip_start_request world0) in
  let ev := fst (verdict (U := utils) (T := types) (device "micromobility")
                   (submitted_event (B := ascii_strings) trip_start_later_telemetry (now_recorded calm))) in
  let w' := fst (submitVehicleEvent (U := utils) (T := types) (B := ascii_strings)
                   calm trip_start_later_telemetry w) in
  responses w' = (responses w ++ [already_received])%list
  /\ db_events (db w') = db_events (db w)
  /\ db_telemetry (db w') = (db_telemetry (db w) ++ [prop ev "telemetry"])%list.
Proof.
  apply (duplicate_event_still_records_telemetry (U := utils) (T := types) (B := ascii_strings)
           calm trip_start_later_telemetry
           (fst (submitVehicleEvent (U := utils) (T := types) (B := ascii_strings)
                   calm trip_start_request world0))
           (device "micromobility")).
  - reflexivity.
  - vm_compute; reflexivity.
  - vm_compute; reflexivity.
  - vm_compute; reflexivity.
  - vm_compute; reflexivity.
  - vm_compute; reflexivity.
Defined.

Lemma computeCompositeVehicleData_keeps_the_device_witness :
  prop (computeCompositeVehicleData payload) "device_id"
  = prop (payload_device payload) "device_id".
Proof.
  apply (computeCompositeVehicleData_keeps_the_device payload "device_id");
    discriminate.
Defined.

Lemma agencyValidationErrorParser_kinds_witness :
  let r := VObj [("error", VStr "missing_param");
                 ("error_description", VStr "A required parameter is missing.");
                 ("error_details", VArr [VStr "device_id"; VStr "vehicle_type"])] in
  (first_is_required required_errors = true
   /\ prop r "error" = VStr "missing_param"
   /\ prop r "error_description" = VStr "A required parameter is missing.")
  \/ (first_is_required required_errors = false
      /\ prop r "error" = VStr "bad_param"
      /\ prop r "error_description" = VStr "A validation error occurred.").
Proof.
  apply (agencyValidationErrorParser_kinds required_errors).
  vm_compute; reflexivity.
Defined.

Lemma agencyValidationErrorParser_missing_properties_witness :
  agencyValidationErrorParser required_errors
  = Ret (VObj [("error", VStr "missing_param");
               ("error_description", VStr "A required parameter is missing.");
               ("error_details", VArr (missing_properties
                                         (elements (prop required_errors "info"))))]).
Proof.
  apply (agencyValidationErrorParser_missing_properties required_errors).
  - reflexivity.
  - reflexivity.
  - reflexivity.
  - repeat (constructor; [split; [reflexivity | left; eexists; reflexivity]|]).
    constructor.
Defined.

Lemma agencyValidationErrorParser_invalid_properties_witness :
  agencyValidationErrorParser type_errors
  = Ret (VObj [("error", VStr "bad_param");
               ("error_description", VStr "A validation error occurred.");
               ("error_details", VArr (map invalid_property
                                           (elements (prop type_errors "info"))))])
  /\ Forall (fun d => exists p, prop d "property" = VStr p
                                /\ all_chars is_letter_or_underscore p = true)
            (map invalid_property (elements (prop type_errors "info"))).
Proof.
  apply (agencyValidationErrorParser_invalid_properties type_errors).
  - reflexivity.
  - reflexivity.
  - reflexivity.
  - repeat (constructor; [split; [reflexivity | eexists; reflexivity]|]).
    constructor.
Defined.

Lemma agencyValidationErrorParser_needs_a_first_error_witness :
  agencyValidationErrorParser no_errors = Throw null_read.
Proof.
  apply (agencyValidationErrorParser_needs_a_first_error no_errors []);
    reflexivity.
Defined.

Lemma submitVehicleTelemetry_counts_witness :
  exists data success failures,
    batch_data batch_of_three = Some data
    /\ batch_body (mkBatchResponse 200
                     (BatchAccepted 2 3 [batch_telemetry quiet P1
                                           (row D1 1600000000002 0)]))
       = BatchAccepted success (List.length data) failures
    /\ (success + List.length failures = List.length data)%nat
    /\ (0 < success)%nat.
Proof.
  apply (submitVehicleTelemetry_counts (U := utils) (H := helpers)
           quiet batch_of_three world0).
  - vm_compute; reflexivity.
  - reflexivity.
Defined.

Lemma submitVehicleTelemetry_records_only_valid_rows_witness :
  let t := batch_telemetry quiet P1 (row D1 1600000000001 34) in
  In t (db_telemetry (db world0))
  \/ exists data row d,
      batch_data batch_of_three = Some data /\ In row data
      /\ t = batch_telemetry quiet (batch_provider_id batch_of_three) row
      /\ prop (prop t "gps") "accuracy" = prop (prop row "gps") "hdop"
      /\ badTelemetry (U := utils) t = Ret None
      /\ In d (db_devices (db world0))
      /\ same_value_zero (prop t "device_id") (prop d "device_id") = true.
Proof.
  apply (submitVehicleTelemetry_records_only_valid_rows (U := utils) (H := helpers)
           quiet batch_of_three world0).
  vm_compute. left. reflexivity.
Defined.

Lemma submitVehicleTelemetry_again_witness :
  let w1 := fst (submitVehicleTelemetry (U := utils) (H := helpers)
                   quiet batch_of_three world0) in
  exists failures,
    snd (submitVehicleTelemetry (U := utils) (H := helpers) noisy batch_of_three w1)
    = Ret (mkBatchResponse 400 (InvalidData failures))
    /\ db (fst (submitVehicleTelemetry (U := utils) (H := helpers)
                  noisy batch_of_three w1)) = db w1.
Proof.
  apply (submitVehicleTelemetry_again (U := utils) (H := helpers)
           quiet noisy batch_of_three world0
           (mkBatchResponse 200
              (BatchAccepted 2 3 [batch_telemetry quiet P1
                                    (row D1 1600000000002 0)]))).
  - vm_compute; reflexivity.
  - reflexivity.
Defined.

Lemma submitVehicleTelemetry_unreadable_row_witness :
  submitVehicleTelemetry (U := utils) (H := helpers) quiet batch_without_gps world0
  = (world0, Ret (mkBatchResponse 500 ServerFailure)).
Proof.
  apply (submitVehicleTelemetry_unreadable_row (U := utils) (H := helpers)
           quiet batch_without_gps world0
           [row D1 1600000000001 34; VObj [("device_id", D1); ("timestamp", t0)]]).
  - reflexivity.
  - reflexivity.
  - discriminate.
  - reflexivity.
  - reflexivity.
Defined.

Lemma submitVehicleTelemetry_single_unregistered_witness :
  submitVehicleTelemetry (U := utils) (H := helpers) quiet one_row_unregistered world0
  = (world0, Ret (mkBatchResponse 400
                    (SomeUnregistered [prop (row D2 1600000000001 34) "device_id"]))).
Proof.
  apply (submitVehicleTelemetry_single_unregistered (U := utils) (H := helpers)
           quiet one_row_unregistered world0 (row D2 1600000000001 34)
           (Error "device not found")).
  - reflexivity.
  - reflexivity.
  - reflexivity.
  - vm_compute; reflexivity.
  - vm_compute; reflexivity.
  - vm_compute; reflexivity.
Defined.

Lemma registerVehicle_registers_witness :
  let w' := fst (registerVehicle (H := helpers) quiet registration world0) in
  snd (registerVehicle (H := helpers) quiet registration world0) = Ret tt
  /\ responses w' = (responses world0 ++ [mkResponse 201 (ObjectBody (VObj []))])%list
  /\ db w' = mkDb (db_devices (db world0) ++ [new_device quiet registration])
                  (db_events (db world0)) (db_telemetry (db world0))
  /\ snd (db_readDevice (prop (body registration) "device_id")
                        (locals_provider_id registration) w')
     = Ret (new_device quiet registration).
Proof.
  apply (registerVehicle_registers (H := helpers) quiet registration world0).
  - reflexivity.
  - vm_compute; reflexivity.
  - vm_compute; reflexivity.
Defined.

Lemma registerVehicle_already_registered_witness :
  let w := fst (registerVehicle (H := helpers) quiet registration world0) in
  registerVehicle (H := helpers) noisy registration w
  = (mkWorld (db w) (cache w) (stream w)
             (responses w
              ++ [mkResponse 409 (ErrorBody (mkError "already_registered"
                    [Text "A vehicle with this device_id is already registered"]))]),
     Ret tt).
Proof.
  apply (registerVehicle_already_registered (H := helpers) noisy registration
           (fst (registerVehicle (H := helpers) quiet registration world0))).
  - reflexivity.
  - vm_compute; reflexivity.
  - vm_compute; reflexivity.
Defined.

Lemma updateVehicle_answers_witness :
  let w' := fst (updateVehicle noisy rename_request world0) in
  snd (updateVehicle noisy rename_request world0) = Ret tt
  /\ ((responses w' = (responses world0 ++ [mkResponse 404 (ObjectBody (VObj []))])%list
       /\ db w' = db world0)
      \/ (responses w' = (responses world0 ++ [mkResponse 201 (ObjectBody (VObj []))])%list
          /\ db_events (db w') = db_events (db world0)
          /\ db_telemetry (db w') = db_telemetry (db world0)
          /\ List.length (db_devices (db w')) = List.length (db_devices (db world0))
          /\ exists d0,
              snd (db_readDevice (params_device_id rename_request)
                                 (locals_provider_id rename_request) world0)
              = Ret d0
              /\ strict_equal (prop d0 "provider_id")
                              (locals_provider_id rename_request) = true
              /\ In (set_prop d0 "vehicle_id" (prop (body rename_request) "vehicle_id"))
                    (db_devices (db w')))).
Proof.
  apply (updateVehicle_answers noisy rename_request world0).
  reflexivity.
Defined.

Lemma getVehicleById_without_cached_event_witness :
  let w := fst (submitVehicleEvent (U := utils) (T := types) (B := ascii_strings)
                  calm trip_start_request world0) in
  let composite := VObj [("device_id", D1); ("provider_id", P1);
                         ("modality", VStr "micromobility");
                         ("state", VStr "removed");
                         ("prev_events", VArr [VStr "decommissioned"])] in
  prop composite "state" = VStr "removed"
  /\ prop composite "prev_events" = VArr [VStr "decommissioned"]
  /\ prop composite "updated" = prop (stored_device (query_device_id own_query) w)
                                     "updated".
Proof.
  apply (getVehicleById_without_cached_event (Some "cache down") own_query
           (fst (submitVehicleEvent (U := utils) (T := types) (B := ascii_strings)
                   calm trip_start_request world0))).
  - reflexivity.
  - vm_compute; reflexivity.
Defined.

Lemma submitVehicleEvent_then_getVehicleById_witness :
  let w' := fst (submitVehicleEvent (U := utils) (T := types) (B := ascii_strings)
                   calm trip_start_request world0) in
  let q := mkVehicleQuery (params_device_id trip_start_request) [] VUndefined
                          (locals_provider_id trip_start_request) in
  exists composite,
    getVehicleById None q w'
    = (answered w' (mkResponse 200 (ObjectBody composite)), Ret tt)
    /\ prop composite "state" = prop (body trip_start_request) "vehicle_state"
    /\ prop composite "prev_events"
       = VArr (map (lower (B := ascii_strings)) [VStr "trip_start"])
    /\ prop composite "updated" = prop (body trip_start_request) "timestamp".
Proof.
  apply (submitVehicleEvent_then_getVehicleById (U := utils) (T := types) (B := ascii_strings)
           calm trip_start_request world0 (device "micromobility")
           (fst (verdict (U := utils) (T := types) (device "micromobility")
                   (submitted_event (B := ascii_strings) trip_start_request (now_recorded calm))))
           "11111111-2222-4333-8444-555555555555"
           "99999999-8888-4777-8666-555555555555").
  - reflexivity.
  - reflexivity.
  - reflexivity.
  - vm_compute; reflexivity.
  - vm_compute; reflexivity.
  - vm_compute; reflexivity.
  - vm_compute; reflexivity.
  - reflexivity.
Defined.
